(** * IELTS AI Prep: entitlement ledger, regional router and live session

    A shallow embedding of three pieces of the repository:
    - [dynamodb_dal.py], class [EntitlementDAL] (purchase entitlements);
    - [gemini_regional_router.py], class [GeminiRegionalRouter];
    - [gemini_live_audio_service_aws.py], class [GeminiLiveSessionAWS].

    Conventions.
    - A Python [str] is a Rocq [string] read as a sequence of code points
      below 256; [lower], [upper] and [strip] act on those code points as
      Python does.
    - A [datetime] is a [Z]: microseconds since the epoch (the resolution of
      [datetime]).  [datetime.utcnow()] is an argument [now] of the
      operation that reads the clock.
    - Exceptions are the [Raise] case of [result]; [try ... except] is
      [try_except].
    - Logging is not modelled. *)

From stdpp Require Import gmap strings list pretty.
From Stdlib Require Import ZArith String Ascii List Bool Lia QArith OrdersEx Sorted.
Import ListNotations.

Local Open Scope string_scope.
Local Open Scope Z_scope.

(* ------------------------------------------------------------------ *)
(** ** Python strings *)

Module PyStr.

Definition code (c : ascii) : N := N_of_ascii c.

(** [str.isspace] on one character: TAB..CR, FS..US, space, NEL, NBSP. *)
Definition is_space (c : ascii) : bool :=
  let n := code c in
  ((9 <=? n) && (n <=? 13) || (28 <=? n) && (n <=? 32)
   || (n =? 133) || (n =? 160))%N.

Fixpoint lstrip (s : string) : string :=
  match s with
  | EmptyString => EmptyString
  | String c s' => if is_space c then lstrip s' else s
  end.

Definition rstrip (s : string) : string := String.rev (lstrip (String.rev s)).

(** [s.strip()] *)
Definition strip (s : string) : string := rstrip (lstrip s).

(** Truth value of a string: non-empty. *)
Definition truthy (s : string) : bool :=
  match s with EmptyString => false | String _ _ => true end.

Fixpoint map_chars (f : ascii -> ascii) (s : string) : string :=
  match s with
  | EmptyString => EmptyString
  | String c s' => String (f c) (map_chars f s')
  end.

(** One character of [str.lower]: A-Z, and the capital letters
    U+00C0..U+00DE other than the multiplication sign U+00D7. *)
Definition lower_char (c : ascii) : ascii :=
  let n := code c in
  if ((65 <=? n) && (n <=? 90)
      || (192 <=? n) && (n <=? 222) && negb (n =? 215))%N
  then ascii_of_N (n + 32) else c.

(** One character of [str.upper]: a-z, and U+00E0..U+00FE other than the
    division sign U+00F7.  The three characters below 256 whose upper
    case has no single code point below 256 (U+00B5, U+00DF, U+00FF) are
    left as they are; no key of a table of this program contains them or
    their upper case. *)
Definition upper_char (c : ascii) : ascii :=
  let n := code c in
  if ((97 <=? n) && (n <=? 122)
      || (224 <=? n) && (n <=? 254) && negb (n =? 247))%N
  then ascii_of_N (n - 32) else c.

Definition lower : string -> string := map_chars lower_char.
Definition upper : string -> string := map_chars upper_char.

(** [needle in hay] *)
Fixpoint contains (needle hay : string) : bool :=
  String.prefix needle hay
  || match hay with
     | EmptyString => false
     | String _ hay' => contains needle hay'
     end.

(** [d.get(k)] on a dict literal kept as an association list. *)
Fixpoint dict_get {V : Type} (d : list (string * V)) (k : string) : option V :=
  match d with
  | [] => None
  | (k', v) :: d' => if String.eqb k' k then Some v else dict_get d' k
  end.

(** [d.get(k, dflt)] *)
Definition dict_get_default {V : Type} (d : list (string * V)) (k : string) (dflt : V) : V :=
  match dict_get d k with Some v => v | None => dflt end.

(** [k in d] *)
Definition dict_mem {V : Type} (d : list (string * V)) (k : string) : bool :=
  match dict_get d k with Some _ => true | None => false end.

End PyStr.

(* ------------------------------------------------------------------ *)
(** ** State and exceptions *)

Module Eff.

Inductive exn : Type :=
| StorageError      (* an error of a boto3 table call *)
| RemoteError       (* an error of the Gemini client or session *)
| KeyError (k : string)
| OverflowError.    (* a date or a duration out of range *)

Inductive result (A : Type) : Type :=
| Ok (a : A)
| Raise (e : exn).
Arguments Ok {A} a.
Arguments Raise {A} e.

(** A computation over a state [St] that returns or raises. *)
Definition M (St A : Type) : Type := St -> result A * St.

Definition ret {St A} (a : A) : M St A := fun s => (Ok a, s).

Definition raise {St A} (e : exn) : M St A := fun s => (Raise e, s).

Definition bind {St A B} (m : M St A) (k : A -> M St B) : M St B :=
  fun s =>
    match m s with
    | (Ok a, s') => k a s'
    | (Raise e, s') => (Raise e, s')
    end.

(** [try: m  except Exception as e: h e]; what [m] did to the state
    before it raised stays done. *)
Definition try_except {St A} (m : M St A) (h : exn -> M St A) : M St A :=
  fun s =>
    match m s with
    | (Ok a, s') => (Ok a, s')
    | (Raise e, s') => h e s'
    end.

Definition is_ok {A} (r : result A) : bool :=
  match r with Ok _ => true | Raise _ => false end.

End Eff.

Notation "x <- m ;; k" := (Eff.bind m (fun x => k))
  (at level 100, m at next level, right associativity).
Notation "m ;;; k" := (Eff.bind m (fun _ => k))
  (at level 100, right associativity).

(* ------------------------------------------------------------------ *)
(** ** dynamodb_dal.py: EntitlementDAL *)

Module EntitlementDAL.
Import PyStr Eff.

(** Product configuration - number of assessments per purchase. *)
Definition PRODUCT_ASSESSMENTS : list (string * Z) :=
  [ ("com.ieltsaiprep.academic.writing", 2);
    ("com.ieltsaiprep.general.writing", 2);
    ("com.ieltsaiprep.academic.speaking", 2);
    ("com.ieltsaiprep.general.speaking", 2);
    ("com.ieltsaiprep.academic.mocktest", 2);
    ("com.ieltsaiprep.general.mocktest", 2);
    ("academic_writing", 2);
    ("general_writing", 2);
    ("academic_speaking", 2);
    ("general_speaking", 2) ].

(** The receipt passed to [grant_entitlement]: a dict. *)
Definition Receipt : Type := list (string * string).

(** [json.dumps], from the Python standard library. *)
Class JsonDumps := json_dumps : Receipt -> string.

(** Truth value of [receipt_data : Optional[Dict]]. *)
Definition receipt_truthy (r : option Receipt) : bool :=
  match r with
  | Some (_ :: _) => true
  | _ => false
  end.

(** An item of the entitlements table.  Every item is written by
    [grant_entitlement]; [receipt_data] and [last_used_assessment] are
    the two attributes an item may lack. *)
Record Entitlement : Type := {
  user_id : string;
  product_id : string;
  transaction_id : string;
  platform : string;
  assessments_purchased : Z;
  assessments_remaining : Z;
  purchase_date : Z;
  status : string;
  receipt_verified : bool;
  created_at : Z;
  updated_at : Z;
  receipt_data : option string;
  last_used_assessment : option string
}.

(** *** The table

    The table has partition key [user_id] and sort key [product_id]
    (the [Key] of [update_item], the [KeyConditionExpression] of the
    queries).  It is kept as the list of its items in key order, the
    order in which a DynamoDB query returns them.  [faults] scripts the
    table calls to come: each call takes the head, and raises when it is
    [true]; an empty script means no call fails. *)
Record Store : Type := {
  items : list Entitlement;
  faults : list bool
}.

(** The order of the keys: strings compare character by character, by
    code point. *)
Definition key_compare (e x : Entitlement) : comparison :=
  match String_as_OT.compare (user_id e) (user_id x) with
  | Eq => String_as_OT.compare (product_id e) (product_id x)
  | c => c
  end.

Definition key_lt (e x : Entitlement) : Prop := key_compare e x = Lt.

Definition same_key (e x : Entitlement) : bool :=
  String.eqb (user_id e) (user_id x) && String.eqb (product_id e) (product_id x).

Fixpoint insert_sorted (e : Entitlement) (t : list Entitlement) : list Entitlement :=
  match t with
  | [] => [e]
  | x :: t' =>
      match key_compare e x with
      | Gt => x :: insert_sorted e t'
      | _ => e :: x :: t'
      end
  end.

(** The table after [put_item(Item=e)]: an item with the key of [e] is
    replaced. *)
Definition put (e : Entitlement) (t : list Entitlement) : list Entitlement :=
  insert_sorted e (List.filter (fun x => negb (same_key e x)) t).

(** One call of the boto3 table. *)
Definition table_call {A : Type} (f : list Entitlement -> A * list Entitlement)
  : M Store A :=
  fun s =>
    match faults s with
    | true :: fs => (Raise StorageError, {| items := items s; faults := fs |})
    | fs => let '(a, t) := f (items s) in
            (Ok a, {| items := t; faults := tl fs |})
    end.

Definition by_user (uid : string) (t : list Entitlement) : list Entitlement :=
  List.filter (fun e => String.eqb (user_id e) uid) t.

Definition by_transaction (tid : string) (t : list Entitlement) : list Entitlement :=
  List.filter (fun e => String.eqb (transaction_id e) tid) t.

(** [table.query(KeyConditionExpression=Key('user_id').eq(uid))['Items']] *)
Definition query_user (uid : string) : M Store (list Entitlement) :=
  table_call (fun t => (by_user uid t, t)).

(** [table.query(IndexName='TransactionIndex', ...eq(tid))['Items']] *)
Definition query_transaction_index (tid : string) : M Store (list Entitlement) :=
  table_call (fun t => (by_transaction tid t, t)).

(** [table.put_item(Item=e)] *)
Definition put_item (e : Entitlement) : M Store unit :=
  table_call (fun t => (tt, put e t)).

(** The item [e] after [SET assessments_remaining = :remaining, #status =
    :status, updated_at = :updated, last_used_assessment =
    :assessment_id]. *)
Definition set_consumption (remaining : Z) (new_status : string) (updated : Z)
    (assessment_id : string) (e : Entitlement) : Entitlement :=
  {| user_id := user_id e;
     product_id := product_id e;
     transaction_id := transaction_id e;
     platform := platform e;
     assessments_purchased := assessments_purchased e;
     assessments_remaining := remaining;
     purchase_date := purchase_date e;
     status := new_status;
     receipt_verified := receipt_verified e;
     created_at := created_at e;
     updated_at := updated;
     receipt_data := receipt_data e;
     last_used_assessment := Some assessment_id |}.

(** [table.update_item(Key={'user_id': uid, 'product_id': pid}, ...)]
    with the [SET] above.  The item with that key is always there when
    [consume_assessment] makes the call (lemma
    [consume_updates_stored_item]); on a missing key DynamoDB would
    create an item, and the table is left as it is here. *)
Definition update_item (uid pid : string) (remaining : Z) (new_status : string)
    (updated : Z) (assessment_id : string) : M Store unit :=
  table_call (fun t =>
    (tt, List.map (fun e =>
                if String.eqb (user_id e) uid && String.eqb (product_id e) pid
                then set_consumption remaining new_status updated assessment_id e
                else e) t)).

(** *** The operations *)

Definition get_entitlement_by_transaction (tid : string) : M Store (option Entitlement) :=
  try_except
    (found <- query_transaction_index tid ;;
     ret (List.head found))
    (fun _ => ret None).

Section Grant.
Context `{JsonDumps}.

(** The [entitlement_data] dict of [grant_entitlement]. *)
Definition entitlement_data (now : Z) (uid pid tid plat : string)
    (receipt : option Receipt) : Entitlement :=
  let assessment_count := dict_get_default PRODUCT_ASSESSMENTS pid 2 in
  {| user_id := uid;
     product_id := pid;
     transaction_id := tid;
     platform := plat;
     assessments_purchased := assessment_count;
     assessments_remaining := assessment_count;
     purchase_date := now;
     status := "active";
     receipt_verified := if receipt_truthy receipt then true else false;
     created_at := now;
     updated_at := now;
     receipt_data :=
       match receipt with
       | Some r => if receipt_truthy receipt then Some (json_dumps r) else None
       | None => None
       end;
     last_used_assessment := None |}.

Definition grant_entitlement (now : Z) (uid pid tid plat : string)
    (receipt : option Receipt) : M Store bool :=
  try_except
    (if negb (truthy tid) || negb (truthy (strip tid)) then ret false
     else
       existing <- get_entitlement_by_transaction tid ;;
       match existing with
       | Some _ => ret false
       | None =>
           put_item (entitlement_data now uid pid tid plat receipt) ;;;
           ret true
       end)
    (fun _ => ret false).
End Grant.

(** The result dict of [check_entitlement]; [total_remaining] is its
    ['assessments_remaining'] entry. *)
Record AccessResult : Type := {
  has_access : bool;
  total_remaining : Z;
  products : list Entitlement;
  total_products : Z
}.

(** [status == 'active' and module_type in product_id.lower()] *)
Definition matches (module_type : string) (ent : Entitlement) : bool :=
  String.eqb (status ent) "active"
  && contains module_type (lower (product_id ent)).

Fixpoint check_loop (module_type : string) (entitlements : list Entitlement)
    (matching_entitlements : list Entitlement) (total : Z)
  : list Entitlement * Z :=
  match entitlements with
  | [] => (matching_entitlements, total)
  | ent :: rest =>
      if matches module_type ent
      then check_loop module_type rest (matching_entitlements ++ [ent])
                      (total + assessments_remaining ent)
      else check_loop module_type rest matching_entitlements total
  end.

Definition no_access : AccessResult :=
  {| has_access := false; total_remaining := 0; products := []; total_products := 0 |}.

Definition check_entitlement (uid module_type : string) : M Store AccessResult :=
  try_except
    (entitlements <- query_user uid ;;
     let '(matching_entitlements, total) := check_loop module_type entitlements [] 0 in
     ret {| has_access := 0 <? total;
            total_remaining := total;
            products := matching_entitlements;
            total_products := Z.of_nat (List.length matching_entitlements) |})
    (fun _ => ret no_access).

(** The units left in a list of entitlements. *)
Definition sum_remaining (l : list Entitlement) : Z :=
  fold_right (fun e acc => assessments_remaining e + acc) 0 l.

(** The test of the loop of [consume_assessment]. *)
Definition consumable (module_type : string) (ent : Entitlement) : bool :=
  matches module_type ent && (0 <? assessments_remaining ent).

Fixpoint consume_loop (now : Z) (uid module_type assessment_id : string)
    (entitlements : list Entitlement) : M Store bool :=
  match entitlements with
  | [] => ret false
  | ent :: rest =>
      if consumable module_type ent
      then
        let new_remaining := assessments_remaining ent - 1 in
        let new_status := if 0 <? new_remaining then "active" else "consumed" in
        update_item uid (product_id ent) new_remaining new_status now assessment_id ;;;
        ret true
      else consume_loop now uid module_type assessment_id rest
  end.

Definition consume_assessment (now : Z) (uid module_type assessment_id : string)
  : M Store bool :=
  try_except
    (entitlements <- query_user uid ;;
     consume_loop now uid module_type assessment_id entitlements)
    (fun _ => ret false).

(** The update [consume_assessment] applies for the entitlement [ent]. *)
Definition consumption_of (now : Z) (uid assessment_id : string) (ent e : Entitlement)
  : Entitlement :=
  if String.eqb (user_id e) uid && String.eqb (product_id e) (product_id ent)
  then set_consumption (assessments_remaining ent - 1)
         (if 0 <? assessments_remaining ent - 1 then "active" else "consumed")
         now assessment_id e
  else e.

(** The item [consume_assessment] writes back for [ent]. *)
Definition decremented (now : Z) (assessment_id : string) (ent : Entitlement) : Entitlement :=
  set_consumption (assessments_remaining ent - 1)
    (if 0 <? assessments_remaining ent - 1 then "active" else "consumed")
    now assessment_id ent.

(** The table with the item of the key of [ent] replaced by [ent']. *)
Definition replace_item (ent ent' : Entitlement) (t : list Entitlement) : list Entitlement :=
  List.map (fun e => if same_key e ent then ent' else e) t.

(** [ent] is the entitlement of the user that the module type can
    consume and that has the least product id among those. *)
Definition first_consumable (uid module_type : string) (t : list Entitlement)
    (ent : Entitlement) : Prop :=
  In ent t /\ user_id ent = uid /\ consumable module_type ent = true
  /\ forall x, In x t -> user_id x = uid -> consumable module_type x = true ->
       x = ent \/ String_as_OT.lt (product_id ent) (product_id x).

Definition get_remaining_assessments (uid module_type : string) : M Store Z :=
  r <- check_entitlement uid module_type ;;
  ret (total_remaining r).

(** *** Sequences of ledger operations *)

Inductive LedgerOp : Type :=
| Grant (now : Z) (uid pid tid plat : string) (receipt : option Receipt)
| Consume (now : Z) (uid module_type assessment_id : string).

Definition run_op `{JsonDumps} (op : LedgerOp) (s : Store) : Store :=
  match op with
  | Grant now uid pid tid plat receipt =>
      snd (grant_entitlement now uid pid tid plat receipt s)
  | Consume now uid module_type assessment_id =>
      snd (consume_assessment now uid module_type assessment_id s)
  end.

Definition run_ops `{JsonDumps} (ops : list LedgerOp) (s : Store) : Store :=
  fold_left (fun st op => run_op op st) ops s.

(** A rendering of a flat receipt, to run the operations on examples
    (keys and values without characters that JSON escapes). *)
Definition dquote : string := String (ascii_of_nat 34) EmptyString.

Definition render_pair (kv : string * string) : string :=
  dquote +:+ fst kv +:+ dquote +:+ ": " +:+ dquote +:+ snd kv +:+ dquote.

Definition render_flat : JsonDumps :=
  fun r => "{" +:+ String.concat ", " (List.map render_pair r) +:+ "}".

Definition empty_store : Store := {| items := []; faults := [] |}.

(** *** Invariants *)

(** The units and the status of one item agree. *)
Definition units_ok (e : Entitlement) : Prop :=
  0 <= assessments_remaining e <= assessments_purchased e
  /\ (status e = "active" \/ status e = "consumed")
  /\ (status e = "consumed" <-> assessments_remaining e = 0)
  /\ (status e = "active" <-> 0 < assessments_remaining e).

(** No two items of the table have the same key. *)
Fixpoint keys_unique (t : list Entitlement) : Prop :=
  match t with
  | [] => True
  | e :: t' => (forall x, In x t' -> same_key e x = false) /\ keys_unique t'
  end.

(** The table is in key order. *)
Definition sorted (t : list Entitlement) : Prop := StronglySorted key_lt t.

Definition table_ok (t : list Entitlement) : Prop :=
  sorted t /\ Forall units_ok t.

(** [e'] is the item [e] at a later time: the same purchase. *)
Definition same_record (e e' : Entitlement) : Prop :=
  user_id e' = user_id e
  /\ product_id e' = product_id e
  /\ transaction_id e' = transaction_id e
  /\ purchase_date e' = purchase_date e
  /\ assessments_purchased e' = assessments_purchased e.

(** [e'] is the item the operation creates. *)
Definition created_by `{JsonDumps} (op : LedgerOp) (e' : Entitlement) : Prop :=
  match op with
  | Grant now uid pid tid plat receipt =>
      e' = entitlement_data now uid pid tid plat receipt
  | Consume _ _ _ _ => False
  end.

(** *** The rest of the class *)

Definition get_user_entitlements (uid : string) : M Store (list Entitlement) :=
  try_except (query_user uid) (fun _ => ret []).

(** The user an operation is for. *)
Definition op_user (op : LedgerOp) : string :=
  match op with
  | Grant _ uid _ _ _ _ => uid
  | Consume _ uid _ _ => uid
  end.

(** The units [check_entitlement] counts for a user and a module type in
    a table. *)
Definition user_units (uid module_type : string) (t : list Entitlement) : Z :=
  sum_remaining (List.filter (matches module_type) (by_user uid t)).

(** The table without the item of the user for the product. *)
Definition without_product (uid pid : string) (t : list Entitlement) : list Entitlement :=
  List.filter (fun x => negb (String.eqb (user_id x) uid && String.eqb (product_id x) pid)) t.

End EntitlementDAL.

(* ------------------------------------------------------------------ *)
(** ** Ledgers to run the operations on *)

Module LedgerExamples.
Import PyStr Eff EntitlementDAL.
#[local] Existing Instance render_flat.

(** One purchase of the academic writing product on an empty ledger. *)
Definition one_purchase : Store :=
  snd (grant_entitlement 1000 "user-1" "com.ieltsaiprep.academic.writing" "tx-001"
         "ios" (Some [("receipt", "abc")]) empty_store).

(** The general writing product bought first, the academic one later. *)
Definition two_purchases : Store :=
  run_ops [ Grant 100 "user-1" "com.ieltsaiprep.general.writing" "tx-old" "ios" None;
            Grant 200 "user-1" "com.ieltsaiprep.academic.writing" "tx-new" "android" None ]
          empty_store.

Definition general_writing : Entitlement :=
  entitlement_data 100 "user-1" "com.ieltsaiprep.general.writing" "tx-old" "ios" None.

Definition academic_writing : Entitlement :=
  entitlement_data 200 "user-1" "com.ieltsaiprep.academic.writing" "tx-new" "android" None.

(** A purchase used up. *)
Definition used_up : Store :=
  run_ops [ Grant 100 "user-1" "academic_writing" "tx-1" "ios" None;
            Consume 110 "user-1" "academic_writing" "assessment-1";
            Consume 120 "user-1" "academic_writing" "assessment-2" ]
          empty_store.

(** Then the same product bought again, and the first transaction
    granted once more. *)
Definition bought_again : Store :=
  run_op (Grant 200 "user-1" "academic_writing" "tx-2" "ios" None) used_up.

Definition granted_again : Store :=
  run_op (Grant 300 "user-1" "academic_writing" "tx-1" "ios" None) bought_again.

(** A table whose next call raises. *)
Definition failing (t : list Entitlement) : Store := {| items := t; faults := [true] |}.

End LedgerExamples.

(* ------------------------------------------------------------------ *)
(** ** gemini_regional_router.py: GeminiRegionalRouter *)

Module GeminiRegionalRouter.
Import PyStr Eff.

Record RegionInfo : Type := {
  continent : string;
  location : string;
  latency_base : Z;
  health : string
}.

(** The location of southamerica-east1 as the source file has it: its
    third and fourth characters are the code points 195 and 163. *)
Definition sao_paulo : string :=
  "S" +:+ String (ascii_of_nat 195) (String (ascii_of_nat 163) "o Paulo, Brazil").

(** 21 Vertex AI regions, in the order of the dict literal. *)
Definition VERTEX_AI_REGIONS : list (string * RegionInfo) :=
  [
    ("us-central1", {| continent := "North America"; location := "Iowa, USA"; latency_base := 50; health := "healthy" |});
    ("us-east4", {| continent := "North America"; location := "Virginia, USA"; latency_base := 55; health := "healthy" |});
    ("southamerica-east1", {| continent := "South America"; location := sao_paulo; latency_base := 100; health := "healthy" |});
    ("europe-west1", {| continent := "Europe"; location := "Belgium"; latency_base := 45; health := "healthy" |});
    ("europe-west2", {| continent := "Europe"; location := "London, UK"; latency_base := 50; health := "healthy" |});
    ("europe-west3", {| continent := "Europe"; location := "Frankfurt, Germany"; latency_base := 48; health := "healthy" |});
    ("europe-west4", {| continent := "Europe"; location := "Netherlands"; latency_base := 47; health := "healthy" |});
    ("europe-west8", {| continent := "Europe"; location := "Milan, Italy"; latency_base := 52; health := "healthy" |});
    ("europe-west9", {| continent := "Europe"; location := "Paris, France"; latency_base := 46; health := "healthy" |});
    ("europe-north1", {| continent := "Europe"; location := "Finland"; latency_base := 55; health := "healthy" |});
    ("europe-southwest1", {| continent := "Europe"; location := "Madrid, Spain"; latency_base := 54; health := "healthy" |});
    ("asia-southeast1", {| continent := "Asia"; location := "Singapore"; latency_base := 35; health := "healthy" |});
    ("asia-northeast1", {| continent := "Asia"; location := "Tokyo, Japan"; latency_base := 40; health := "healthy" |});
    ("asia-northeast3", {| continent := "Asia"; location := "Seoul, South Korea"; latency_base := 42; health := "healthy" |});
    ("asia-south1", {| continent := "Asia"; location := "Mumbai, India"; latency_base := 60; health := "healthy" |});
    ("asia-east1", {| continent := "Asia"; location := "Taiwan"; latency_base := 45; health := "healthy" |});
    ("asia-east2", {| continent := "Asia"; location := "Hong Kong"; latency_base := 43; health := "healthy" |});
    ("me-west1", {| continent := "Middle East"; location := "Tel Aviv, Israel"; latency_base := 70; health := "healthy" |});
    ("me-central1", {| continent := "Middle East"; location := "Doha, Qatar"; latency_base := 75; health := "healthy" |});
    ("australia-southeast1", {| continent := "Australia"; location := "Sydney, Australia"; latency_base := 120; health := "healthy" |});
    ("africa-south1", {| continent := "Africa"; location := "Johannesburg, South Africa"; latency_base := 150; health := "healthy" |}) ].

(** Country to region mapping. *)
Definition COUNTRY_TO_REGION : list (string * string) :=
  [
    ("US", "us-central1"); ("CA", "us-central1"); ("MX", "us-central1");
    ("BR", "southamerica-east1"); ("AR", "southamerica-east1"); ("CL", "southamerica-east1");
    ("CO", "southamerica-east1"); ("PE", "southamerica-east1"); ("GB", "europe-west2");
    ("IE", "europe-west2"); ("FR", "europe-west9"); ("DE", "europe-west3");
    ("NL", "europe-west4"); ("BE", "europe-west1"); ("IT", "europe-west8");
    ("ES", "europe-southwest1"); ("PT", "europe-southwest1"); ("CH", "europe-west3");
    ("AT", "europe-west3"); ("SE", "europe-north1"); ("NO", "europe-north1");
    ("DK", "europe-north1"); ("FI", "europe-north1"); ("PL", "europe-west3");
    ("CZ", "europe-west3"); ("HU", "europe-west3"); ("RO", "europe-west3");
    ("GR", "europe-west8"); ("TR", "europe-west4"); ("IL", "me-west1");
    ("AE", "me-central1"); ("SA", "me-central1"); ("QA", "me-central1");
    ("KW", "me-central1"); ("BH", "me-central1"); ("OM", "me-central1");
    ("JO", "me-west1"); ("LB", "me-west1"); ("CN", "asia-east1");
    ("JP", "asia-northeast1"); ("KR", "asia-northeast3"); ("TW", "asia-east1");
    ("HK", "asia-east2"); ("MO", "asia-east2"); ("SG", "asia-southeast1");
    ("MY", "asia-southeast1"); ("TH", "asia-southeast1"); ("VN", "asia-southeast1");
    ("PH", "asia-southeast1"); ("ID", "asia-southeast1"); ("KH", "asia-southeast1");
    ("LA", "asia-southeast1"); ("MM", "asia-southeast1"); ("BN", "asia-southeast1");
    ("IN", "asia-south1"); ("PK", "asia-south1"); ("BD", "asia-south1");
    ("LK", "asia-south1"); ("NP", "asia-south1"); ("AU", "australia-southeast1");
    ("NZ", "australia-southeast1"); ("ZA", "africa-south1"); ("EG", "africa-south1");
    ("NG", "africa-south1"); ("KE", "africa-south1"); ("MA", "europe-southwest1");
    ("TN", "europe-southwest1"); ("DZ", "europe-southwest1"); ("RU", "europe-north1");
    ("UA", "europe-west3"); ("BY", "europe-west3"); ("KZ", "asia-south1");
    ("UZ", "asia-south1"); ("GE", "me-west1"); ("AZ", "me-west1");
    ("AM", "me-west1"); ("IQ", "me-central1"); ("IR", "me-central1");
    ("AF", "asia-south1"); ("ET", "africa-south1"); ("GH", "africa-south1");
    ("TZ", "africa-south1"); ("UG", "africa-south1") ].

(** One entry of [self.region_health]. *)
Record RegionHealth : Type := {
  status : string;
  last_success : Z;
  failure_count : Z;
  latency_ms : Q
}.

(** The router object. *)
Record Router : Type := {
  region_health : gmap string RegionHealth;
  last_health_check : option Z
}.

Definition set_region_health (rh : gmap string RegionHealth) (rt : Router) : Router :=
  {| region_health := rh; last_health_check := last_health_check rt |}.

Definition _initialize_health_status (now : Z) (rt : Router) : Router :=
  set_region_health
    (fold_left
       (fun rh entry =>
          <[ fst entry :=
               {| status := "healthy";
                  last_success := now;
                  failure_count := 0;
                  latency_ms := inject_Z (latency_base (snd entry)) |} ]> rh)
       VERTEX_AI_REGIONS (region_health rt))
    rt.

(** [GeminiRegionalRouter()] *)
Definition init (now : Z) : Router :=
  _initialize_health_status now {| region_health := ∅; last_health_check := None |}.

(** [timedelta(minutes=30)] in microseconds. *)
Definition thirty_minutes : Z := 30 * 60 * 1000000.

Definition _is_region_healthy (now : Z) (region : string) (rt : Router) : bool :=
  match region_health rt !! region with
  | None => false
  | Some h =>
      if 5 <=? failure_count h then false
      else if thirty_minutes <? now - last_success h then false
      else String.eqb (status h) "healthy"
  end.

(** The geolocation is not implemented: the function returns [None]. *)
Definition _detect_region_from_ip (ip_address : string) : option string := None.

(** [region, self.VERTEX_AI_REGIONS[region]] *)
Definition region_entry (region : string) : result (string * RegionInfo) :=
  match dict_get VERTEX_AI_REGIONS region with
  | Some info => Ok (region, info)
  | None => Raise (KeyError region)
  end.

(** [random.choice] of a non-empty list; [rnd] is the draw. *)
Definition random_choice (rnd : nat) (x : string) (xs : list string) : string :=
  nth (rnd mod List.length (x :: xs)) (x :: xs) x.

(** Priority 1: the region [get_optimal_region] returns for the user
    preference, if any. *)
Definition preferred_choice (now : Z) (preferred_region : option string)
    (rt : Router) : option string :=
  match preferred_region with
  | Some p =>
      if truthy p && dict_mem VERTEX_AI_REGIONS p && _is_region_healthy now p rt
      then Some p else None
  | None => None
  end.

(** Priority 2: country code mapping. *)
Definition country_choice (now : Z) (country_code : option string)
    (rt : Router) : option string :=
  match country_code with
  | Some c =>
      if truthy c then
        match dict_get COUNTRY_TO_REGION (upper c) with
        | Some mapped_region =>
            if truthy mapped_region && _is_region_healthy now mapped_region rt
            then Some mapped_region else None
        | None => None
        end
      else None
  | None => None
  end.

(** Priority 3: IP-based geolocation. *)
Definition ip_choice (now : Z) (ip_address : option string)
    (rt : Router) : option string :=
  match ip_address with
  | Some ip =>
      if truthy ip then
        match _detect_region_from_ip ip with
        | Some detected_region =>
            if truthy detected_region && _is_region_healthy now detected_region rt
            then Some detected_region else None
        | None => None
        end
      else None
  | None => None
  end.

Definition default_region : string := "us-central1".

(** [[r for r in self.VERTEX_AI_REGIONS if self._is_region_healthy(r)]] *)
Definition healthy_regions (now : Z) (rt : Router) : list string :=
  List.filter (fun r => _is_region_healthy now r rt) (List.map fst VERTEX_AI_REGIONS).

(** The call reads the clock once ([now]); [rnd] is the draw of
    [random.choice]. *)
Definition get_optimal_region (now : Z) (rnd : nat)
    (country_code ip_address preferred_region : option string) (rt : Router)
  : result (string * RegionInfo) :=
  match preferred_choice now preferred_region rt with
  | Some r => region_entry r
  | None =>
  match country_choice now country_code rt with
  | Some r => region_entry r
  | None =>
  match ip_choice now ip_address rt with
  | Some r => region_entry r
  | None =>
      if _is_region_healthy now default_region rt then region_entry default_region
      else
        match healthy_regions now rt with
        | r :: rs => region_entry (random_choice rnd r rs)
        | [] => region_entry default_region
        end
  end end end.

Definition mark_success (now : Z) (region : string) (latency : Q) (rt : Router) : Router :=
  match region_health rt !! region with
  | Some _ =>
      set_region_health
        (<[ region := {| status := "healthy";
                         last_success := now;
                         failure_count := 0;
                         latency_ms := latency |} ]> (region_health rt))
        rt
  | None => rt
  end.

Definition mark_failure (region : string) (error : string) (rt : Router) : Router :=
  match region_health rt !! region with
  | Some h =>
      let count := failure_count h + 1 in
      set_region_health
        (<[ region := {| status := if 5 <=? count then "unhealthy" else status h;
                         last_success := last_success h;
                         failure_count := count;
                         latency_ms := latency_ms h |} ]> (region_health rt))
        rt
  | None => rt
  end.

(** Failed requests in a row, one per error message. *)
Definition mark_failures (region : string) (errors : list string) (rt : Router) : Router :=
  fold_left (fun r error => mark_failure region error r) errors rt.

(** *** The resolution order in words *)

(** Rule 1: [r] is the preferred region, it is in the catalog and it is
    healthy. *)
Definition preferred_ok (now : Z) (preferred_region : option string) (rt : Router)
    (r : string) : Prop :=
  preferred_region = Some r
  /\ dict_mem VERTEX_AI_REGIONS r = true
  /\ _is_region_healthy now r rt = true.

(** Rule 2: [r] is the region the country code maps to, and it is
    healthy. *)
Definition country_ok (now : Z) (country_code : option string) (rt : Router)
    (r : string) : Prop :=
  exists c, country_code = Some c
    /\ dict_get COUNTRY_TO_REGION (upper c) = Some r
    /\ _is_region_healthy now r rt = true.

(** [r] is a region of the catalog. *)
Definition in_catalog (r : string) : Prop := In r (List.map fst VERTEX_AI_REGIONS).

(** *** The rest of the class *)

(** The regions the router tracks: the keys of [self.region_health]. *)
Definition tracked (rt : Router) : list string :=
  List.map fst (map_to_list (region_health rt)).

(** The dict of [get_region_health_status]; [healthy_count] and
    [unhealthy_count] are its ['healthy_regions'] and
    ['unhealthy_regions'] entries. *)
Record HealthStatus : Type := {
  total_regions : Z;
  healthy_count : Z;
  unhealthy_count : Z;
  regions : gmap string RegionHealth
}.

(** Every [_is_region_healthy] call reads the clock.  [clock r] is the
    reading of the call for the region [r] in the comprehension of
    ['healthy_regions'], [clock' r] the one in the comprehension of
    ['unhealthy_regions'], which runs after the first. *)
Definition get_region_health_status (clock clock' : string -> Z) (rt : Router)
  : HealthStatus :=
  {| total_regions := Z.of_nat (List.length VERTEX_AI_REGIONS);
     healthy_count :=
       Z.of_nat (List.length
                   (List.filter (fun r => _is_region_healthy (clock r) r rt) (tracked rt)));
     unhealthy_count :=
       Z.of_nat (List.length
                   (List.filter (fun r => negb (_is_region_healthy (clock' r) r rt))
                      (tracked rt)));
     regions := region_health rt |}.

(** [s.isascii()] *)
Definition isascii (s : string) : bool :=
  forallb (fun c => (N_of_ascii c <? 128)%N) (list_ascii_of_string s).

(** [[region for region, info in VERTEX_AI_REGIONS.items() if
    info['continent'] == continent]] *)
Definition get_regions_by_continent (c : string) : list string :=
  List.map fst (List.filter (fun entry => String.eqb (continent (snd entry)) c)
                  VERTEX_AI_REGIONS).

(** The outcome of one request, as reported to the router. *)
Inductive Mark : Type :=
| Success (now : Z) (region : string) (latency : Q)
| Failure (region error : string).

(** The region a report is about. *)
Definition mark_region (m : Mark) : string :=
  match m with
  | Success _ region _ => region
  | Failure region _ => region
  end.

Definition apply_mark (rt : Router) (m : Mark) : Router :=
  match m with
  | Success now region latency => mark_success now region latency rt
  | Failure region error => mark_failure region error rt
  end.

Definition apply_marks (ms : list Mark) (rt : Router) : Router :=
  fold_left apply_mark ms rt.

(** [round((reduction_ms / default_latency) * 100, 1)], a computation in
    floating point. *)
Class Percentage : Type := {
  Float : Type;
  rounded_percentage : Z -> Z -> Float
}.

(** The dict of [estimate_latency_reduction]. *)
Record LatencyEstimate `{Percentage} : Type := {
  country : string;
  optimal_region : string;
  optimal_latency_ms : Z;
  default_latency_ms : Z;
  reduction_ms : Z;
  reduction_percentage : Float
}.

(** [self.VERTEX_AI_REGIONS[region]] *)
Definition catalog_entry (region : string) : result RegionInfo :=
  match dict_get VERTEX_AI_REGIONS region with
  | Some info => Ok info
  | None => Raise (KeyError region)
  end.

(** The estimated latency from the default region to a continent. *)
Definition cross_continental (c : string) (default_latency : Z) : Z :=
  if String.eqb c "Asia" then 250
  else if String.eqb c "Europe" then 150
  else if String.eqb c "Middle East" then 200
  else if String.eqb c "Australia" then 180
  else if String.eqb c "Africa" then 220
  else default_latency.

Definition estimate_latency_reduction `{Percentage} (country_code : string)
  : result (option LatencyEstimate) :=
  match dict_get COUNTRY_TO_REGION country_code with
  | None => Ok None
  | Some region =>
      match catalog_entry region, catalog_entry "us-central1" with
      | Ok info, Ok us =>
          let optimal_latency := latency_base info in
          let default_latency := cross_continental (continent info) (latency_base us) in
          let reduction := default_latency - optimal_latency in
          Ok (Some {| country := country_code;
                      optimal_region := region;
                      optimal_latency_ms := optimal_latency;
                      default_latency_ms := default_latency;
                      reduction_ms := reduction;
                      reduction_percentage := rounded_percentage reduction default_latency |})
      | Raise e, _ => Raise e
      | _, Raise e => Raise e
      end
  end.

End GeminiRegionalRouter.

(* ------------------------------------------------------------------ *)
(** ** Routers to run the selection on *)

Module RouterExamples.
Import GeminiRegionalRouter.

(** The router as constructed at time 0: every region healthy. *)
Definition fresh : Router := init 0.

(** The entry of the Singapore region in [fresh]. *)
Definition singapore_entry : RegionHealth :=
  {| status := "healthy"; last_success := 0; failure_count := 0;
     latency_ms := inject_Z 35 |}.

Definition five_errors : list string :=
  ["timeout"; "timeout"; "reset"; "timeout"; "unavailable"].

(** Five failed requests to Singapore in a row. *)
Definition singapore_down : Router := mark_failures "asia-southeast1" five_errors fresh.

(** One minute, in microseconds. *)
Definition minute : Z := 60 * 1000000.

End RouterExamples.

(* ------------------------------------------------------------------ *)
(** ** gemini_live_audio_service_aws.py: GeminiLiveSessionAWS *)

Module GeminiLiveSessionAWS.
Import PyStr Eff.

(** *** The workflow manager

    [ielts_workflow_manager.py] is not among the sources at hand.  The
    session is embedded over any implementation of the members it
    calls. *)

(** The dict [update_state_for_part] returns. *)
Record PartConfig : Type := {
  model : string;
  prompt : string
}.

(** What the session reads of the summary dict:
    [summary.get('duration_seconds', 0)] and
    [summary['cost_breakdown']['total']]; [None] is a missing key. *)
Record Summary : Type := {
  duration_seconds : option Q;
  cost_breakdown_total : option Q
}.

Class WorkflowManager (W : Type) : Type := {
  should_transition : W -> bool;
  current_part : W -> Z;            (* [state.current_part] *)
  update_state_for_part : Z -> W -> PartConfig * W;
  get_assessment_summary : W -> Summary
}.

(** *** Messages and effects *)

Inductive WsMessage : Type :=
| connection_established (model_id : string) (region : option string)
| error (message : string)
| model_switched (new_model : string)
| timeout_warning (message : string)
| part_transition (part : Z) (model_id : string)
| assessment_complete (summary : Summary).

(** What the session does to the world outside, in order. *)
Inductive Event : Type :=
| PostToConnection (connection_id : string) (data : WsMessage)
| RemoteConnect (model_id system_instruction : string) (handle : nat)
| RemoteClose (handle : nat)
| CreateTask
| CancelTask
| OnTextResponse (text : string).

Section Session.
Context {W : Type} `{WorkflowManager W}.

(** The attributes of the session object.  [session] is the handle of
    the remote Live session, [on_text_response] and [regional_router]
    tell whether the callback and the router were given,
    [response_task] whether the task was created.  The transcript and
    the audio buffer belong to the send and receive paths, which are
    not embedded. *)
Record Session : Type := {
  model_id : string;
  system_instruction : string;
  workflow_manager : W;
  on_text_response : bool;
  websocket_connection_id : option string;
  region : option string;
  regional_router : bool;
  session : option nat;
  is_connected : bool;
  response_task : bool;
  messages_in_current_part : Z;
  start_time : Z;
  lambda_timeout_warning_seconds : Z;
  apigw_client : bool
}.

(** The session with what it acts on: the process-wide router, the
    remote service ([remote_faults] scripts its calls as [faults] does
    for the table, [next_handle] numbers the sessions it opens) and
    the trace of effects so far. *)
Record State : Type := {
  self : Session;
  router : GeminiRegionalRouter.Router;
  remote_faults : list bool;
  next_handle : nat;
  trace : list Event
}.

Definition with_self (f : Session -> Session) : M State unit :=
  fun st => (Ok tt, {| self := f (self st); router := router st;
                       remote_faults := remote_faults st;
                       next_handle := next_handle st; trace := trace st |}).

Definition with_router (f : GeminiRegionalRouter.Router -> GeminiRegionalRouter.Router)
  : M State unit :=
  fun st => (Ok tt, {| self := self st; router := f (router st);
                       remote_faults := remote_faults st;
                       next_handle := next_handle st; trace := trace st |}).

Definition emit (e : Event) : M State unit :=
  fun st => (Ok tt, {| self := self st; router := router st;
                       remote_faults := remote_faults st;
                       next_handle := next_handle st; trace := trace st ++ [e] |}).

Definition get_self : M State Session := fun st => (Ok (self st), st).

(** One call of the remote service: it raises when the script says so,
    and otherwise the event is recorded. *)
Definition remote_call (e : Event) : M State unit :=
  fun st =>
    match remote_faults st with
    | true :: fs =>
        (Raise RemoteError,
         {| self := self st; router := router st; remote_faults := fs;
            next_handle := next_handle st; trace := trace st |})
    | fs =>
        (Ok tt,
         {| self := self st; router := router st; remote_faults := tl fs;
            next_handle := next_handle st; trace := trace st ++ [e] |})
    end.

(** [await self.client.models.generate_content_stream(model, config)] *)
Definition generate_content_stream (model_name instruction : string) : M State nat :=
  fun st =>
    let h := next_handle st in
    match remote_call (RemoteConnect model_name instruction h) st with
    | (Ok _, st') =>
        (Ok h, {| self := self st'; router := router st';
                  remote_faults := remote_faults st';
                  next_handle := S h; trace := trace st' |})
    | (Raise e, st') => (Raise e, st')
    end.

Definition set_model_id (v : string) (s : Session) : Session :=
  {| model_id := v; system_instruction := system_instruction s;
     workflow_manager := workflow_manager s; on_text_response := on_text_response s;
     websocket_connection_id := websocket_connection_id s; region := region s;
     regional_router := regional_router s; session := session s;
     is_connected := is_connected s; response_task := response_task s;
     messages_in_current_part := messages_in_current_part s;
     start_time := start_time s;
     lambda_timeout_warning_seconds := lambda_timeout_warning_seconds s;
     apigw_client := apigw_client s |}.

Definition set_system_instruction (v : string) (s : Session) : Session :=
  {| model_id := model_id s; system_instruction := v;
     workflow_manager := workflow_manager s; on_text_response := on_text_response s;
     websocket_connection_id := websocket_connection_id s; region := region s;
     regional_router := regional_router s; session := session s;
     is_connected := is_connected s; response_task := response_task s;
     messages_in_current_part := messages_in_current_part s;
     start_time := start_time s;
     lambda_timeout_warning_seconds := lambda_timeout_warning_seconds s;
     apigw_client := apigw_client s |}.

Definition set_workflow_manager (v : W) (s : Session) : Session :=
  {| model_id := model_id s; system_instruction := system_instruction s;
     workflow_manager := v; on_text_response := on_text_response s;
     websocket_connection_id := websocket_connection_id s; region := region s;
     regional_router := regional_router s; session := session s;
     is_connected := is_connected s; response_task := response_task s;
     messages_in_current_part := messages_in_current_part s;
     start_time := start_time s;
     lambda_timeout_warning_seconds := lambda_timeout_warning_seconds s;
     apigw_client := apigw_client s |}.

Definition set_session (v : option nat) (s : Session) : Session :=
  {| model_id := model_id s; system_instruction := system_instruction s;
     workflow_manager := workflow_manager s; on_text_response := on_text_response s;
     websocket_connection_id := websocket_connection_id s; region := region s;
     regional_router := regional_router s; session := v;
     is_connected := is_connected s; response_task := response_task s;
     messages_in_current_part := messages_in_current_part s;
     start_time := start_time s;
     lambda_timeout_warning_seconds := lambda_timeout_warning_seconds s;
     apigw_client := apigw_client s |}.

Definition set_is_connected (v : bool) (s : Session) : Session :=
  {| model_id := model_id s; system_instruction := system_instruction s;
     workflow_manager := workflow_manager s; on_text_response := on_text_response s;
     websocket_connection_id := websocket_connection_id s; region := region s;
     regional_router := regional_router s; session := session s;
     is_connected := v; response_task := response_task s;
     messages_in_current_part := messages_in_current_part s;
     start_time := start_time s;
     lambda_timeout_warning_seconds := lambda_timeout_warning_seconds s;
     apigw_client := apigw_client s |}.

Definition set_response_task (v : bool) (s : Session) : Session :=
  {| model_id := model_id s; system_instruction := system_instruction s;
     workflow_manager := workflow_manager s; on_text_response := on_text_response s;
     websocket_connection_id := websocket_connection_id s; region := region s;
     regional_router := regional_router s; session := session s;
     is_connected := is_connected s; response_task := v;
     messages_in_current_part := messages_in_current_part s;
     start_time := start_time s;
     lambda_timeout_warning_seconds := lambda_timeout_warning_seconds s;
     apigw_client := apigw_client s |}.

Definition set_messages_in_current_part (v : Z) (s : Session) : Session :=
  {| model_id := model_id s; system_instruction := system_instruction s;
     workflow_manager := workflow_manager s; on_text_response := on_text_response s;
     websocket_connection_id := websocket_connection_id s; region := region s;
     regional_router := regional_router s; session := session s;
     is_connected := is_connected s; response_task := response_task s;
     messages_in_current_part := v;
     start_time := start_time s;
     lambda_timeout_warning_seconds := lambda_timeout_warning_seconds s;
     apigw_client := apigw_client s |}.

Definition option_truthy (o : option string) : bool :=
  match o with Some v => truthy v | None => false end.

(** [GeminiLiveSessionAWS(...)] at time [now]; [apigw_endpoint] tells
    whether [_initialize_websocket_client] obtained a client. *)
Definition new_session (now : Z) (model_name instruction : string) (wm : W)
    (text_callback : bool) (connection_id region_name : option string)
    (with_router_ref apigw_endpoint : bool) : Session :=
  {| model_id := model_name; system_instruction := instruction;
     workflow_manager := wm; on_text_response := text_callback;
     websocket_connection_id := connection_id; region := region_name;
     regional_router := with_router_ref; session := None;
     is_connected := false; response_task := false;
     messages_in_current_part := 0;
     start_time := now;
     lambda_timeout_warning_seconds := 840;
     apigw_client := option_truthy connection_id && apigw_endpoint |}.

(** A failure of [post_to_connection] is caught and logged; the event
    is the call. *)
Definition send_websocket_message (data : WsMessage) : M State unit :=
  s <- get_self ;;
  match websocket_connection_id s with
  | Some cid =>
      if negb (apigw_client s) || negb (truthy cid) then ret tt
      else emit (PostToConnection cid data)
  | None => ret tt
  end.

(** [elapsed > self.lambda_timeout_warning_seconds], with [elapsed]
    the seconds between [start_time] and [now]. *)
Definition _check_lambda_timeout (now : Z) (s : Session) : bool :=
  lambda_timeout_warning_seconds s * 1000000 <? now - start_time s.

Definition connect : M State unit :=
  try_except
    (s <- get_self ;;
     h <- generate_content_stream (model_id s) (system_instruction s) ;;
     with_self (set_session (Some h)) ;;;
     with_self (set_is_connected true) ;;;
     emit CreateTask ;;;
     with_self (set_response_task true) ;;;
     send_websocket_message (connection_established (model_id s) (region s)))
    (fun e =>
       send_websocket_message (error "Connection failed") ;;;
       raise e).

Definition switch_model (new_model new_prompt : string) : M State unit :=
  s <- get_self ;;
  if negb (is_connected s) then ret tt
  else
    try_except
      (with_self (set_system_instruction new_prompt) ;;;
       match session s with
       | Some h => remote_call (RemoteClose h)
       | None => ret tt
       end ;;;
       with_self (set_model_id new_model) ;;;
       h' <- generate_content_stream new_model new_prompt ;;
       with_self (set_session (Some h')) ;;;
       with_self (set_messages_in_current_part 0) ;;;
       send_websocket_message (model_switched new_model))
      (fun e => raise e).

Definition transition_notice (next_part : Z) : string :=
  "[Transitioning to Part " +:+ pretty next_part +:+ "]".

Definition check_and_transition_parts (now : Z) : M State bool :=
  s <- get_self ;;
  if _check_lambda_timeout now s then
    send_websocket_message
      (timeout_warning "Assessment will end soon due to time limit") ;;;
    ret false
  else if should_transition (workflow_manager s) then
    let next_part := current_part (workflow_manager s) + 1 in
    if next_part <=? 3 then
      let '(config, wm') := update_state_for_part next_part (workflow_manager s) in
      with_self (set_workflow_manager wm') ;;;
      switch_model (model config) (prompt config) ;;;
      (if on_text_response s then emit (OnTextResponse (transition_notice next_part))
       else ret tt) ;;;
      send_websocket_message (part_transition next_part (model config)) ;;;
      ret true
    else ret false
  else ret false.

(** The latency [close] reports: a tenth of the duration in
    milliseconds, or 100. *)
Definition estimated_latency (summary : Summary) : Q :=
  let assessment_duration :=
    match duration_seconds summary with Some d => d | None => 0%Q end in
  if Qle_bool assessment_duration 0 then 100%Q
  else ((assessment_duration * 1000) / 10)%Q.

Definition close (now : Z) : M State unit :=
  s <- get_self ;;
  match session s with
  | Some h =>
      let summary := get_assessment_summary (workflow_manager s) in
      (if regional_router s then
         match region s with
         | Some r =>
             if truthy r
             then with_router (GeminiRegionalRouter.mark_success now r (estimated_latency summary))
             else ret tt
         | None => ret tt
         end
       else ret tt) ;;;
      match cost_breakdown_total summary with
      | Some _ => ret tt
      | None => raise (KeyError "cost_breakdown")
      end ;;;
      send_websocket_message (assessment_complete summary) ;;;
      (if response_task s then emit CancelTask else ret tt) ;;;
      remote_call (RemoteClose h)
  | None => ret tt
  end ;;;
  with_self (set_is_connected false).

(** *** What the calls do, in words *)

(** The connection [send_websocket_message] posts to: the connection id,
    when the session has both a client and an id. *)
Definition websocket_target (s : Session) : option string :=
  match websocket_connection_id s with
  | Some cid => if apigw_client s && truthy cid then Some cid else None
  | None => None
  end.

Definition posted (s : Session) (data : WsMessage) : list Event :=
  match websocket_target s with
  | Some cid => [PostToConnection cid data]
  | None => []
  end.

(** The effects of [close] on a session that holds the handle [h]. *)
Definition close_events (s : Session) (h : nat) : list Event :=
  posted s (assessment_complete (get_assessment_summary (workflow_manager s)))
  ++ (if response_task s then [CancelTask] else [])
  ++ [RemoteClose h].

(** The router after the health report of [close]. *)
Definition close_report (now : Z) (s : Session) (rt : GeminiRegionalRouter.Router)
  : GeminiRegionalRouter.Router :=
  if regional_router s && option_truthy (region s)
  then match region s with
       | Some r => GeminiRegionalRouter.mark_success now r
                     (estimated_latency (get_assessment_summary (workflow_manager s))) rt
       | None => rt
       end
  else rt.

(** The events a call adds to the trace. *)
Definition new_events (before after : State) : list Event :=
  skipn (List.length (trace before)) (trace after).

End Session.

Arguments Session W : clear implicits.
Arguments State W : clear implicits.

(** *** The session in use *)

Section Calls.
Context {W : Type} `{WorkflowManager W}.

(** A call of one of the methods above by the owner of the session. *)
Inductive Call : Type :=
| Connect
| SwitchModel (new_model new_prompt : string)
| CheckAndTransitionParts (now : Z)
| Close (now : Z).

(** The state a call leaves, whether it returned or raised: the owner
    keeps the session object either way. *)
Definition after_call (st : State W) (c : Call) : State W :=
  match c with
  | Connect => snd (connect st)
  | SwitchModel new_model new_prompt => snd (switch_model new_model new_prompt st)
  | CheckAndTransitionParts now => snd (check_and_transition_parts now st)
  | Close now => snd (close now st)
  end.

Definition after_calls (cs : list Call) (st : State W) : State W :=
  fold_left after_call cs st.

(** [self.is_connected and self.session], what [send_audio] and
    [send_text] test before they use the handle. *)
Definition usable (s : Session W) : bool :=
  is_connected s && match session s with Some _ => true | None => false end.

End Calls.

End GeminiLiveSessionAWS.

(* ------------------------------------------------------------------ *)
(** ** Modelled workflow manager *)

Module IELTSWorkflowManager.
Import GeminiLiveSessionAWS.

(** Modelled from the spec: the workflow manager of
    [ielts_workflow_manager.py], which is not among the sources at hand,
    after section 4.3 of the specification: parts 1, 2 and 3 in order,
    the cost-optimized tier for parts 1 and 2, the higher tier for
    part 3 only when the part 2 response lasted more than 60 seconds and
    was complex, and a transition once the exchanges of the part reach a
    threshold.  It serves to run the session on examples. *)
Record WorkflowState : Type := {
  part : Z;
  exchanges : Z;
  exchange_threshold : Z;
  part2_duration : Z;
  part2_complex : bool;
  total_duration : Z
}.

Definition configure_for_part (n : Z) (st : WorkflowState) : PartConfig * WorkflowState :=
  ({| model := if (n =? 3) && (60 <? part2_duration st) && part2_complex st
               then "gemini-2.5-flash" else "gemini-2.5-flash-lite";
      prompt := "IELTS Speaking Part " +:+ pretty n |},
   {| part := n; exchanges := 0; exchange_threshold := exchange_threshold st;
      part2_duration := part2_duration st; part2_complex := part2_complex st;
      total_duration := total_duration st |}).

Definition summary (st : WorkflowState) : Summary :=
  {| duration_seconds := Some (inject_Z (total_duration st));
     cost_breakdown_total := Some 0%Q |}.

#[export] Instance workflow : WorkflowManager WorkflowState := {
  should_transition st := exchange_threshold st <=? exchanges st;
  current_part := part;
  update_state_for_part := configure_for_part;
  get_assessment_summary := summary
}.

(** Part 1 under way, with [n] exchanges so far and a threshold of 4. *)
Definition in_part1 (n : Z) : WorkflowState :=
  {| part := 1; exchanges := n; exchange_threshold := 4;
     part2_duration := 0; part2_complex := false; total_duration := 30 |}.

End IELTSWorkflowManager.

(* ------------------------------------------------------------------ *)
(** ** Sessions to run the calls on *)

Module SessionExamples.
Import GeminiLiveSessionAWS IELTSWorkflowManager.

(** The world before a session starts, at time 0. *)
Definition world (s : Session WorkflowState) : State WorkflowState :=
  {| self := s; router := GeminiRegionalRouter.init 0;
     remote_faults := []; next_handle := 0; trace := [] |}.

(** A session created at time 0 with a callback and no WebSocket, in
    part 1 with the exchanges of the part done, and connected. *)
Definition callback_session : State WorkflowState :=
  snd (connect (world (new_session 0 "gemini-2.5-flash-lite" "IELTS Speaking Part 1"
                         (in_part1 4) true None (Some "us-central1") true false))).

(** The same with a WebSocket connection and no callback. *)
Definition websocket_session : State WorkflowState :=
  snd (connect (world (new_session 0 "gemini-2.5-flash-lite" "IELTS Speaking Part 1"
                         (in_part1 4) false (Some "conn-1") (Some "us-central1") true true))).

(** A session that was never connected. *)
Definition unopened_session : State WorkflowState :=
  world (new_session 0 "gemini-2.5-flash-lite" "IELTS Speaking Part 1"
           (in_part1 0) false (Some "conn-1") (Some "us-central1") true true).

(** One second, in microseconds. *)
Definition second : Z := 1000000.

(** A session with a callback that was never connected, the exchanges
    of part 1 done. *)
Definition waiting_session : State WorkflowState :=
  world (new_session 0 "gemini-2.5-flash-lite" "IELTS Speaking Part 1"
           (in_part1 4) true None (Some "us-central1") true false).

(** The state with the remote service scripted to fail as [fs] says. *)
Definition failing_remote (fs : list bool) (st : State WorkflowState)
  : State WorkflowState :=
  {| self := self st; router := router st; remote_faults := fs;
     next_handle := next_handle st; trace := trace st |}.

End SessionExamples.

(* ------------------------------------------------------------------ *)
(** ** gemini_live_audio_service_aws.py: GeminiLiveServiceAWS *)

Module GeminiLiveServiceAWS.
Import PyStr Eff GeminiRegionalRouter.

(** What the constructor settles for the sessions of the service:
    [self.region], and whether [self.regional_router] is the router or
    [None]. *)
Record Service : Type := {
  region : string;
  regional_router : bool
}.

(** The regional routing of [__init__]; the credentials, the project
    and the client are not embedded. *)
Definition init (now : Z) (rnd : nat) (region_name country_code ip_address : option string)
    (auto_regional_routing : bool) (rt : Router) : result Service :=
  match
    (if auto_regional_routing && negb (GeminiLiveSessionAWS.option_truthy region_name)
     then
       match get_optimal_region now rnd country_code ip_address None rt with
       | Ok (optimal_region, region_info) => Ok optimal_region
       | Raise e => Raise e
       end
     else
       Ok (match region_name with
           | Some r => if truthy r then r else "us-central1"
           | None => "us-central1"
           end))
  with
  | Ok chosen => Ok {| region := chosen; regional_router := auto_regional_routing |}
  | Raise e => Raise e
  end.

End GeminiLiveServiceAWS.

(* ------------------------------------------------------------------ *)
(** ** mobile_api_routes.py *)

Module MobileApi.
Import PyStr Eff EntitlementDAL.

(** *** The receipt validators

    [receipt_validation.py] is not among the sources at hand.  The
    routes are embedded over any validators.  What [verify_purchase]
    reads of a validation result: [valid] is
    [result.status == PurchaseStatus.VALID]. *)
Record ValidationResult : Type := {
  valid : bool;
  result_transaction_id : option string;
  result_receipt_data : option Receipt;
  error_message : option string
}.

(** [validate_receipt(receipt_data, user_id)] of the two validators; a
    validator may raise. *)
Class ReceiptValidators : Type := {
  apple_validate_receipt : string -> string -> result ValidationResult;
  google_validate_receipt : string -> string -> result ValidationResult
}.

(** *** Requests and responses *)

(** The body of a request, [request.get_json()]: a JSON object whose
    values are strings. *)
Definition Json : Type := list (string * string).

(** The JSON bodies the routes answer with.  [success] is [False] in
    the first two and [True] in the others. *)
Inductive Body : Type :=
| Failed (error : string)
| NotGranted (verified : bool) (error : string)
| PurchaseVerified (product_id : string) (assessments_granted : Z)
    (transaction_id : option string) (message : string)
| Entitlements (entitlement : AccessResult)
| Restored (entitlements : list Entitlement) (total_active_products : Z)
    (total_assessments_remaining : Z).

(** [jsonify(body), status] *)
Definition Response : Type := Body * Z.

(** [o or d] *)
Definition option_or (o : option string) (d : string) : string :=
  match o with
  | Some v => if truthy v then v else d
  | None => d
  end.

(** A call that returns or raises and leaves the tables alone. *)
Definition call {A : Type} (r : result A) : M Store A := fun s => (r, s).

Section Routes.
Context `{JsonDumps} `{ReceiptValidators}.

Definition verify_purchase (now : Z) (data : Json) : M Store Response :=
  try_except
    (let user_id := strip (dict_get_default data "user_id" EmptyString) in
     let platform := strip (lower (dict_get_default data "platform" EmptyString)) in
     let receipt_data := dict_get_default data "receipt_data" EmptyString in
     let product_id := strip (dict_get_default data "product_id" EmptyString) in
     let transaction_id := strip (dict_get_default data "transaction_id" EmptyString) in
     if negb (truthy user_id && truthy platform && truthy receipt_data
              && truthy product_id && truthy transaction_id)
     then ret (Failed ("Missing required fields: user_id, platform, receipt_data, "
                       +:+ "product_id, transaction_id"), 400)
     else if (String.length transaction_id <? 1)%nat
     then ret (Failed "transaction_id cannot be empty", 400)
     else if negb (String.eqb platform "ios" || String.eqb platform "android")
     then ret (Failed "Invalid platform", 400)
     else
       result <- call (if String.eqb platform "ios"
                       then apple_validate_receipt receipt_data user_id
                       else google_validate_receipt receipt_data user_id) ;;
       if negb (valid result)
       then ret (NotGranted false
                   (option_or (error_message result) "Receipt verification failed"), 400)
       else
         entitlement_granted <-
           grant_entitlement now user_id product_id
             (option_or (result_transaction_id result) transaction_id)
             platform (result_receipt_data result) ;;
         if negb entitlement_granted
         then ret (NotGranted true
                     "Failed to grant entitlement (may already be processed)", 409)
         else
           let assessments_count := dict_get_default PRODUCT_ASSESSMENTS product_id 2 in
           ret (PurchaseVerified product_id assessments_count
                  (result_transaction_id result)
                  ("Purchase verified! You now have " +:+ pretty assessments_count
                   +:+ " assessments available."), 200))
    (fun _ => ret (Failed "Purchase verification failed", 500)).

Definition check_entitlement (data : Json) : M Store Response :=
  try_except
    (let user_id := dict_get_default data "user_id" EmptyString in
     let module_type := dict_get_default data "module_type" EmptyString in
     if negb (truthy user_id) || negb (truthy module_type)
     then ret (Failed "user_id and module_type are required", 400)
     else
       entitlement <- EntitlementDAL.check_entitlement user_id module_type ;;
       ret (Entitlements entitlement, 200))
    (fun _ => ret (Failed "Failed to check entitlement", 500)).

Definition active (ent : Entitlement) : bool := String.eqb (status ent) "active".

Definition restore_purchases (data : Json) : M Store Response :=
  try_except
    (let user_id := dict_get_default data "user_id" EmptyString in
     if negb (truthy user_id)
     then ret (Failed "user_id is required", 400)
     else
       entitlements <- get_user_entitlements user_id ;;
       let total_remaining := sum_remaining (List.filter active entitlements) in
       ret (Restored entitlements
              (Z.of_nat (List.length (List.filter active entitlements)))
              total_remaining, 200))
    (fun _ => ret (Failed "Failed to restore purchases", 500)).

End Routes.

(** The fields of a [verify_purchase] request after the route has
    normalised them. *)
Definition request_user (data : Json) : string :=
  strip (dict_get_default data "user_id" EmptyString).

Definition request_platform (data : Json) : string :=
  strip (lower (dict_get_default data "platform" EmptyString)).

Definition request_product (data : Json) : string :=
  strip (dict_get_default data "product_id" EmptyString).

Definition request_transaction (data : Json) : string :=
  strip (dict_get_default data "transaction_id" EmptyString).

(** The answer of the validator the route picks for the request. *)
Definition validation `{ReceiptValidators} (data : Json) : result ValidationResult :=
  if String.eqb (request_platform data) "ios"
  then apple_validate_receipt (dict_get_default data "receipt_data" EmptyString)
         (request_user data)
  else google_validate_receipt (dict_get_default data "receipt_data" EmptyString)
         (request_user data).

End MobileApi.

(** ** Requests to run the routes on *)

Module ApiExamples.
Import PyStr Eff EntitlementDAL MobileApi.

(** Validators that accept every receipt and report the transaction
    id ["store-tx-1"]. *)
Definition accepting : ReceiptValidators :=
  {| apple_validate_receipt := fun _ _ =>
       Ok {| valid := true; result_transaction_id := Some "store-tx-1";
             result_receipt_data := Some [("bundle", "com.ieltsaiprep")];
             error_message := None |};
     google_validate_receipt := fun _ _ =>
       Ok {| valid := true; result_transaction_id := Some "store-tx-1";
             result_receipt_data := Some [("bundle", "com.ieltsaiprep")];
             error_message := None |} |}.

Definition purchase_request : Json :=
  [ ("user_id", "user-1"); ("platform", "iOS ");
    ("receipt_data", "MIIT..."); ("product_id", "com.ieltsaiprep.academic.writing");
    ("transaction_id", "tx-1") ].

Definition entitlement_request : Json :=
  [ ("user_id", "user-1"); ("module_type", "writing") ].

End ApiExamples.

(* ------------------------------------------------------------------ *)
(** ** dynamodb_dal.py: ResetTokenDAL *)

Module ResetTokenDAL.
Import PyStr Eff.

(** An item of the reset tokens table, whose key is [reset_token].  An
    item written by [create_reset_token] has every attribute.
    [update_item] creates the item when the key is not in the table:
    after [invalidate_reset_token] on an unknown token the table holds an
    item with [used] alone. *)
Record TokenItem : Type := {
  email : option string;
  created_at : option Z;
  expires_at : option Z;
  used : option bool
}.

(** The table, and the script of the table calls to come: each call
    takes the head and raises when it is [true]. *)
Record TokenStore : Type := {
  tokens : gmap string TokenItem;
  faults : list bool
}.

(** One call of the boto3 table. *)
Definition table_call {A : Type}
    (f : gmap string TokenItem -> A * gmap string TokenItem) : M TokenStore A :=
  fun s =>
    match faults s with
    | true :: fs => (Raise StorageError, {| tokens := tokens s; faults := fs |})
    | fs => let '(a, t) := f (tokens s) in
            (Ok a, {| tokens := t; faults := tl fs |})
    end.

(** [table.get_item(Key={'reset_token': token}).get('Item')] *)
Definition get_item (token : string) : M TokenStore (option TokenItem) :=
  table_call (fun t => (t !! token, t)).

(** [table.put_item(Item=item)] for an item with the key [token] *)
Definition put_item (token : string) (item : TokenItem) : M TokenStore unit :=
  table_call (fun t => (tt, <[token := item]> t)).

(** [table.update_item(Key={'reset_token': token},
    UpdateExpression='SET used = :used', ...{':used': True})] *)
Definition update_item (token : string) : M TokenStore unit :=
  table_call (fun t =>
    (tt, <[token := match t !! token with
                    | Some item =>
                        {| email := email item; created_at := created_at item;
                           expires_at := expires_at item; used := Some true |}
                    | None =>
                        {| email := None; created_at := None; expires_at := None;
                           used := Some true |}
                    end]> t)).

(** The length of [n] minutes, in microseconds. *)
Definition minutes (n : Z) : Z := n * 60 * 1000000.

(** [datetime.min] and [datetime.max], the first instant of the year 1
    and the last of the year 9999, in microseconds from 1970. *)
Definition datetime_min : Z := -62135596800000000.
Definition datetime_max : Z := 253402300799999999.

(** [timedelta.min] and [timedelta.max]: 999999999 days either way. *)
Definition timedelta_min : Z := -999999999 * 86400000000.
Definition timedelta_max : Z := 999999999 * 86400000000 + 86399999999.

(** [timedelta(minutes=n)] and the sum [now + timedelta(minutes=n)] can
    be formed. *)
Definition representable (now n : Z) : bool :=
  (timedelta_min <=? minutes n) && (minutes n <=? timedelta_max)
  && (datetime_min <=? now + minutes n) && (now + minutes n <=? datetime_max).

(** [now + timedelta(minutes=n)]: [OverflowError] when the duration or
    the date is out of range. *)
Definition add_minutes (now n : Z) : M TokenStore Z :=
  if representable now n then ret (now + minutes n) else raise OverflowError.

Definition create_reset_token (now : Z) (email_address token : string) (expires_minutes : Z)
  : M TokenStore bool :=
  try_except
    (expires <- add_minutes now expires_minutes ;;
     let token_data :=
       {| email := Some email_address; created_at := Some now;
          expires_at := Some expires; used := Some false |} in
     put_item token token_data ;;;
     ret true)
    (fun _ => ret false).

(** [item[k]] *)
Definition item_get {A : Type} (k : string) (v : option A) : M TokenStore A :=
  match v with
  | Some a => ret a
  | None => raise (KeyError k)
  end.

Definition validate_reset_token (now : Z) (token : string) : M TokenStore (option string) :=
  try_except
    (item <- get_item token ;;
     match item with
     | None => ret None
     | Some item =>
         if match used item with Some u => u | None => false end
         then ret None
         else
           expires <- item_get "expires_at" (expires_at item) ;;
           if expires <? now then ret None
           else
             address <- item_get "email" (email item) ;;
             ret (Some address)
     end)
    (fun _ => ret None).

Definition invalidate_reset_token (token : string) : M TokenStore bool :=
  try_except
    (update_item token ;;;
     ret true)
    (fun _ => ret false).

(** The calls of a password reset, in the order they are made. *)
Inductive TokenOp : Type :=
| Create (now : Z) (email_address token : string) (expires_minutes : Z)
| Validate (now : Z) (token : string)
| Invalidate (token : string).

Definition op_token (op : TokenOp) : string :=
  match op with
  | Create _ _ token _ => token
  | Validate _ token => token
  | Invalidate token => token
  end.

Definition run_op (s : TokenStore) (op : TokenOp) : TokenStore :=
  match op with
  | Create now email_address token expires_minutes =>
      snd (create_reset_token now email_address token expires_minutes s)
  | Validate now token => snd (validate_reset_token now token s)
  | Invalidate token => snd (invalidate_reset_token token s)
  end.

Definition run_ops (ops : list TokenOp) (s : TokenStore) : TokenStore :=
  fold_left run_op ops s.

(** The operation writes under the token: a creation of it. *)
Definition creates (token : string) (op : TokenOp) : bool :=
  match op with
  | Create _ _ token' _ => String.eqb token' token
  | _ => false
  end.

Definition empty_store : TokenStore := {| tokens := ∅; faults := [] |}.

(** The address a token stands for at time [now], from the item under
    it: none without an item, for a used item, past the expiry, or
    without the attributes. *)
Definition answer (now : Z) (item : option TokenItem) : option string :=
  match item with
  | Some {| email := Some address; expires_at := Some expires; used := u |} =>
      if match u with Some b => b | None => false end then None
      else if expires <? now then None else Some address
  | _ => None
  end.

(** The token is marked used. *)
Definition spent (token : string) (s : TokenStore) : Prop :=
  exists item, tokens s !! token = Some item /\ used item = Some true.

End ResetTokenDAL.

(* ------------------------------------------------------------------ *)
(** ** dynamodb_dal.py: AssessmentDAL, the daily limit *)

Module AssessmentDAL.
Import PyStr Eff.

(** What the daily count reads of an item of the assessments table.
    [timestamp] is the time [save_assessment] writes,
    [datetime.utcnow().isoformat()]; such strings compare as the times
    they denote.  An item may lack either attribute. *)
Record Assessment : Type := {
  assessment_id : string;
  user_email : option string;
  timestamp : option Z
}.

Record AssessmentStore : Type := {
  assessments : list Assessment;
  faults : list bool
}.

(** One day, in microseconds. *)
Definition day : Z := 24 * 60 * 60 * 1000000.

(** [datetime(now.year, now.month, now.day, 0, 0, 0)] *)
Definition start_of_day (now : Z) : Z := now - now mod day.

(** [Attr('timestamp').between(low, high)]: both bounds included, and an
    item without the attribute does not pass. *)
Definition between (low high : Z) (a : Assessment) : bool :=
  match timestamp a with
  | Some t => (low <=? t) && (t <=? high)
  | None => false
  end.

Definition of_user (email_address : string) (a : Assessment) : bool :=
  match user_email a with
  | Some e => String.eqb e email_address
  | None => false
  end.

(** [table.query(IndexName='user-email-index',
    KeyConditionExpression=Key('user_email').eq(user_email),
    FilterExpression=Attr('timestamp').between(low, high)).get('Items', [])] *)
Definition query (email_address : string) (low high : Z)
  : M AssessmentStore (list Assessment) :=
  fun s =>
    match faults s with
    | true :: fs => (Raise StorageError, {| assessments := assessments s; faults := fs |})
    | fs => (Ok (List.filter (between low high)
                   (List.filter (of_user email_address) (assessments s))),
             {| assessments := assessments s; faults := tl fs |})
    end.

Definition get_daily_assessment_count (now : Z) (email_address : string)
  : M AssessmentStore Z :=
  try_except
    (let start := start_of_day now in
     let end_of_day := start + day in
     found <- query email_address start end_of_day ;;
     ret (Z.of_nat (List.length found)))
    (fun _ => ret 0).

Definition check_rate_limit (now : Z) (email_address : string) (daily_limit : Z)
  : M AssessmentStore (bool * Z) :=
  try_except
    (current_count <- get_daily_assessment_count now email_address ;;
     let is_within_limit := current_count <? daily_limit in
     ret (is_within_limit, current_count))
    (fun _ => ret (true, 0)).

(** The assessments of a user that a day's count takes in. *)
Definition counted (now : Z) (email_address : string) (l : list Assessment)
  : list Assessment :=
  List.filter (between (start_of_day now) (start_of_day now + day))
    (List.filter (of_user email_address) l).

End AssessmentDAL.

(* ================================================================== *)
(** * The entitlement ledger *)

Section EntitlementLedger.
Import PyStr Eff EntitlementDAL.
Context `{JsonDumps}.

(** ** The table *)

Lemma in_insert_sorted (e x : Entitlement) (t : list Entitlement) :
  In x (insert_sorted e t) <-> x = e \/ In x t.
Proof.
  induction t as [|y t IH]; simpl.
  - intuition congruence.
  - destruct (key_compare e y); simpl; rewrite ?IH; intuition congruence.
Qed.

Lemma in_put (e x : Entitlement) (t : list Entitlement) :
  In x (put e t) <-> x = e \/ (In x t /\ same_key e x = false).
Proof.
  unfold put. rewrite in_insert_sorted, filter_In, negb_true_iff. tauto.
Qed.

Lemma same_key_refl (e : Entitlement) : same_key e e = true.
Proof. unfold same_key. now rewrite !String.eqb_refl. Qed.

Lemma same_key_sym (e x : Entitlement) : same_key e x = same_key x e.
Proof. unfold same_key. now rewrite (String.eqb_sym (user_id e)), (String.eqb_sym (product_id e)). Qed.

Lemma same_key_iff (e x : Entitlement) :
  same_key e x = true <-> user_id e = user_id x /\ product_id e = product_id x.
Proof. unfold same_key. now rewrite andb_true_iff, !String.eqb_eq. Qed.

(** ** The order of the keys *)

Lemma string_lt_irrefl (a : string) : ~ String_as_OT.lt a a.
Proof. apply (StrictOrder_Irreflexive (R := String_as_OT.lt)). Qed.

Lemma string_lt_trans (a b c : string) :
  String_as_OT.lt a b -> String_as_OT.lt b c -> String_as_OT.lt a c.
Proof. apply (StrictOrder_Transitive (R := String_as_OT.lt)). Qed.

Lemma string_compare_gt (a b : string) :
  String_as_OT.compare a b = Gt -> String_as_OT.lt b a.
Proof.
  intros Hc. destruct (String_as_OT.compare_spec a b) as [Heq|Hl|Hl];
    try discriminate. exact Hl.
Qed.

(** The key order, spelt out. *)
Lemma key_lt_iff (a b : Entitlement) :
  key_lt a b <->
  String_as_OT.lt (user_id a) (user_id b)
  \/ (user_id a = user_id b /\ String_as_OT.lt (product_id a) (product_id b)).
Proof.
  unfold key_lt, key_compare.
  destruct (String_as_OT.compare_spec (user_id a) (user_id b)) as [Heq|Hl|Hl].
  - split; [now right|]. intros [Hl|[_ Hl]]; [|exact Hl].
    rewrite Heq in Hl. now apply string_lt_irrefl in Hl.
  - split; [now left|reflexivity].
  - split; [discriminate|]. intros [Hl'|[Heq _]].
    + exfalso. apply (string_lt_irrefl (user_id a)). eapply string_lt_trans; eauto.
    + rewrite Heq in Hl. now apply string_lt_irrefl in Hl.
Qed.

Lemma key_compare_ext (a a' b b' : Entitlement) :
  user_id a = user_id a' -> product_id a = product_id a' ->
  user_id b = user_id b' -> product_id b = product_id b' ->
  key_compare a b = key_compare a' b'.
Proof. unfold key_compare. now intros -> -> -> ->. Qed.

Lemma key_compare_eq (a b : Entitlement) :
  key_compare a b = Eq <-> same_key a b = true.
Proof.
  rewrite same_key_iff. unfold key_compare.
  destruct (String_as_OT.compare_spec (user_id a) (user_id b)) as [Heq|Hl|Hl].
  - destruct (String_as_OT.compare_spec (product_id a) (product_id b)) as [Heq'|Hl|Hl].
    + tauto.
    + split; [discriminate|]. intros [_ Hp]. rewrite Hp in Hl.
      now apply string_lt_irrefl in Hl.
    + split; [discriminate|]. intros [_ Hp]. rewrite Hp in Hl.
      now apply string_lt_irrefl in Hl.
  - split; [discriminate|]. intros [Hu _]. rewrite Hu in Hl.
    now apply string_lt_irrefl in Hl.
  - split; [discriminate|]. intros [Hu _]. rewrite Hu in Hl.
    now apply string_lt_irrefl in Hl.
Qed.

Lemma key_compare_gt (a b : Entitlement) : key_compare a b = Gt -> key_lt b a.
Proof.
  intros Hc. apply key_lt_iff. unfold key_compare in Hc.
  destruct (String_as_OT.compare_spec (user_id a) (user_id b)) as [Heq|Hl|Hl];
    try discriminate.
  - right. split; [auto|]. now apply string_compare_gt.
  - now left.
Qed.

Lemma key_lt_trans (a b c : Entitlement) : key_lt a b -> key_lt b c -> key_lt a c.
Proof.
  rewrite !key_lt_iff. intros [Hab|[Hab Hab']] [Hbc|[Hbc Hbc']].
  - left. eapply string_lt_trans; eauto.
  - left. now rewrite <- Hbc.
  - left. now rewrite Hab.
  - right. split; [congruence|]. eapply string_lt_trans; eauto.
Qed.

Lemma key_lt_not_same (a b : Entitlement) : key_lt a b -> same_key a b = false.
Proof.
  intros Hl. destruct (same_key a b) eqn:Hs; [|reflexivity].
  apply key_compare_eq in Hs. unfold key_lt in Hl. congruence.
Qed.

Lemma sorted_keys_unique (t : list Entitlement) : sorted t -> keys_unique t.
Proof.
  induction 1 as [|y t _ IH Hy]; simpl; [exact I|]. split; [|exact IH].
  intros x Hx. rewrite Forall_forall in Hy. now apply key_lt_not_same, Hy.
Qed.

Lemma sorted_filter (f : Entitlement -> bool) (t : list Entitlement) :
  sorted t -> sorted (List.filter f t).
Proof.
  induction 1 as [|y t _ IH Hy]; simpl; [constructor|].
  destruct (f y); [|exact IH]. constructor; [exact IH|].
  rewrite Forall_forall in *. intros x Hx. apply filter_In in Hx. now apply Hy.
Qed.

Lemma sorted_insert_sorted (e : Entitlement) (t : list Entitlement) :
  sorted t -> (forall x, In x t -> same_key e x = false) ->
  sorted (insert_sorted e t).
Proof.
  induction 1 as [|y t Ht IH Hy]; simpl; intros He.
  - repeat constructor.
  - assert (Hlt : key_lt e y -> sorted (e :: y :: t)).
    { intros Hl. constructor; [now constructor|].
      constructor; [exact Hl|]. rewrite Forall_forall in *.
      intros x Hx. eapply key_lt_trans; eauto. }
    destruct (key_compare e y) eqn:Hc.
    + apply key_compare_eq in Hc. rewrite He in Hc by now left. discriminate.
    + now apply Hlt.
    + constructor.
      * apply IH. intros x Hx. apply He. now right.
      * rewrite Forall_forall in *. intros x Hx.
        apply in_insert_sorted in Hx as [->|Hx]; [now apply key_compare_gt|auto].
Qed.

Lemma sorted_put (e : Entitlement) (t : list Entitlement) : sorted t -> sorted (put e t).
Proof.
  intros Hs. apply sorted_insert_sorted.
  - now apply sorted_filter.
  - intros x Hx. apply filter_In in Hx. now apply negb_true_iff.
Qed.

Lemma keys_unique_insert_sorted (e : Entitlement) (t : list Entitlement) :
  keys_unique t -> (forall x, In x t -> same_key e x = false) ->
  keys_unique (insert_sorted e t).
Proof.
  induction t as [|y t IH]; simpl; intros Hu He.
  - split; [intros x []|exact I].
  - destruct Hu as [Hy Hu].
    assert (Hcons : keys_unique (e :: y :: t)) by (simpl; auto).
    destruct (key_compare e y); try exact Hcons.
    simpl. split.
    + intros x Hx. apply in_insert_sorted in Hx as [->|Hx]; [|auto].
      rewrite same_key_sym. auto.
    + apply IH; auto.
Qed.

Lemma keys_unique_filter (f : Entitlement -> bool) (t : list Entitlement) :
  keys_unique t -> keys_unique (List.filter f t).
Proof.
  induction t as [|y t IH]; simpl; [auto|]. intros [Hy Hu].
  destruct (f y); simpl; auto. split; auto.
  intros x Hx. apply filter_In in Hx. apply Hy, Hx.
Qed.

Lemma keys_unique_put (e : Entitlement) (t : list Entitlement) :
  keys_unique t -> keys_unique (put e t).
Proof.
  intros Hu. apply keys_unique_insert_sorted.
  - now apply keys_unique_filter.
  - intros x Hx. apply filter_In in Hx. now apply negb_true_iff.
Qed.

(** ** Table calls on a store whose calls do not fail *)

Lemma table_call_ok {A : Type} (f : list Entitlement -> A * list Entitlement) (s : Store) :
  faults s = [] ->
  table_call f s = (Ok (fst (f (items s))), {| items := snd (f (items s)); faults := [] |}).
Proof. unfold table_call. intros ->. now destruct (f (items s)). Qed.

Lemma store_eta (s : Store) : faults s = [] -> {| items := items s; faults := [] |} = s.
Proof. destruct s; simpl; now intros ->. Qed.

Lemma get_entitlement_by_transaction_ok (tid : string) (s : Store) :
  faults s = [] ->
  get_entitlement_by_transaction tid s = (Ok (List.head (by_transaction tid (items s))), s).
Proof.
  intros Hf. unfold get_entitlement_by_transaction, try_except, bind, query_transaction_index.
  rewrite table_call_ok by exact Hf. simpl. unfold ret. now rewrite store_eta.
Qed.

(** The test of [grant_entitlement] on the transaction id. *)
Lemma blank_iff (tid : string) :
  negb (truthy tid) || negb (truthy (strip tid)) = true <-> strip tid = EmptyString.
Proof.
  split.
  - intros Hb. apply orb_true_iff in Hb as [Hb|Hb]; apply negb_true_iff in Hb.
    + destruct tid; [reflexivity|discriminate].
    + destruct (strip tid); [reflexivity|discriminate].
  - intros ->. apply orb_true_r.
Qed.

(** [grant_entitlement] when no table call fails. *)
Lemma grant_entitlement_ok (now : Z) (uid pid tid plat : string)
    (receipt : option Receipt) (s : Store) :
  faults s = [] ->
  grant_entitlement now uid pid tid plat receipt s =
    if negb (truthy tid) || negb (truthy (strip tid)) then (Ok false, s)
    else match by_transaction tid (items s) with
         | _ :: _ => (Ok false, s)
         | [] => (Ok true,
                  {| items := put (entitlement_data now uid pid tid plat receipt) (items s);
                     faults := [] |})
         end.
Proof.
  intros Hf. unfold grant_entitlement, try_except.
  destruct (negb (truthy tid) || negb (truthy (strip tid))); [reflexivity|].
  unfold bind. rewrite get_entitlement_by_transaction_ok by exact Hf.
  destruct (by_transaction tid (items s)) as [|e l]; simpl; [|reflexivity].
  unfold put_item. rewrite table_call_ok by exact Hf. reflexivity.
Qed.

Lemma by_transaction_nil (tid : string) (t : list Entitlement) :
  by_transaction tid t = [] <-> forall e, In e t -> transaction_id e <> tid.
Proof.
  unfold by_transaction. split.
  - intros Hn e He Ht.
    assert (Hin : In e (List.filter (fun e => String.eqb (transaction_id e) tid) t)).
    { apply filter_In. split; [exact He|]. now apply String.eqb_eq. }
    rewrite Hn in Hin. destruct Hin.
  - intros Hall. induction t as [|y t IH]; simpl; [reflexivity|].
    destruct (String.eqb_spec (transaction_id y) tid) as [Heq|Hne].
    + exfalso. apply (Hall y); simpl; auto.
    + apply IH. intros e He. apply Hall. now right.
Qed.

(** A granted item is the only one with its transaction id when that id
    was not in the table. *)
Lemma by_transaction_put (e : Entitlement) (t : list Entitlement) :
  by_transaction (transaction_id e) t = [] ->
  by_transaction (transaction_id e) (put e t) = [e].
Proof.
  intros Hn. unfold put.
  assert (Hn' : by_transaction (transaction_id e)
                  (List.filter (fun x => negb (same_key e x)) t) = []).
  { apply by_transaction_nil. intros x Hx. apply filter_In in Hx.
    eapply by_transaction_nil; [exact Hn|apply Hx]. }
  revert Hn'. generalize (List.filter (fun x => negb (same_key e x)) t).
  intros l. induction l as [|y l IH]; simpl.
  - intros _. now rewrite String.eqb_refl.
  - destruct (String.eqb (transaction_id y) (transaction_id e)) eqn:Hy; [discriminate|].
    intros Hl. destruct (key_compare e y); simpl; rewrite ?String.eqb_refl, Hy.
    + f_equal. exact Hl.
    + f_equal. exact Hl.
    + now apply IH.
Qed.

(** ** Rejection and idempotence of grants *)


(** A blank transaction id is rejected before any table call, whatever
    the table would do. *)
Lemma grant_blank_rejected (now : Z) (uid pid tid plat : string)
    (receipt : option Receipt) (s : Store) :
  strip tid = EmptyString ->
  grant_entitlement now uid pid tid plat receipt s = (Ok false, s).
Proof.
  intros Hb. apply blank_iff in Hb. unfold grant_entitlement, try_except.
  now rewrite Hb.
Qed.

(** ** Access checks *)

Lemma check_loop_spec (module_type : string) (l acc : list Entitlement) (total : Z) :
  check_loop module_type l acc total
  = ((acc ++ List.filter (matches module_type) l)%list,
     total + sum_remaining (List.filter (matches module_type) l)).
Proof.
  revert acc total. induction l as [|e l IH]; intros acc total; cbn [check_loop List.filter].
  - cbn. now rewrite app_nil_r, Z.add_0_r.
  - destruct (matches module_type e).
    + rewrite IH. cbn [sum_remaining fold_right]. rewrite <- app_assoc.
      f_equal. fold (sum_remaining (List.filter (matches module_type) l)). lia.
    + apply IH.
Qed.

(** When the query succeeds, [check_entitlement] adds up the units of the
    user's active entitlements whose lower-cased product id contains the
    module type. *)
Lemma check_entitlement_ok (uid module_type : string) (s : Store) :
  faults s = [] ->
  let found := List.filter (matches module_type) (by_user uid (items s)) in
  check_entitlement uid module_type s
  = (Ok {| has_access := 0 <? sum_remaining found;
           total_remaining := sum_remaining found;
           products := found;
           total_products := Z.of_nat (List.length found) |}, s).
Proof.
  intros Hf found. unfold check_entitlement, try_except, bind, query_user.
  rewrite table_call_ok by exact Hf. cbn [fst snd].
  rewrite check_loop_spec. cbn [app]. rewrite Z.add_0_l. unfold ret.
  now rewrite store_eta.
Qed.

(** ** Units and status *)

(** Every product grants two assessments: the ten catalogued ones by the
    table, any other by the default. *)
Lemma dict_get_default_const {V : Type} (d : list (string * V)) (k : string) (v : V) :
  Forall (fun kv => snd kv = v) d -> dict_get_default d k v = v.
Proof.
  unfold dict_get_default. induction 1 as [|[k' v'] d Hv _ IH]; cbn [dict_get].
  - reflexivity.
  - destruct (String.eqb k' k); [exact Hv|exact IH].
Qed.

Lemma product_assessments_two (pid : string) :
  dict_get_default PRODUCT_ASSESSMENTS pid 2 = 2.
Proof. apply dict_get_default_const. repeat constructor. Qed.

Lemma entitlement_data_units_ok (now : Z) (uid pid tid plat : string)
    (receipt : option Receipt) :
  units_ok (entitlement_data now uid pid tid plat receipt).
Proof.
  unfold units_ok, entitlement_data; simpl. rewrite product_assessments_two.
  repeat split; try lia; auto; try discriminate.
Qed.

(** A table call either raises and leaves the table, or does its work. *)
Lemma table_call_cases {A : Type} (f : list Entitlement -> A * list Entitlement) (s : Store) :
  (exists fs, faults s = true :: fs
              /\ table_call f s = (Raise StorageError, {| items := items s; faults := fs |}))
  \/ (hd false (faults s) = false
      /\ table_call f s = (Ok (fst (f (items s))),
                           {| items := snd (f (items s)); faults := tl (faults s) |})).
Proof.
  unfold table_call. destruct (faults s) as [|[] fs]; simpl.
  - right. split; [reflexivity|]. now destruct (f (items s)).
  - left. eauto.
  - right. split; [reflexivity|]. now destruct (f (items s)).
Qed.

Lemma get_entitlement_by_transaction_items (tid : string) (s : Store) :
  items (snd (get_entitlement_by_transaction tid s)) = items s.
Proof.
  unfold get_entitlement_by_transaction, try_except, bind, query_transaction_index.
  destruct (table_call_cases (fun t => (by_transaction tid t, t)) s)
    as [(fs & _ & ->)|[_ ->]]; reflexivity.
Qed.

(** What a grant does to the table, whatever the table calls do. *)
Lemma grant_entitlement_items (now : Z) (uid pid tid plat : string)
    (receipt : option Receipt) (s : Store) :
  items (snd (grant_entitlement now uid pid tid plat receipt s)) = items s
  \/ items (snd (grant_entitlement now uid pid tid plat receipt s))
     = put (entitlement_data now uid pid tid plat receipt) (items s).
Proof.
  unfold grant_entitlement, try_except.
  destruct (negb (truthy tid) || negb (truthy (strip tid))); [now left|].
  unfold bind.
  pose proof (get_entitlement_by_transaction_items tid s) as Hi.
  destruct (get_entitlement_by_transaction tid s) as [[[e|]|x] s1]; simpl in Hi.
  - now left.
  - unfold put_item.
    destruct (table_call_cases
                (fun t => (tt, put (entitlement_data now uid pid tid plat receipt) t)) s1)
      as [(fs & _ & ->)|[_ ->]]; simpl; rewrite Hi; auto.
  - now left.
Qed.

Lemma consume_loop_items (now : Z) (uid module_type assessment_id : string)
    (l : list Entitlement) (s : Store) :
  items (snd (consume_loop now uid module_type assessment_id l s)) = items s
  \/ exists ent, In ent l /\ consumable module_type ent = true
       /\ items (snd (consume_loop now uid module_type assessment_id l s))
          = List.map (consumption_of now uid assessment_id ent) (items s).
Proof.
  induction l as [|ent l IH]; simpl; [now left|].
  destruct (consumable module_type ent) eqn:Hc.
  - unfold bind, update_item.
    match goal with |- context [table_call ?f s] =>
      destruct (table_call_cases f s) as [(fs & _ & ->)|[_ ->]] end; simpl.
    + now left.
    + right. exists ent. auto.
  - destruct IH as [IH|(e & He & Hce & IH)]; [now left|].
    right. exists e. auto.
Qed.

(** What a consumption does to the table: nothing, or the decrement of
    one consumable entitlement of the user. *)
Lemma consume_assessment_items (now : Z) (uid module_type assessment_id : string)
    (s : Store) :
  items (snd (consume_assessment now uid module_type assessment_id s)) = items s
  \/ exists ent, In ent (items s) /\ user_id ent = uid
       /\ consumable module_type ent = true
       /\ items (snd (consume_assessment now uid module_type assessment_id s))
          = List.map (consumption_of now uid assessment_id ent) (items s).
Proof.
  unfold consume_assessment, try_except, bind, query_user.
  destruct (table_call_cases (fun t => (by_user uid t, t)) s)
    as [(fs & _ & ->)|[_ ->]]; simpl; [now left|].
  set (s1 := {| items := items s; faults := tl (faults s) |}).
  destruct (consume_loop_items now uid module_type assessment_id (by_user uid (items s)) s1)
    as [Hi|(ent & He & Hc & Hi)].
  - left. destruct (consume_loop _ _ _ _ _ s1) as [[b|x] s2]; exact Hi.
  - right. exists ent. unfold by_user in He. apply filter_In in He as [He Hu].
    apply String.eqb_eq in Hu.
    repeat split; auto.
    destruct (consume_loop _ _ _ _ _ s1) as [[b|x] s2]; exact Hi.
Qed.

(** The item [update_item] rewrites is the one [consume_assessment] read. *)
Lemma keys_unique_same (t : list Entitlement) (a b : Entitlement) :
  keys_unique t -> In a t -> In b t -> same_key a b = true -> a = b.
Proof.
  induction t as [|y t IH]; simpl; [tauto|].
  intros [Hy Hu] [->|Ha] [->|Hb] Hk; auto.
  - rewrite (Hy b Hb) in Hk. discriminate.
  - rewrite same_key_sym, (Hy a Ha) in Hk. discriminate.
Qed.

Lemma consume_updates_stored_item (now : Z) (uid assessment_id : string)
    (ent e : Entitlement) (t : list Entitlement) :
  keys_unique t -> In ent t -> In e t -> user_id ent = uid ->
  consumption_of now uid assessment_id ent e = e
  \/ (e = ent /\ consumption_of now uid assessment_id ent e
                = set_consumption (assessments_remaining ent - 1)
                    (if 0 <? assessments_remaining ent - 1 then "active" else "consumed")
                    now assessment_id ent).
Proof.
  intros Hu Hent He Huid. unfold consumption_of.
  destruct (String.eqb (user_id e) uid && String.eqb (product_id e) (product_id ent)) eqn:Hk;
    [|now left].
  right. assert (e = ent) as ->.
  { apply (keys_unique_same t); auto. unfold same_key. now rewrite Huid. }
  auto.
Qed.

Lemma consumption_of_key (now : Z) (uid assessment_id : string) (ent e x : Entitlement) :
  same_key (consumption_of now uid assessment_id ent e) x = same_key e x.
Proof. unfold consumption_of. now destruct (_ && _). Qed.

Lemma keys_unique_map_consumption (now : Z) (uid assessment_id : string)
    (ent : Entitlement) (t : list Entitlement) :
  keys_unique t -> keys_unique (List.map (consumption_of now uid assessment_id ent) t).
Proof.
  induction t as [|y t IH]; simpl; [auto|]. intros [Hy Hu]. split; auto.
  intros x Hx. apply in_map_iff in Hx as (x0 & <- & Hx0).
  rewrite consumption_of_key, same_key_sym, consumption_of_key, same_key_sym. auto.
Qed.

Lemma consumption_of_key_compare (now : Z) (uid assessment_id : string)
    (ent a b : Entitlement) :
  key_compare (consumption_of now uid assessment_id ent a)
              (consumption_of now uid assessment_id ent b) = key_compare a b.
Proof. unfold consumption_of. now destruct (_ && _), (_ && _). Qed.

Lemma sorted_map_consumption (now : Z) (uid assessment_id : string)
    (ent : Entitlement) (t : list Entitlement) :
  sorted t -> sorted (List.map (consumption_of now uid assessment_id ent) t).
Proof.
  induction 1 as [|y t _ IH Hy]; simpl; constructor; [exact IH|].
  rewrite Forall_forall in *. intros x Hx. apply in_map_iff in Hx as (x0 & <- & Hx0).
  unfold key_lt. rewrite consumption_of_key_compare. now apply Hy.
Qed.

Lemma set_consumption_units_ok (now : Z) (assessment_id : string) (ent : Entitlement) :
  units_ok ent -> 0 < assessments_remaining ent ->
  units_ok (set_consumption (assessments_remaining ent - 1)
              (if 0 <? assessments_remaining ent - 1 then "active" else "consumed")
              now assessment_id ent).
Proof.
  unfold units_ok; simpl. intros (Hr & _) Hpos.
  destruct (Z.ltb_spec 0 (assessments_remaining ent - 1)); repeat split;
    try lia; auto; try discriminate; intros; lia.
Qed.

Lemma same_record_refl (e : Entitlement) : same_record e e.
Proof. unfold same_record. auto. Qed.

(** One operation, whatever the table calls do: the table stays well
    formed, and each item afterwards is the one the operation created or
    an item from before with at most one unit less. *)
Lemma run_op_step (op : LedgerOp) (s : Store) :
  table_ok (items s) ->
  table_ok (items (run_op op s))
  /\ forall e', In e' (items (run_op op s)) ->
       created_by op e'
       \/ exists e, In e (items s) /\ same_record e e'
            /\ assessments_remaining e - 1 <= assessments_remaining e'
               <= assessments_remaining e.
Proof.
  intros [Hs Hok]. rewrite Forall_forall in Hok.
  pose proof (sorted_keys_unique _ Hs) as Hu.
  assert (Hsame : forall e', In e' (items s) ->
            exists e, In e (items s) /\ same_record e e'
              /\ assessments_remaining e - 1 <= assessments_remaining e'
                 <= assessments_remaining e).
  { intros e' He'. exists e'. split; [auto|]. split; [apply same_record_refl|lia]. }
  destruct op as [now uid pid tid plat receipt|now uid module_type assessment_id];
    cbn [run_op created_by].
  - destruct (grant_entitlement_items now uid pid tid plat receipt s) as [-> | ->].
    + split; [split; [auto|now apply Forall_forall]|]. auto.
    + split; [split|].
      * now apply sorted_put.
      * apply Forall_forall. intros x Hx. apply in_put in Hx as [->|[Hx _]]; auto.
        apply entitlement_data_units_ok.
      * intros e' He'. apply in_put in He' as [->|[He' _]]; auto.
  - destruct (consume_assessment_items now uid module_type assessment_id s)
      as [-> | (ent & Hent & Huid & Hc & ->)].
    + split; [split; [auto|now apply Forall_forall]|]. auto.
    + assert (Hpos : 0 < assessments_remaining ent).
      { unfold consumable in Hc. apply andb_true_iff in Hc as [_ Hc]. now apply Z.ltb_lt. }
      split; [split|].
      * now apply sorted_map_consumption.
      * apply Forall_forall. intros x Hx. apply in_map_iff in Hx as (e & <- & He).
        destruct (consume_updates_stored_item now uid assessment_id ent e (items s))
          as [-> | [-> ->]]; auto.
        apply set_consumption_units_ok; auto.
      * intros e' He'. right. apply in_map_iff in He' as (e & <- & He).
        exists e. split; [auto|].
        destruct (consume_updates_stored_item now uid assessment_id ent e (items s))
          as [-> | [-> ->]]; auto.
        -- split; [apply same_record_refl|lia].
        -- split; [unfold same_record; simpl; auto|simpl; lia].
Qed.

Lemma run_ops_table_ok (ops : list LedgerOp) (s0 : Store) :
  table_ok (items s0) -> table_ok (items (run_ops ops s0)).
Proof.
  revert s0. induction ops as [|op ops IH]; intros s0 Hok; [exact Hok|].
  cbn [run_ops fold_left]. apply IH. now apply run_op_step.
Qed.

(** C2, as the code has it.  Start from a well-formed table
    (the empty ledger is one) and run any sequence of grants and
    consumptions, whether or not table calls fail.  Then every item has
    units-remaining between 0 and the units purchased, its status is
    ['consumed'] exactly when units-remaining is 0 and ['active']
    exactly when it is positive; and after one more operation every item
    is either the record this operation has just created, or a record
    that was there before, with units-remaining unchanged or one less.
    (A grant for a user and product that already have an item replaces
    that item by the newly created record.) *)
Theorem entitlement_units_invariant (ops : list LedgerOp) (s0 : Store) :
  table_ok (items s0) ->
  let s := run_ops ops s0 in
  (forall e, In e (items s) ->
     0 <= assessments_remaining e <= assessments_purchased e
     /\ (status e = "consumed" <-> assessments_remaining e = 0)
     /\ (status e = "active" <-> 0 < assessments_remaining e))
  /\ (forall op e', In e' (items (run_op op s)) ->
        created_by op e'
        \/ exists e, In e (items s) /\ same_record e e'
             /\ assessments_remaining e - 1 <= assessments_remaining e'
                <= assessments_remaining e).
Proof.
  intros Hok s. pose proof (run_ops_table_ok ops s0 Hok) as Hs. fold s in Hs. split.
  - intros e He. destruct Hs as [_ Hall]. rewrite Forall_forall in Hall.
    destruct (Hall e He) as (Hr & _ & Hc & Ha). auto.
  - intros op. now apply run_op_step.
Qed.

(** ** The order of consumption *)

Lemma consume_loop_first (now : Z) (uid module_type assessment_id : string)
    (l : list Entitlement) (ent : Entitlement) (s : Store) :
  faults s = [] -> sorted l -> In ent l -> consumable module_type ent = true ->
  (forall x, In x l -> consumable module_type x = true -> x = ent \/ key_lt ent x) ->
  consume_loop now uid module_type assessment_id l s =
    (Ok true, {| items := List.map (consumption_of now uid assessment_id ent) (items s);
                 faults := [] |}).
Proof.
  intros Hf Hs. revert ent. induction Hs as [|y l Hl IH Hy]; intros ent Hin Hc Hmin.
  - destruct Hin.
  - cbn [consume_loop]. rewrite Forall_forall in Hy.
    destruct (consumable module_type y) eqn:Hcy.
    + assert (y = ent) as ->.
      { destruct (Hmin y (or_introl eq_refl) Hcy) as [Heq|Hlt]; [exact Heq|].
        exfalso. destruct Hin as [Heq|Hin].
        { subst. apply key_lt_not_same in Hlt. now rewrite same_key_refl in Hlt. }
        pose proof (key_lt_trans _ _ _ (Hy ent Hin) Hlt) as Hyy.
        apply key_lt_not_same in Hyy. now rewrite same_key_refl in Hyy. }
      unfold bind, update_item. rewrite table_call_ok by exact Hf. reflexivity.
    + destruct Hin as [Heq|Hin]; [congruence|].
      apply IH; auto. intros x Hx. apply Hmin. now right.
Qed.

Lemma consume_assessment_first (now : Z) (uid module_type assessment_id : string)
    (ent : Entitlement) (s : Store) :
  faults s = [] -> sorted (items s) ->
  first_consumable uid module_type (items s) ent ->
  consume_assessment now uid module_type assessment_id s =
    (Ok true, {| items := replace_item ent (decremented now assessment_id ent) (items s);
                 faults := [] |}).
Proof.
  intros Hf Hs (Hin & Huid & Hc & Hmin).
  unfold consume_assessment, try_except, bind, query_user.
  rewrite table_call_ok by exact Hf. cbn [fst snd].
  rewrite (consume_loop_first now uid module_type assessment_id _ ent); auto.
  - cbn [items]. do 2 f_equal. unfold replace_item. apply map_ext_in. intros e He.
    destruct (consume_updates_stored_item now uid assessment_id ent e (items s))
      as [Hsame|[-> ->]]; auto using sorted_keys_unique.
    + rewrite Hsame. destruct (same_key e ent) eqn:Hk; [|reflexivity].
      assert (e = ent) as -> by (apply (keys_unique_same (items s)); auto using sorted_keys_unique).
      unfold consumption_of in Hsame. rewrite Huid, !String.eqb_refl in Hsame.
      symmetry. exact Hsame.
    + now rewrite same_key_refl.
  - now apply sorted_filter.
  - apply filter_In. split; [exact Hin|]. now apply String.eqb_eq.
  - intros x Hx Hcx. apply filter_In in Hx as [Hx Hux]. apply String.eqb_eq in Hux.
    destruct (Hmin x Hx Hux Hcx) as [Heq|Hlt]; [now left|right].
    apply key_lt_iff. right. split; [congruence|exact Hlt].
Qed.

Lemma replace_item_in (ent ent' : Entitlement) (t : list Entitlement) (x : Entitlement) :
  keys_unique t -> In ent t ->
  (In x (replace_item ent ent' t) <-> x = ent' \/ (In x t /\ x <> ent)).
Proof.
  intros Hu Hin. unfold replace_item. rewrite in_map_iff. split.
  - intros (e & He & Hi). destruct (same_key e ent) eqn:Hk; subst; [now left|].
    right. split; [auto|]. intros ->. now rewrite same_key_refl in Hk.
  - intros [->|[Hx Hne]].
    + exists ent. now rewrite same_key_refl.
    + exists x. split; [|auto]. destruct (same_key x ent) eqn:Hk; [|reflexivity].
      exfalso. apply Hne. now apply (keys_unique_same t).
Qed.

Lemma sorted_replace_item (ent ent' : Entitlement) (t : list Entitlement) :
  same_key ent' ent = true -> sorted t -> sorted (replace_item ent ent' t).
Proof.
  intros Hk. apply same_key_iff in Hk as [Hu Hp].
  assert (Hcmp : forall a b,
             key_compare (if same_key a ent then ent' else a)
                         (if same_key b ent then ent' else b) = key_compare a b).
  { intros a b. apply key_compare_ext;
      match goal with |- context [same_key ?z ent] =>
        destruct (same_key z ent) eqn:Hz; [apply same_key_iff in Hz as [Hz1 Hz2]|];
        congruence
      end. }
  induction 1 as [|y t _ IH Hy]; simpl; constructor; [exact IH|].
  rewrite Forall_forall in *. intros x Hx. apply in_map_iff in Hx as (x0 & <- & Hx0).
  unfold key_lt. rewrite Hcmp. now apply Hy.
Qed.

(** C4, as the code has it.  On a table in key order whose calls do not
    fail, [consume_assessment] decrements, among the user's entitlements
    that are active, match the module type and have units left, the one
    with the least product id (the first of the query), whatever the
    purchase dates: it returns [True], that item loses one unit (and
    becomes ['consumed'] at 0), and no other item changes.  While the
    item has units left it is again the one the next consumption takes,
    so it is exhausted before any later one is touched. *)
Theorem consume_takes_first_of_query (s : Store) (now : Z)
    (uid module_type assessment_id : string) (ent : Entitlement) :
  faults s = [] -> sorted (items s) ->
  first_consumable uid module_type (items s) ent ->
  let ent' := decremented now assessment_id ent in
  let r := consume_assessment now uid module_type assessment_id s in
  fst r = Ok true
  /\ faults (snd r) = [] /\ sorted (items (snd r))
  /\ assessments_remaining ent' = assessments_remaining ent - 1
  /\ (forall x, In x (items (snd r)) <-> x = ent' \/ (In x (items s) /\ x <> ent))
  /\ (0 < assessments_remaining ent' ->
      first_consumable uid module_type (items (snd r)) ent').
Proof.
  intros Hf Hs Hfc ent' r.
  assert (Hr : r = (Ok true, {| items := replace_item ent ent' (items s); faults := [] |})).
  { now apply consume_assessment_first. }
  destruct Hfc as (Hin & Huid & Hc & Hmin). rewrite Hr. cbn [fst snd items faults].
  assert (Hu := sorted_keys_unique _ Hs).
  assert (Hk : same_key ent' ent = true) by (apply same_key_iff; split; reflexivity).
  split; [reflexivity|]. split; [reflexivity|].
  split; [now apply sorted_replace_item|]. split; [reflexivity|].
  split; [intros x; now apply replace_item_in|].
  intros Hpos. repeat split.
  - apply replace_item_in; auto.
  - exact Huid.
  - unfold consumable, matches in *. cbn. apply Z.ltb_lt in Hpos. cbn in Hpos.
    rewrite Hpos. apply andb_true_iff in Hc as [Hm _].
    apply andb_true_iff in Hm as [_ Hm]. now rewrite Hm.
  - intros x Hx Hux Hcx. apply replace_item_in in Hx as [->|[Hx Hne]]; auto.
    destruct (Hmin x Hx Hux Hcx) as [Heq|Hlt]; [contradiction|]. right. exact Hlt.
Qed.

(** ** Failing table calls *)

Lemma try_except_ret_ok {A : Type} (m : M Store A) (v : A) (s : Store) :
  exists a, fst (try_except m (fun _ => ret v) s) = Ok a.
Proof. unfold try_except, ret. destruct (m s) as [[a|e] s']; simpl; eauto. Qed.

Lemma table_call_raise {A : Type} (f : list Entitlement -> A * list Entitlement)
    (s : Store) (fs : list bool) :
  faults s = true :: fs ->
  table_call f s = (Raise StorageError, {| items := items s; faults := fs |}).
Proof. unfold table_call. now intros ->. Qed.

Lemma table_call_pass {A : Type} (f : list Entitlement -> A * list Entitlement)
    (s : Store) (fs : list bool) :
  faults s = false :: fs ->
  table_call f s = (Ok (fst (f (items s))), {| items := snd (f (items s)); faults := fs |}).
Proof. unfold table_call. intros ->. now destruct (f (items s)). Qed.

Lemma consume_loop_update_raises (now : Z) (uid module_type assessment_id : string)
    (l : list Entitlement) (s : Store) (fs : list bool) :
  faults s = true :: fs ->
  (exists ent, In ent l /\ consumable module_type ent = true) ->
  consume_loop now uid module_type assessment_id l s =
    (Raise StorageError, {| items := items s; faults := fs |}).
Proof.
  intros Hf. induction l as [|y l IH]; intros (ent & Hin & Hc); [destruct Hin|].
  cbn [consume_loop]. destruct (consumable module_type y) eqn:Hcy.
  - unfold bind, update_item. now rewrite (table_call_raise _ s fs).
  - apply IH. destruct Hin as [->|Hin]; [congruence|eauto].
Qed.

(** C5, as the code has it.  Every operation of the ledger wraps its
    table calls in [try ... except Exception]: it never raises.  When the
    table call of the operation raises (the user query of
    [check_entitlement] and of [consume_assessment], the
    [update_item] of [consume_assessment], the [put_item] of
    [grant_entitlement]), the operation returns a normal value, the
    no-access result or [False], leaves the table as it is, and makes no
    further table call: the failed call is not tried again. *)
Theorem storage_errors_become_return_values (s : Store) :
  (forall now uid pid tid plat receipt,
      exists b, fst (grant_entitlement now uid pid tid plat receipt s) = Ok b)
  /\ (forall uid module_type,
        exists r, fst (check_entitlement uid module_type s) = Ok r)
  /\ (forall now uid module_type assessment_id,
        exists b, fst (consume_assessment now uid module_type assessment_id s) = Ok b)
  /\ (forall fs uid module_type,
        faults s = true :: fs ->
        check_entitlement uid module_type s
        = (Ok no_access, {| items := items s; faults := fs |}))
  /\ (forall fs now uid module_type assessment_id,
        faults s = true :: fs ->
        consume_assessment now uid module_type assessment_id s
        = (Ok false, {| items := items s; faults := fs |}))
  /\ (forall fs now uid module_type assessment_id,
        faults s = false :: true :: fs ->
        (exists ent, In ent (by_user uid (items s)) /\ consumable module_type ent = true) ->
        consume_assessment now uid module_type assessment_id s
        = (Ok false, {| items := items s; faults := fs |}))
  /\ (forall fs now uid pid tid plat receipt,
        faults s = false :: true :: fs ->
        strip tid <> EmptyString -> by_transaction tid (items s) = [] ->
        grant_entitlement now uid pid tid plat receipt s
        = (Ok false, {| items := items s; faults := fs |})).
Proof.
  split; [intros; apply try_except_ret_ok|].
  split; [intros; apply try_except_ret_ok|].
  split; [intros; apply try_except_ret_ok|].
  split; [|split; [|split]].
  - intros fs uid module_type Hf.
    unfold check_entitlement, try_except, bind, query_user.
    now rewrite (table_call_raise _ s fs).
  - intros fs now uid module_type assessment_id Hf.
    unfold consume_assessment, try_except, bind, query_user.
    now rewrite (table_call_raise _ s fs).
  - intros fs now uid module_type assessment_id Hf Hex.
    unfold consume_assessment, try_except, bind, query_user.
    rewrite (table_call_pass _ s (true :: fs)) by exact Hf. cbn [fst snd].
    rewrite (consume_loop_update_raises now uid module_type assessment_id _ _ fs);
      [reflexivity|reflexivity|exact Hex].
  - intros fs now uid pid tid plat receipt Hf Hnb Hnew.
    unfold grant_entitlement, try_except.
    destruct (negb (truthy tid) || negb (truthy (strip tid))) eqn:Hb.
    { apply blank_iff in Hb. contradiction. }
    unfold bind, get_entitlement_by_transaction, try_except, bind, query_transaction_index.
    rewrite (table_call_pass _ s (true :: fs)) by exact Hf. cbn [fst snd].
    rewrite Hnew. cbn [List.head ret fst snd]. unfold put_item.
    rewrite (table_call_raise _ _ fs) by reflexivity. reflexivity.
Qed.

(** ** Granted units *)

Lemma grant_entitlement_true (now : Z) (uid pid tid plat : string)
    (receipt : option Receipt) (s : Store) :
  fst (grant_entitlement now uid pid tid plat receipt s) = Ok true ->
  items (snd (grant_entitlement now uid pid tid plat receipt s))
  = put (entitlement_data now uid pid tid plat receipt) (items s).
Proof.
  unfold grant_entitlement, try_except.
  destruct (negb (truthy tid) || negb (truthy (strip tid))); [discriminate|].
  unfold bind.
  pose proof (get_entitlement_by_transaction_items tid s) as Hi.
  destruct (get_entitlement_by_transaction tid s) as [[[e|]|x] s1]; simpl in Hi;
    try discriminate.
  unfold put_item.
  destruct (table_call_cases
              (fun t => (tt, put (entitlement_data now uid pid tid plat receipt) t)) s1)
    as [(fs & _ & ->)|[_ ->]]; simpl; [discriminate|]. now rewrite Hi.
Qed.

(** The receipt plays no part in whether a grant succeeds. *)
Lemma grant_entitlement_result_receipt (now : Z) (uid pid tid plat : string)
    (receipt receipt' : option Receipt) (s : Store) :
  fst (grant_entitlement now uid pid tid plat receipt s)
  = fst (grant_entitlement now uid pid tid plat receipt' s).
Proof.
  unfold grant_entitlement, try_except.
  destruct (negb (truthy tid) || negb (truthy (strip tid))); [reflexivity|].
  unfold bind.
  destruct (get_entitlement_by_transaction tid s) as [[[e|]|x] s1]; try reflexivity.
  unfold put_item.
  destruct (table_call_cases
              (fun t => (tt, put (entitlement_data now uid pid tid plat receipt) t)) s1)
    as [(fs & Hfs & ->)|[Hhd ->]];
  destruct (table_call_cases
              (fun t => (tt, put (entitlement_data now uid pid tid plat receipt') t)) s1)
    as [(fs' & Hfs' & ->)|[Hhd' ->]]; try reflexivity.
  - rewrite Hfs in Hhd'. discriminate.
  - rewrite Hfs' in Hhd. discriminate.
Qed.

(** C10.  Granted units come from the product table.  After a grant
    that returned [True] the table holds the entitlement it built, whose
    units purchased and units remaining are both
    [PRODUCT_ASSESSMENTS.get(product_id, 2)], which is 2 for every
    product id, catalogued or not.  The operation takes no unit count.
    With another receipt the grant succeeds all the same and builds the
    same item but for [receipt_verified], which tells whether the receipt
    is a non-empty dict, and the serialized receipt kept with it. *)
Theorem granted_units_from_product_table (s : Store) (now : Z)
    (uid pid tid plat : string) (receipt : option Receipt) :
  fst (grant_entitlement now uid pid tid plat receipt s) = Ok true ->
  let e := entitlement_data now uid pid tid plat receipt in
  In e (items (snd (grant_entitlement now uid pid tid plat receipt s)))
  /\ assessments_purchased e = dict_get_default PRODUCT_ASSESSMENTS pid 2
  /\ assessments_remaining e = dict_get_default PRODUCT_ASSESSMENTS pid 2
  /\ dict_get_default PRODUCT_ASSESSMENTS pid 2 = 2
  /\ receipt_verified e = receipt_truthy receipt
  /\ forall receipt',
       let e' := entitlement_data now uid pid tid plat receipt' in
       fst (grant_entitlement now uid pid tid plat receipt' s) = Ok true
       /\ assessments_purchased e' = assessments_purchased e
       /\ assessments_remaining e' = assessments_remaining e
       /\ e' = {| user_id := user_id e; product_id := product_id e;
                  transaction_id := transaction_id e; platform := platform e;
                  assessments_purchased := assessments_purchased e;
                  assessments_remaining := assessments_remaining e;
                  purchase_date := purchase_date e; status := status e;
                  receipt_verified := receipt_truthy receipt';
                  created_at := created_at e; updated_at := updated_at e;
                  receipt_data := receipt_data e';
                  last_used_assessment := last_used_assessment e |}.
Proof.
  intros Hok e. split.
  - rewrite grant_entitlement_true by exact Hok. apply in_put. now left.
  - split; [reflexivity|]. split; [reflexivity|].
    split; [apply product_assessments_two|].
    split; [unfold e, entitlement_data; cbn; now destruct (receipt_truthy receipt)|].
    intros receipt' e'. split.
    + now rewrite <- (grant_entitlement_result_receipt now uid pid tid plat receipt).
    + split; [reflexivity|]. split; [reflexivity|].
      unfold e', e, entitlement_data; cbn. now destruct (receipt_truthy receipt').
Qed.

End EntitlementLedger.

(** ** The ledger on concrete inputs *)

Section LedgerRuns.
Import PyStr Eff EntitlementDAL LedgerExamples.
#[local] Existing Instance render_flat.

Lemma two_purchases_items : items two_purchases = [academic_writing; general_writing].
Proof. reflexivity. Qed.

Lemma two_purchases_sorted : sorted (items two_purchases).
Proof. rewrite two_purchases_items. repeat constructor. Qed.

Lemma academic_writing_first :
  first_consumable "user-1" "writing" (items two_purchases) academic_writing.
Proof.
  rewrite two_purchases_items. repeat split.
  - now left.
  - intros x [<-|[<-|[]]] _ _; [now left|right; reflexivity].
Qed.



Lemma entitlement_units_invariant_witness :
  table_ok (items empty_store)
  /\ forall e, In e (items used_up) ->
       0 <= assessments_remaining e <= assessments_purchased e
       /\ (status e = "consumed" <-> assessments_remaining e = 0)
       /\ (status e = "active" <-> 0 < assessments_remaining e).
Proof.
  assert (Hok : table_ok (items empty_store)) by (split; constructor).
  split; [exact Hok|].
  exact (proj1 (entitlement_units_invariant
                  [ Grant 100 "user-1" "academic_writing" "tx-1" "ios" None;
                    Consume 110 "user-1" "academic_writing" "assessment-1";
                    Consume 120 "user-1" "academic_writing" "assessment-2" ]
                  empty_store Hok)).
Defined.

(** C2, the claim as stated fails.  A purchase is used up: its item has 0
    units and is ['consumed'].  The same user buys the product again:
    [put_item] replaces the item, and the item of that user and product
    has 2 units and is ['active'].  The first transaction id, no longer in
    the table, is then granted a second time: the item with the user,
    product and transaction id of the used-up one has 2 units. *)
Lemma units_increase_on_regrant :
  (exists e, items used_up = [e]
     /\ user_id e = "user-1" /\ product_id e = "academic_writing"
     /\ transaction_id e = "tx-1"
     /\ assessments_remaining e = 0 /\ status e = "consumed")
  /\ (exists e, items bought_again = [e]
     /\ user_id e = "user-1" /\ product_id e = "academic_writing"
     /\ transaction_id e = "tx-2"
     /\ assessments_remaining e = 2 /\ status e = "active")
  /\ (exists e, items granted_again = [e]
     /\ user_id e = "user-1" /\ product_id e = "academic_writing"
     /\ transaction_id e = "tx-1"
     /\ assessments_remaining e = 2 /\ status e = "active").
Proof. repeat split; eexists; repeat split; reflexivity. Qed.

(** C3, the code at the input of the claim.  The grant of
    ['com.ieltsaiprep.academic.writing'] succeeds and stores 2 units, and
    [check_entitlement] for ['academic_writing'] answers no access and 0
    units: ['academic_writing'] is not a substring of the product id,
    which has a dot where the module type has an underscore. *)
Lemma academic_writing_purchase_gives_no_access :
  let granted := grant_entitlement 1000 "user-1" "com.ieltsaiprep.academic.writing"
                   "tx-001" "ios" None empty_store in
  fst granted = Ok true
  /\ List.map assessments_remaining (by_user "user-1" (items (snd granted))) = [2]
  /\ List.map status (by_user "user-1" (items (snd granted))) = ["active"]
  /\ contains "academic_writing" (lower "com.ieltsaiprep.academic.writing") = false
  /\ fst (check_entitlement "user-1" "academic_writing" (snd granted))
     = Ok {| has_access := false; total_remaining := 0;
             products := []; total_products := 0 |}.
Proof. repeat split; reflexivity. Qed.

Lemma consume_takes_first_of_query_witness :
  faults two_purchases = []
  /\ sorted (items two_purchases)
  /\ first_consumable "user-1" "writing" (items two_purchases) academic_writing
  /\ fst (consume_assessment 300 "user-1" "writing" "assessment-1" two_purchases) = Ok true.
Proof.
  split; [reflexivity|]. split; [exact two_purchases_sorted|].
  split; [exact academic_writing_first|].
  exact (proj1 (consume_takes_first_of_query two_purchases 300 "user-1" "writing"
                  "assessment-1" academic_writing eq_refl two_purchases_sorted
                  academic_writing_first)).
Defined.

(** C4, the claim as stated fails.  The user holds two active
    entitlements that match ['writing'], each with 2 units: the general
    one bought at time 100 and the academic one bought at time 200.  The
    consumption takes a unit of the academic one, the newer, and leaves
    the older as it is. *)
Lemma consume_not_oldest_first :
  items two_purchases = [academic_writing; general_writing]
  /\ consumable "writing" general_writing = true
  /\ consumable "writing" academic_writing = true
  /\ purchase_date general_writing < purchase_date academic_writing
  /\ consume_assessment 300 "user-1" "writing" "assessment-1" two_purchases
     = (Ok true,
        {| items := [decremented 300 "assessment-1" academic_writing; general_writing];
           faults := [] |})
  /\ assessments_remaining (decremented 300 "assessment-1" academic_writing) = 1
  /\ assessments_remaining general_writing = 2.
Proof. repeat split; reflexivity. Qed.

Lemma storage_errors_become_return_values_witness :
  faults (failing (items one_purchase)) = [true]
  /\ check_entitlement "user-1" "writing" (failing (items one_purchase))
     = (Ok no_access, {| items := items one_purchase; faults := [] |}).
Proof.
  split; [reflexivity|].
  destruct (storage_errors_become_return_values (failing (items one_purchase)))
    as (_ & _ & _ & Hcheck & _).
  exact (Hcheck [] "user-1" "writing" eq_refl).
Defined.

(** C5, the claim as stated fails.  The user holds an active writing
    entitlement with 2 units and the table query raises:
    [check_entitlement] returns the no-access result and
    [consume_assessment] returns [False], neither raises; and when
    [put_item] raises, [grant_entitlement] returns [False]. *)
Lemma storage_error_not_propagated :
  let s := failing (items one_purchase) in
  fst (query_user "user-1" s) = Raise StorageError
  /\ fst (check_entitlement "user-1" "writing" s) = Ok no_access
  /\ fst (consume_assessment 2000 "user-1" "writing" "assessment-1" s) = Ok false
  /\ fst (put_item academic_writing (failing [])) = Raise StorageError
  /\ fst (grant_entitlement 200 "user-1" "com.ieltsaiprep.academic.writing" "tx-new"
            "android" None {| items := []; faults := [false; true] |}) = Ok false.
Proof. repeat split; reflexivity. Qed.

Lemma granted_units_from_product_table_witness :
  fst (grant_entitlement 1000 "user-1" "some.unknown.product" "tx-9" "ios"
         (Some [("receipt", "abc")]) empty_store) = Ok true
  /\ assessments_remaining
       (entitlement_data 1000 "user-1" "some.unknown.product" "tx-9" "ios"
          (Some [("receipt", "abc")])) = 2.
Proof.
  split; [reflexivity|].
  destruct (granted_units_from_product_table empty_store 1000 "user-1"
              "some.unknown.product" "tx-9" "ios" (Some [("receipt", "abc")]) eq_refl)
    as (_ & _ & Hrem & Htwo & _).
  exact (eq_trans Hrem Htwo).
Defined.

End LedgerRuns.

(* ================================================================== *)
(** * The regional router *)

Section RegionalRouter.
Import PyStr Eff GeminiRegionalRouter.

(** ** Dict literals *)

Lemma dict_get_in {V : Type} (d : list (string * V)) (k : string) (v : V) :
  dict_get d k = Some v -> In (k, v) d.
Proof.
  induction d as [|[k' v'] d IH]; cbn [dict_get]; [discriminate|].
  destruct (String.eqb_spec k' k) as [->|Hne].
  - intros [= ->]. now left.
  - intros Hd. right. now apply IH.
Qed.

Lemma dict_mem_keys {V : Type} (d : list (string * V)) (k : string) :
  dict_mem d k = true <-> In k (List.map fst d).
Proof.
  unfold dict_mem. induction d as [|[k' v'] d IH]; cbn [dict_get List.map fst In].
  - split; [discriminate|tauto].
  - destruct (String.eqb_spec k' k) as [->|Hne]; [tauto|].
    rewrite IH. split; [tauto|]. intros [Heq|Hin]; [contradiction|exact Hin].
Qed.

Lemma region_entry_ok (r : string) :
  dict_mem VERTEX_AI_REGIONS r = true ->
  exists info, region_entry r = Ok (r, info) /\ dict_get VERTEX_AI_REGIONS r = Some info.
Proof.
  unfold dict_mem, region_entry.
  destruct (dict_get VERTEX_AI_REGIONS r) as [info|]; [eauto|discriminate].
Qed.

(** Every region a country maps to has a name and is in the catalog. *)
Lemma country_regions_in_catalog :
  Forall (fun kv => truthy (snd kv) = true /\ dict_mem VERTEX_AI_REGIONS (snd kv) = true)
         COUNTRY_TO_REGION.
Proof. repeat constructor. Qed.

Lemma country_region_ok (k r : string) :
  dict_get COUNTRY_TO_REGION k = Some r ->
  truthy r = true /\ dict_mem VERTEX_AI_REGIONS r = true.
Proof.
  intros Hd. apply dict_get_in in Hd.
  pose proof country_regions_in_catalog as Hall. rewrite Forall_forall in Hall.
  exact (Hall (k, r) Hd).
Qed.

Lemma default_region_in_catalog : dict_mem VERTEX_AI_REGIONS default_region = true.
Proof. reflexivity. Qed.

(** ** The priorities *)

Lemma preferred_choice_spec (now : Z) (pref : option string) (rt : Router) (r : string) :
  preferred_choice now pref rt = Some r <-> preferred_ok now pref rt r.
Proof.
  unfold preferred_choice, preferred_ok. destruct pref as [p|].
  - destruct (truthy p && dict_mem VERTEX_AI_REGIONS p && _is_region_healthy now p rt) eqn:Hc.
    + apply andb_true_iff in Hc as [Hc Hh]. apply andb_true_iff in Hc as [_ Hm].
      split; [intros [= <-]; auto|intros ([= ->] & _); reflexivity].
    + split; [discriminate|]. intros ([= ->] & Hm & Hh).
      rewrite Hm, Hh, andb_true_r, andb_true_r in Hc.
      destruct r; [discriminate Hm|discriminate Hc].
  - split; [discriminate|]. now intros [? _].
Qed.

Lemma country_choice_spec (now : Z) (cc : option string) (rt : Router) (r : string) :
  country_choice now cc rt = Some r <-> country_ok now cc rt r.
Proof.
  unfold country_choice, country_ok. destruct cc as [c|].
  - destruct (truthy c) eqn:Hc.
    + destruct (dict_get COUNTRY_TO_REGION (upper c)) as [m|] eqn:Hm.
      * destruct (country_region_ok _ _ Hm) as [Ht _]. rewrite Ht. cbn [andb].
        destruct (_is_region_healthy now m rt) eqn:Hh.
        -- split; [intros [= <-]; eauto|]. intros (c' & [= <-] & Hm' & _). congruence.
        -- split; [discriminate|]. intros (c' & [= <-] & Hm' & Hh'). congruence.
      * split; [discriminate|]. intros (c' & [= <-] & Hm' & _). congruence.
    + destruct c; [|discriminate]. split; [discriminate|].
      intros (c' & [= <-] & Hm' & _). discriminate.
  - split; [discriminate|]. intros (c' & Hn & _). discriminate.
Qed.

Lemma ip_choice_none (now : Z) (ip : option string) (rt : Router) :
  ip_choice now ip rt = None.
Proof. unfold ip_choice. destruct ip as [a|]; [|reflexivity]. now destruct (truthy a). Qed.

Lemma healthy_regions_spec (now : Z) (rt : Router) (r : string) :
  In r (healthy_regions now rt) <-> in_catalog r /\ _is_region_healthy now r rt = true.
Proof. unfold healthy_regions, in_catalog. now rewrite filter_In. Qed.

Lemma random_choice_in (rnd : nat) (x : string) (xs : list string) :
  In (random_choice rnd x xs) (x :: xs).
Proof.
  unfold random_choice. apply nth_In. apply Nat.mod_upper_bound. discriminate.
Qed.

(** ** Region selection *)

(** C6.  Resolution order of [get_optimal_region], for every preference,
    country code, address, draw and health state.  The call returns a
    region of the catalog with its catalog entry and never raises.  The
    region is (1) the preferred region when it is in the catalog and
    healthy; otherwise (2) the region the country code maps to when that
    one is healthy; (3) the address yields no region, the detection being
    a stub; otherwise (4) the default region us-central1 when healthy;
    otherwise (5) a healthy region of the catalog when there is one;
    and, when no region of the catalog is healthy, the default region
    all the same. *)
Theorem region_resolution_order (now : Z) (rnd : nat)
    (country_code ip_address preferred_region : option string) (rt : Router) :
  exists r info,
    get_optimal_region now rnd country_code ip_address preferred_region rt = Ok (r, info)
    /\ dict_get VERTEX_AI_REGIONS r = Some info
    /\ (forall p, preferred_ok now preferred_region rt p -> r = p)
    /\ ((forall p, ~ preferred_ok now preferred_region rt p) ->
        (forall m, country_ok now country_code rt m -> r = m)
        /\ ((forall m, ~ country_ok now country_code rt m) ->
            (forall a, _detect_region_from_ip a = None)
            /\ (_is_region_healthy now default_region rt = true -> r = default_region)
            /\ (_is_region_healthy now default_region rt = false ->
                ((exists x, in_catalog x /\ _is_region_healthy now x rt = true) ->
                 in_catalog r /\ _is_region_healthy now r rt = true)
                /\ ((forall x, in_catalog x -> _is_region_healthy now x rt = false) ->
                    r = default_region)))).
Proof.
  unfold get_optimal_region.
  destruct (preferred_choice now preferred_region rt) as [p|] eqn:Hp.
  { (* rule 1 *)
    apply preferred_choice_spec in Hp. pose proof Hp as (Hpref & Hm & Hh).
    destruct (region_entry_ok p Hm) as (info & -> & Hinfo).
    exists p, info. split; [reflexivity|]. split; [exact Hinfo|]. split.
    - intros p' (Hpref' & _). congruence.
    - intros Hno. now apply Hno in Hp. }
  assert (Hnop : forall p, ~ preferred_ok now preferred_region rt p).
  { intros p Hok. apply preferred_choice_spec in Hok. congruence. }
  destruct (country_choice now country_code rt) as [m|] eqn:Hc.
  { (* rule 2 *)
    apply country_choice_spec in Hc. pose proof Hc as (c & Hcc & Hmap & Hh).
    destruct (country_region_ok _ _ Hmap) as [_ Hm].
    destruct (region_entry_ok m Hm) as (info & -> & Hinfo).
    exists m, info. split; [reflexivity|]. split; [exact Hinfo|]. split.
    - intros p Hok. now apply Hnop in Hok.
    - intros _. split.
      + intros m' (c' & Hcc' & Hmap' & _). congruence.
      + intros Hno. now apply Hno in Hc. }
  assert (Hnoc : forall m, ~ country_ok now country_code rt m).
  { intros m Hok. apply country_choice_spec in Hok. congruence. }
  rewrite ip_choice_none.
  destruct (_is_region_healthy now default_region rt) eqn:Hd.
  { (* rule 4 *)
    destruct (region_entry_ok default_region default_region_in_catalog)
      as (info & -> & Hinfo).
    exists default_region, info. split; [reflexivity|]. split; [exact Hinfo|]. split.
    - intros p Hok. now apply Hnop in Hok.
    - intros _. split; [intros m Hok; now apply Hnoc in Hok|].
      intros _. split; [reflexivity|]. split; [reflexivity|discriminate]. }
  destruct (healthy_regions now rt) as [|x xs] eqn:Hl.
  - (* no healthy region: the default all the same *)
    destruct (region_entry_ok default_region default_region_in_catalog)
      as (info & -> & Hinfo).
    exists default_region, info. split; [reflexivity|]. split; [exact Hinfo|]. split.
    + intros p Hok. now apply Hnop in Hok.
    + intros _. split; [intros m Hok; now apply Hnoc in Hok|].
      intros _. split; [reflexivity|]. split; [discriminate|]. intros _. split.
      * intros (y & Hy & Hh).
        assert (Hin : In y (healthy_regions now rt)) by now apply healthy_regions_spec.
        rewrite Hl in Hin. destruct Hin.
      * reflexivity.
  - (* rule 5 *)
    pose proof (random_choice_in rnd x xs) as Hin. rewrite <- Hl in Hin.
    apply healthy_regions_spec in Hin as [Hcat Hh].
    assert (Hm : dict_mem VERTEX_AI_REGIONS (random_choice rnd x xs) = true)
      by now apply dict_mem_keys.
    destruct (region_entry_ok _ Hm) as (info & -> & Hinfo).
    exists (random_choice rnd x xs), info.
    split; [reflexivity|]. split; [exact Hinfo|]. split.
    + intros p Hok. now apply Hnop in Hok.
    + intros _. split; [intros m Hok; now apply Hnoc in Hok|].
      intros _. split; [reflexivity|]. split; [discriminate|]. intros _. split.
      * intros _. split; assumption.
      * intros Hnone. rewrite (Hnone _ Hcat) in Hh. discriminate.
Qed.

(** ** Region health *)

Lemma mark_failure_lookup (r error : string) (rt : Router) (h : RegionHealth) :
  region_health rt !! r = Some h ->
  region_health (mark_failure r error rt) !! r
  = Some {| status := if 5 <=? failure_count h + 1 then "unhealthy" else status h;
            last_success := last_success h;
            failure_count := failure_count h + 1;
            latency_ms := latency_ms h |}.
Proof.
  intros Hh. unfold mark_failure. rewrite Hh. cbn [set_region_health region_health].
  apply lookup_insert_eq.
Qed.

(** The entry of a region after failed requests in a row. *)
Lemma mark_failures_lookup (r : string) (errors : list string) (rt : Router)
    (h : RegionHealth) :
  region_health rt !! r = Some h ->
  let n := Z.of_nat (List.length errors) in
  region_health (mark_failures r errors rt) !! r
  = Some {| status := if (0 <? n) && (5 <=? failure_count h + n)
                      then "unhealthy" else status h;
            last_success := last_success h;
            failure_count := failure_count h + n;
            latency_ms := latency_ms h |}.
Proof.
  unfold mark_failures. revert rt h.
  induction errors as [|e errors IH]; intros rt h Hh.
  - cbn. rewrite Hh, Z.add_0_r. now destruct h.
  - cbn [fold_left]. pose proof (mark_failure_lookup r e rt h Hh) as H1.
    rewrite (IH _ _ H1). cbn [status last_success failure_count latency_ms List.length].
    f_equal. rewrite Nat2Z.inj_succ.
    set (n := Z.of_nat (List.length errors)).
    assert (Hn : 0 <= n) by apply Nat2Z.is_nonneg.
    f_equal; [|lia].
    destruct (Z.ltb_spec 0 n), (Z.leb_spec 5 (failure_count h + 1 + n)),
      (Z.leb_spec 5 (failure_count h + 1)), (Z.ltb_spec 0 (Z.succ n)),
      (Z.leb_spec 5 (failure_count h + Z.succ n)); cbn [andb]; try reflexivity; lia.
Qed.

Lemma mark_success_lookup (now : Z) (r : string) (latency : Q) (rt : Router)
    (h : RegionHealth) :
  region_health rt !! r = Some h ->
  region_health (mark_success now r latency rt) !! r
  = Some {| status := "healthy"; last_success := now;
            failure_count := 0; latency_ms := latency |}.
Proof.
  intros Hh. unfold mark_success. rewrite Hh. cbn [set_region_health region_health].
  apply lookup_insert_eq.
Qed.

(** A new router tracks every region of the catalog, healthy, with no
    failure and the time of construction as last success. *)
Lemma init_tracks_catalog (now : Z) (r : string) :
  in_catalog r ->
  exists h, region_health (init now) !! r = Some h
    /\ status h = "healthy" /\ failure_count h = 0 /\ last_success h = now.
Proof.
  unfold in_catalog. cbn [List.map fst VERTEX_AI_REGIONS]. intros Hin.
  repeat (destruct Hin as [<-|Hin];
          [eexists; split; [vm_compute; reflexivity|repeat split]|]).
  destruct Hin.
Qed.

(** The marks keep every tracked region tracked. *)
Lemma mark_failure_tracks (r r' error : string) (rt : Router) :
  is_Some (region_health rt !! r') ->
  is_Some (region_health (mark_failure r error rt) !! r').
Proof.
  intros Hs. unfold mark_failure. destruct (region_health rt !! r) eqn:Hr; [|exact Hs].
  cbn [set_region_health region_health].
  destruct (decide (r = r')) as [->|Hne].
  - rewrite lookup_insert_eq. eauto.
  - now rewrite lookup_insert_ne.
Qed.

Lemma mark_success_tracks (now : Z) (r r' : string) (latency : Q) (rt : Router) :
  is_Some (region_health rt !! r') ->
  is_Some (region_health (mark_success now r latency rt) !! r').
Proof.
  intros Hs. unfold mark_success. destruct (region_health rt !! r) eqn:Hr; [|exact Hs].
  cbn [set_region_health region_health].
  destruct (decide (r = r')) as [->|Hne].
  - rewrite lookup_insert_eq. eauto.
  - now rewrite lookup_insert_ne.
Qed.

(** C7.  Failure threshold and recovery.  Take a region the router
    tracks, healthy with failure count 0.  After fewer than 5 failed
    requests in a row it is healthy exactly when its last success is at
    most 30 minutes old; after 5 (or more) it is not healthy, at any time.
    One [mark_success] then resets the entry (failure count 0, status
    healthy, the success time and the latency of the call), and the region
    is healthy again at every time up to 30 minutes after that success. *)
Theorem failure_threshold_and_recovery (rt : Router) (r : string) (h : RegionHealth)
    (errors : list string) :
  region_health rt !! r = Some h ->
  failure_count h = 0 ->
  status h = "healthy" ->
  let failed := mark_failures r errors rt in
  ((List.length errors < 5)%nat ->
   forall now, _is_region_healthy now r failed
               = negb (thirty_minutes <? now - last_success h))
  /\ ((5 <= List.length errors)%nat ->
      forall now, _is_region_healthy now r failed = false)
  /\ (forall t latency,
        let recovered := mark_success t r latency failed in
        region_health recovered !! r
        = Some {| status := "healthy"; last_success := t;
                  failure_count := 0; latency_ms := latency |}
        /\ forall now, now - t <= thirty_minutes ->
                       _is_region_healthy now r recovered = true).
Proof.
  intros Hh Hc Hs failed.
  pose proof (mark_failures_lookup r errors rt h Hh) as Hf. cbv zeta in Hf. fold failed in Hf.
  rewrite Hc, Z.add_0_l in Hf.
  split; [|split].
  - intros Hlt now. unfold _is_region_healthy. rewrite Hf.
    cbn [status last_success failure_count].
    destruct (Z.leb_spec 5 (Z.of_nat (List.length errors))) as [Hge|_]; [lia|].
    rewrite andb_false_r, Hs.
    now destruct (thirty_minutes <? now - last_success h).
  - intros Hge now. unfold _is_region_healthy. rewrite Hf. cbn [failure_count].
    destruct (Z.leb_spec 5 (Z.of_nat (List.length errors))) as [_|Hlt]; [reflexivity|lia].
  - intros t latency recovered.
    pose proof (mark_success_lookup t r latency failed _ Hf) as Hr. fold recovered in Hr.
    split; [exact Hr|].
    intros now Hrecent. unfold _is_region_healthy. rewrite Hr.
    cbn [status last_success failure_count].
    destruct (Z.ltb_spec thirty_minutes (now - t)) as [Hlate|_]; [lia|reflexivity].
Qed.

End RegionalRouter.

(** ** The router on concrete inputs *)

Section RouterRuns.
Import PyStr Eff GeminiRegionalRouter RouterExamples.

(** Singapore is routed to its region while that region is healthy, and
    to the default region once five requests to it have failed. *)
Lemma singapore_failover :
  get_optimal_region minute 0 (Some "SG") None None fresh = region_entry "asia-southeast1"
  /\ get_optimal_region minute 0 (Some "SG") None None singapore_down
     = region_entry "us-central1".
Proof. split; vm_compute; reflexivity. Qed.

Lemma region_resolution_order_witness :
  exists r info,
    get_optimal_region minute 7 (Some "sg") (Some "203.0.113.9") (Some "europe-west1") fresh
    = Ok (r, info)
    /\ r = "europe-west1".
Proof.
  destruct (region_resolution_order minute 7 (Some "sg") (Some "203.0.113.9")
              (Some "europe-west1") fresh) as (r & info & Heq & _ & Hpref & _).
  exists r, info. split; [exact Heq|].
  apply Hpref. repeat split; vm_compute; reflexivity.
Defined.

Lemma failure_threshold_and_recovery_witness :
  region_health fresh !! "asia-southeast1" = Some singapore_entry
  /\ _is_region_healthy minute "asia-southeast1" singapore_down = false
  /\ _is_region_healthy (3 * minute) "asia-southeast1"
       (mark_success (2 * minute) "asia-southeast1" (inject_Z 40) singapore_down) = true.
Proof.
  assert (Hentry : region_health fresh !! "asia-southeast1" = Some singapore_entry)
    by (vm_compute; reflexivity).
  destruct (failure_threshold_and_recovery fresh "asia-southeast1" singapore_entry
              five_errors Hentry eq_refl eq_refl) as (_ & Hdown & Hup).
  split; [exact Hentry|]. split.
  - apply Hdown. cbn. lia.
  - apply (Hup (2 * minute) (inject_Z 40)). vm_compute. intros H; discriminate H.
Defined.

End RouterRuns.

(* ================================================================== *)
(** * The live session *)

Section LiveSession.
Import PyStr Eff GeminiLiveSessionAWS.
Context {W : Type} `{WorkflowManager W}.

Lemma send_websocket_message_eval (data : WsMessage) (st : State W) :
  send_websocket_message data st
  = (Ok tt, {| self := self st; router := router st; remote_faults := remote_faults st;
               next_handle := next_handle st;
               trace := trace st ++ posted (self st) data |}).
Proof.
  unfold send_websocket_message, bind, get_self, posted, websocket_target.
  destruct st as [s rt fs n tr]; cbn [self router remote_faults next_handle trace].
  destruct (websocket_connection_id s) as [cid|]; cbn.
  - destruct (apigw_client s), (truthy cid); cbn; unfold ret, emit; cbn;
      rewrite ?app_nil_r; reflexivity.
  - unfold ret. now rewrite app_nil_r.
Qed.

(** ** The timeout budget *)

(** C8, as the code has it.  A new session has a ceiling of 840 seconds,
    a minute short of 15 minutes.  Once the time since the session was
    created exceeds the ceiling of the session,
    [check_and_transition_parts] returns [False] and changes nothing of
    the session: no model switch, no part transition (the workflow
    manager is not consulted or updated), no close (the handle and
    [is_connected] stay), no call of the remote service or the router.
    Its one effect is the [timeout_warning] message, posted to the
    WebSocket connection when the session has an API Gateway client and a
    connection id; a session without them gets no warning. *)
Theorem timeout_refuses_part_transition (now : Z) (st : State W) :
  lambda_timeout_warning_seconds (self st) * 1000000 < now - start_time (self st) ->
  check_and_transition_parts now st
  = (Ok false,
     {| self := self st; router := router st; remote_faults := remote_faults st;
        next_handle := next_handle st;
        trace := trace st
                 ++ posted (self st)
                      (timeout_warning "Assessment will end soon due to time limit") |})
  /\ (forall created model_name instruction (wm : W) text_callback connection_id
             region_name with_router_ref apigw_endpoint,
        lambda_timeout_warning_seconds
          (new_session created model_name instruction wm text_callback connection_id
             region_name with_router_ref apigw_endpoint) = 840)
  /\ 840 < 15 * 60.
Proof.
  intros Hlate. split; [|split; [reflexivity|lia]].
  unfold check_and_transition_parts, bind, get_self. cbn [fst snd].
  unfold _check_lambda_timeout.
  destruct (Z.ltb_spec (lambda_timeout_warning_seconds (self st) * 1000000)
                       (now - start_time (self st))) as [_|Hle]; [|lia].
  rewrite send_websocket_message_eval. reflexivity.
Qed.

(** ** Closing *)

(** [close] on a session that holds no remote handle. *)
Lemma close_unopened (now : Z) (st : State W) :
  session (self st) = None ->
  close now st
  = (Ok tt, {| self := set_is_connected false (self st); router := router st;
               remote_faults := remote_faults st; next_handle := next_handle st;
               trace := trace st |}).
Proof.
  intros Hs. unfold close, bind, get_self. cbn [fst snd]. rewrite Hs.
  unfold ret. destruct st; reflexivity.
Qed.

(** [close] on a session that holds the handle [h]: it raises when the
    summary has no cost breakdown or the remote close fails, and otherwise
    reports, posts, cancels and closes. *)
Lemma close_open (now : Z) (st : State W) (h : nat) :
  session (self st) = Some h ->
  match cost_breakdown_total (get_assessment_summary (workflow_manager (self st))),
        remote_faults st with
  | None, _ => fst (close now st) = Raise (KeyError "cost_breakdown")
  | Some _, true :: _ => fst (close now st) = Raise RemoteError
  | Some _, fs =>
      close now st
      = (Ok tt, {| self := set_is_connected false (self st);
                   router := close_report now (self st) (router st);
                   remote_faults := tl fs;
                   next_handle := next_handle st;
                   trace := trace st ++ close_events (self st) h |})
  end.
Proof.
  intros Hs. unfold close, bind, get_self. cbn [fst snd]. rewrite Hs.
  destruct st as [s rt fs n tr]; cbn [self router remote_faults next_handle trace] in *.
  set (summary := get_assessment_summary (workflow_manager s)).
  assert (Hrep : exists rt',
             (if regional_router s
              then match region s with
                   | Some r => if truthy r
                               then with_router (GeminiRegionalRouter.mark_success now r
                                                   (estimated_latency summary))
                               else ret tt
                   | None => ret tt
                   end
              else ret tt)
               {| self := s; router := rt; remote_faults := fs; next_handle := n; trace := tr |}
             = (Ok tt, {| self := s; router := rt'; remote_faults := fs;
                          next_handle := n; trace := tr |})
             /\ rt' = close_report now s rt).
  { unfold close_report. fold summary. destruct (regional_router s); cbn.
    - destruct (region s) as [r|]; cbn; [|eexists; split; reflexivity].
      destruct (truthy r); eexists; split; reflexivity.
    - eexists; split; reflexivity. }
  destruct Hrep as (rt' & -> & ->).
  destruct (cost_breakdown_total summary) as [c|]; [|reflexivity].
  cbn [ret]. rewrite send_websocket_message_eval.
  cbn [self router remote_faults next_handle trace].
  unfold close_events. fold summary.
  destruct (response_task s); cbn [emit ret self router remote_faults next_handle trace];
    unfold remote_call; cbn [self router remote_faults next_handle trace];
    destruct fs as [|[] fs]; cbn; rewrite <- ?app_assoc; reflexivity.
Qed.

(** C9, as the code has it.  [close] never clears the remote handle.
    After a close that completed, [is_connected] is [False] and the handle
    is the one from before.  A second close is a no-op only for a session
    that never had a handle.  For a session with a handle the second call
    does all of it again: the health report to the router (with the new
    time), the [assessment_complete] message, the cancellation of the
    response task and the close of the remote session, and it raises when
    that remote close fails. *)
Theorem close_twice (now now' : Z) (st : State W) :
  fst (close now st) = Ok tt ->
  let st1 := snd (close now st) in
  is_connected (self st1) = false
  /\ session (self st1) = session (self st)
  /\ match session (self st) with
     | None => st1 = snd (close now' st1) /\ fst (close now' st1) = Ok tt
     | Some h =>
         trace st1 = (trace st ++ close_events (self st) h)%list
         /\ router st1 = close_report now (self st) (router st)
         /\ match remote_faults st1 with
            | true :: _ => fst (close now' st1) = Raise RemoteError
            | fs =>
                close now' st1
                = (Ok tt, {| self := self st1;
                             router := close_report now' (self st) (router st1);
                             remote_faults := tl fs;
                             next_handle := next_handle st1;
                             trace := trace st1 ++ close_events (self st) h |})
            end
     end.
Proof.
  intros Hok st1. subst st1.
  destruct (session (self st)) as [h|] eqn:Hs.
  - pose proof (close_open now st h Hs) as Hfirst.
    destruct (cost_breakdown_total (get_assessment_summary (workflow_manager (self st))))
      as [c|] eqn:Hc; [|congruence].
    assert (Hst1 : close now st
                   = (Ok tt, {| self := set_is_connected false (self st);
                                router := close_report now (self st) (router st);
                                remote_faults := tl (remote_faults st);
                                next_handle := next_handle st;
                                trace := trace st ++ close_events (self st) h |})).
    { destruct (remote_faults st) as [|[] fs]; [exact Hfirst|congruence|exact Hfirst]. }
    rewrite Hst1. cbn [fst snd self router remote_faults next_handle trace].
    split; [reflexivity|]. split; [exact Hs|]. split; [reflexivity|]. split; [reflexivity|].
    set (st1 := {| self := set_is_connected false (self st);
                   router := close_report now (self st) (router st);
                   remote_faults := tl (remote_faults st);
                   next_handle := next_handle st;
                   trace := trace st ++ close_events (self st) h |}).
    assert (Hs1 : session (self st1) = Some h) by exact Hs.
    pose proof (close_open now' st1 h Hs1) as Hsecond.
    cbn [st1 self workflow_manager set_is_connected] in Hsecond. rewrite Hc in Hsecond.
    cbn [remote_faults router next_handle trace] in Hsecond.
    destruct (tl (remote_faults st)) as [|[] fs]; exact Hsecond.
  - rewrite (close_unopened now st Hs). cbn [fst snd self].
    split; [reflexivity|]. split; [exact Hs|].
    rewrite close_unopened by exact Hs. cbn [fst snd]. split; reflexivity.
Qed.

End LiveSession.

(** ** The session on concrete inputs *)

Section SessionRuns.
Import PyStr Eff GeminiLiveSessionAWS IELTSWorkflowManager SessionExamples.

(** Ten seconds in, with the exchanges of part 1 done, the check moves
    the session to part 2: it closes the remote session, opens another and
    announces the switch and the transition. *)
Lemma part_transition_before_timeout :
  let r := check_and_transition_parts (10 * second) websocket_session in
  fst r = Ok true
  /\ current_part (workflow_manager (self (snd r))) = 2
  /\ session (self (snd r)) = Some 1%nat
  /\ new_events websocket_session (snd r)
     = [ RemoteClose 0;
         RemoteConnect "gemini-2.5-flash-lite" "IELTS Speaking Part 2" 1;
         PostToConnection "conn-1" (model_switched "gemini-2.5-flash-lite");
         PostToConnection "conn-1" (part_transition 2 "gemini-2.5-flash-lite") ].
Proof. vm_compute. repeat split; reflexivity. Qed.

Lemma timeout_refuses_part_transition_witness :
  lambda_timeout_warning_seconds (self websocket_session) * 1000000
    < 841 * second - start_time (self websocket_session)
  /\ fst (check_and_transition_parts (841 * second) websocket_session) = Ok false
  /\ new_events websocket_session
       (snd (check_and_transition_parts (841 * second) websocket_session))
     = [ PostToConnection "conn-1"
           (timeout_warning "Assessment will end soon due to time limit") ].
Proof.
  assert (Hlate : lambda_timeout_warning_seconds (self websocket_session) * 1000000
                  < 841 * second - start_time (self websocket_session))
    by (vm_compute; reflexivity).
  split; [exact Hlate|].
  rewrite (proj1 (timeout_refuses_part_transition (841 * second) websocket_session Hlate)).
  split; vm_compute; reflexivity.
Defined.

(** C8, the claim as stated fails.  A connected session that was given a
    text callback and no WebSocket connection is 841 seconds old: the
    check returns [False] and nothing is emitted, no warning reaches the
    caller. *)
Lemma timeout_without_websocket_is_silent :
  is_connected (self callback_session) = true
  /\ on_text_response (self callback_session) = true
  /\ _check_lambda_timeout (841 * second) (self callback_session) = true
  /\ check_and_transition_parts (841 * second) callback_session
     = (Ok false, callback_session)
  /\ new_events callback_session
       (snd (check_and_transition_parts (841 * second) callback_session)) = [].
Proof. vm_compute. repeat split; reflexivity. Qed.

(** A session that never connected: closing it changes nothing, once or
    twice. *)
Lemma close_unopened_session :
  close (5 * second) unopened_session = (Ok tt, unopened_session)
  /\ close (6 * second) (snd (close (5 * second) unopened_session))
     = (Ok tt, unopened_session).
Proof. split; vm_compute; reflexivity. Qed.

Lemma close_twice_witness :
  fst (close (600 * second) websocket_session) = Ok tt
  /\ is_connected (self (snd (close (600 * second) websocket_session))) = false
  /\ session (self (snd (close (600 * second) websocket_session))) = Some 0%nat.
Proof.
  assert (Hok : fst (close (600 * second) websocket_session) = Ok tt)
    by (vm_compute; reflexivity).
  split; [exact Hok|].
  destruct (close_twice (600 * second) (601 * second) websocket_session Hok)
    as (Hconn & Hsess & _).
  split; [exact Hconn|]. rewrite Hsess. vm_compute. reflexivity.
Defined.

(** C9, the claim as stated fails.  A connected session with a WebSocket
    connection and the router is closed at 600 seconds, and the close
    completes.  Closed again a second later, it posts
    [assessment_complete] again, cancels the task again, closes the remote
    session again and reports the region to the router again, whose last
    success moves to the time of the second call. *)
Lemma second_close_repeats :
  let first := close (600 * second) websocket_session in
  let again := close (601 * second) (snd first) in
  fst first = Ok tt
  /\ fst again = Ok tt
  /\ new_events (snd first) (snd again)
     = [ PostToConnection "conn-1" (assessment_complete (summary (in_part1 4)));
         CancelTask;
         RemoteClose 0 ]
  /\ GeminiRegionalRouter.last_success
       <$> GeminiRegionalRouter.region_health (router (snd first)) !! "us-central1"
     = Some (600 * second)
  /\ GeminiRegionalRouter.last_success
       <$> GeminiRegionalRouter.region_health (router (snd again)) !! "us-central1"
     = Some (601 * second).
Proof. vm_compute. repeat split; reflexivity. Qed.

End SessionRuns.

(* ================================================================== *)
(** * More on the entitlement ledger *)

Section LedgerComposition.
Import PyStr Eff EntitlementDAL.
Context `{JsonDumps}.

(** ** Counting units *)

Lemma sum_remaining_cons (x : Entitlement) (l : list Entitlement) :
  sum_remaining (x :: l) = assessments_remaining x + sum_remaining l.
Proof. reflexivity. Qed.

(** What one item adds to the units of a user and a module type. *)
Lemma user_units_cons (uid module_type : string) (x : Entitlement) (t : list Entitlement) :
  user_units uid module_type (x :: t)
  = (if String.eqb (user_id x) uid && matches module_type x
     then assessments_remaining x else 0)
    + user_units uid module_type t.
Proof.
  unfold user_units, by_user. cbn [List.filter].
  destruct (String.eqb (user_id x) uid); cbn [andb List.filter]; cbv iota; [|lia].
  destruct (matches module_type x); rewrite ?sum_remaining_cons; lia.
Qed.

Lemma user_units_nil (uid module_type : string) : user_units uid module_type [] = 0.
Proof. reflexivity. Qed.

Lemma user_units_insert_sorted (uid module_type : string) (e : Entitlement)
    (t : list Entitlement) :
  user_units uid module_type (insert_sorted e t)
  = user_units uid module_type (e :: t).
Proof.
  induction t as [|y t IH]; cbn [insert_sorted]; [reflexivity|].
  destruct (key_compare e y); try reflexivity.
  rewrite user_units_cons, IH, !user_units_cons. lia.
Qed.

Lemma user_units_nonneg (uid module_type : string) (t : list Entitlement) :
  Forall units_ok t -> 0 <= user_units uid module_type t.
Proof.
  induction 1 as [|x t Hx _ IH]; [rewrite user_units_nil; lia|].
  rewrite user_units_cons. destruct Hx as (Hr & _).
  destruct (String.eqb (user_id x) uid && matches module_type x); lia.
Qed.

(** The units are positive exactly when some entitlement can be consumed. *)
Lemma user_units_pos (uid module_type : string) (t : list Entitlement) :
  Forall units_ok t ->
  (0 < user_units uid module_type t
   <-> exists ent, In ent (by_user uid t) /\ consumable module_type ent = true).
Proof.
  induction 1 as [|x t Hx Hall IH].
  - rewrite user_units_nil. split; [lia|]. intros (ent & [] & _).
  - rewrite user_units_cons. pose proof (user_units_nonneg uid module_type t Hall) as Hn.
    destruct Hx as (Hr & _). unfold by_user in *. cbn [List.filter].
    destruct (String.eqb (user_id x) uid) eqn:Hu; cbn [andb].
    + unfold consumable at 1.
      destruct (matches module_type x) eqn:Hm.
      * split.
        -- intros Hpos. destruct (Z.ltb_spec 0 (assessments_remaining x)) as [Hx|Hx].
           ++ exists x. split; [now left|]. unfold consumable. rewrite Hm.
              now apply Z.ltb_lt.
           ++ assert (Ht : 0 < user_units uid module_type t) by lia.
              apply IH in Ht as (ent & Hin & Hc). exists ent. split; [now right|exact Hc].
        -- intros (ent & [<-|Hin] & Hc).
           ++ unfold consumable in Hc. apply andb_true_iff in Hc as [_ Hc].
              apply Z.ltb_lt in Hc. lia.
           ++ assert (0 < user_units uid module_type t) by (apply IH; eauto). lia.
      * rewrite Z.add_0_l, IH. split.
        -- intros (ent & Hin & Hc). exists ent. split; [now right|exact Hc].
        -- intros (ent & [<-|Hin] & Hc); [|eauto].
           unfold consumable in Hc. rewrite Hm in Hc. discriminate.
    + rewrite Z.add_0_l. exact IH.
Qed.

Lemma user_units_put (uid module_type : string) (e : Entitlement) (t : list Entitlement) :
  user_units uid module_type (put e t)
  = (if String.eqb (user_id e) uid && matches module_type e
     then assessments_remaining e else 0)
    + user_units uid module_type (without_product (user_id e) (product_id e) t).
Proof.
  unfold put. rewrite user_units_insert_sorted, user_units_cons. f_equal. f_equal.
  unfold without_product. apply filter_ext. intros x. unfold same_key.
  now rewrite (String.eqb_sym (user_id e)), (String.eqb_sym (product_id e)).
Qed.

Lemma without_product_absent (uid pid : string) (t : list Entitlement) :
  (forall x, In x t -> user_id x = uid -> product_id x <> pid) ->
  without_product uid pid t = t.
Proof.
  intros Hno. unfold without_product. induction t as [|x t IH]; [reflexivity|].
  cbn [List.filter].
  destruct (String.eqb_spec (user_id x) uid) as [Hu|Hu]; cbn [andb negb].
  - destruct (String.eqb_spec (product_id x) pid) as [Hp|Hp]; cbn [negb].
    + exfalso. apply (Hno x); auto. now left.
    + f_equal. apply IH. intros y Hy. apply Hno. now right.
  - f_equal. apply IH. intros y Hy. apply Hno. now right.
Qed.

(** Replacing the item of a key changes the units by what the old and the
    new item count. *)
Lemma user_units_replace_item (uid module_type : string) (ent ent' : Entitlement)
    (t : list Entitlement) :
  keys_unique t -> In ent t ->
  user_units uid module_type (replace_item ent ent' t)
  = user_units uid module_type t
    - (if String.eqb (user_id ent) uid && matches module_type ent
       then assessments_remaining ent else 0)
    + (if String.eqb (user_id ent') uid && matches module_type ent'
       then assessments_remaining ent' else 0).
Proof.
  unfold replace_item. induction t as [|x t IH]; [intros _ []|].
  intros [Hx Hu] Hin. cbn [List.map]. rewrite !user_units_cons.
  destruct Hin as [->|Hin].
  - rewrite same_key_refl.
    assert (Hid : List.map (fun e => if same_key e ent then ent' else e) t = t).
    { rewrite <- (map_id t) at 2. apply map_ext_in. intros y Hy.
      rewrite same_key_sym, (Hx y Hy). reflexivity. }
    rewrite Hid. lia.
  - rewrite (Hx ent Hin), (IH Hu Hin). lia.
Qed.

Lemma consume_loop_none (now : Z) (uid module_type assessment_id : string)
    (l : list Entitlement) (s : Store) :
  (forall x, In x l -> consumable module_type x = false) ->
  consume_loop now uid module_type assessment_id l s = (Ok false, s).
Proof.
  induction l as [|y l IH]; intros Hno; [reflexivity|].
  cbn [consume_loop]. rewrite (Hno y) by now left.
  apply IH. intros x Hx. apply Hno. now right.
Qed.

(** In a table in key order, the first entitlement of the user that can
    be consumed is the one with the least product id. *)
Lemma first_consumable_exists (uid module_type : string) (t : list Entitlement) :
  sorted t ->
  (exists ent, In ent (by_user uid t) /\ consumable module_type ent = true) ->
  exists ent, first_consumable uid module_type t ent.
Proof.
  unfold first_consumable, by_user.
  induction 1 as [|y t Ht IH Hy]; [intros (ent & [] & _)|].
  intros (ent & Hin & Hc). rewrite Forall_forall in Hy.
  destruct (String.eqb (user_id y) uid && consumable module_type y) eqn:Hyc.
  - apply andb_true_iff in Hyc as [Hu Hcy]. apply String.eqb_eq in Hu.
    exists y. split; [now left|]. split; [exact Hu|]. split; [exact Hcy|].
    intros x [<-|Hx] Hux _; [now left|right].
    pose proof (Hy x Hx) as Hlt. apply key_lt_iff in Hlt as [Hlt|[_ Hlt]]; [|exact Hlt].
    rewrite Hu, Hux in Hlt. now apply string_lt_irrefl in Hlt.
  - assert (Hin' : In ent (List.filter (fun e => String.eqb (user_id e) uid) t)).
    { cbn [List.filter] in Hin. destruct (String.eqb (user_id y) uid) eqn:Hu; [|exact Hin].
      destruct Hin as [<-|Hin]; [|exact Hin]. cbn [andb] in Hyc. congruence. }
    destruct (IH (ex_intro _ ent (conj Hin' Hc))) as (e0 & Hin0 & Hu0 & Hc0 & Hmin).
    exists e0. split; [now right|]. split; [exact Hu0|]. split; [exact Hc0|].
    intros x [<-|Hx] Hux Hcx; [|now apply Hmin].
    apply String.eqb_eq in Hux. rewrite Hux, Hcx in Hyc. discriminate.
Qed.

(** ** Access checks *)

(** X1.  With a table that answers, [check_entitlement] leaves the store
    as it is and reports the number of matching active entitlements of
    the user, those entitlements in product order, and the sum of their
    units; on a table whose items have units that are not negative,
    [has_access] holds exactly when one of the user's entitlements can be
    consumed for the module type. *)
Theorem check_entitlement_counts (s : Store) (uid module_type : string) :
  faults s = [] ->
  Forall units_ok (items s) ->
  snd (check_entitlement uid module_type s) = s
  /\ exists access,
       fst (check_entitlement uid module_type s) = Ok access
       /\ products access = List.filter (matches module_type) (by_user uid (items s))
       /\ total_products access = Z.of_nat (List.length (products access))
       /\ total_remaining access = sum_remaining (products access)
       /\ (has_access access = true
           <-> exists ent, In ent (by_user uid (items s))
                 /\ consumable module_type ent = true).
Proof.
  intros Hf Hok. rewrite (check_entitlement_ok uid module_type s Hf).
  split; [reflexivity|]. eexists. split; [reflexivity|].
  cbn [products total_products total_remaining has_access].
  repeat split; try reflexivity.
  - intros Ha. apply Z.ltb_lt in Ha. now apply (user_units_pos uid module_type (items s) Hok).
  - intros Hex. apply Z.ltb_lt. now apply (user_units_pos uid module_type (items s) Hok).
Qed.

(** X2.  A grant followed by an access check, on a table that answers.
    After the grant of a new transaction id the units of the user for a
    module type are those of the user's entitlements for the other
    products, plus 2 when the lower-cased product id contains the module
    type: units left from an earlier purchase of the same product are not
    carried over.  When the product matches, the check reports access. *)
Theorem grant_then_check (s : Store) (now : Z) (uid pid tid plat module_type : string)
    (receipt : option Receipt) :
  faults s = [] ->
  table_ok (items s) ->
  strip tid <> EmptyString ->
  by_transaction tid (items s) = [] ->
  let granted := grant_entitlement now uid pid tid plat receipt s in
  let others := user_units uid module_type (without_product uid pid (items s)) in
  fst granted = Ok true
  /\ user_units uid module_type (items (snd granted))
     = (if contains module_type (lower pid) then 2 else 0) + others
  /\ ((forall x, In x (items s) -> user_id x = uid -> product_id x <> pid) ->
      others = user_units uid module_type (items s))
  /\ (contains module_type (lower pid) = true ->
      exists access,
        fst (check_entitlement uid module_type (snd granted)) = Ok access
        /\ has_access access = true
        /\ total_remaining access = 2 + others).
Proof.
  intros Hf [Hs Hok] Hnb Hnew granted others. subst granted.
  rewrite grant_entitlement_ok by exact Hf.
  destruct (negb (truthy tid) || negb (truthy (strip tid))) eqn:Hb.
  { apply blank_iff in Hb. contradiction. }
  rewrite Hnew. cbn [fst snd items].
  set (e := entitlement_data now uid pid tid plat receipt).
  assert (Hunits : user_units uid module_type (put e (items s))
                   = (if contains module_type (lower pid) then 2 else 0) + others).
  { rewrite user_units_put. unfold matches. subst e. unfold entitlement_data.
    cbn [user_id product_id status assessments_remaining].
    rewrite String.eqb_refl, product_assessments_two.
    change (String.eqb "active" "active") with true. cbn [andb]. reflexivity. }
  split; [reflexivity|]. split; [exact Hunits|]. split.
  - intros Hno. unfold others. now rewrite without_product_absent.
  - intros Hc. rewrite Hc in Hunits.
    rewrite check_entitlement_ok by reflexivity. eexists. split; [reflexivity|].
    cbn [has_access total_remaining items].
    fold (user_units uid module_type (put e (items s))). rewrite Hunits. split; [|reflexivity].
    apply Z.ltb_lt.
    assert (0 <= others); [|lia].
    apply user_units_nonneg. unfold without_product.
    rewrite Forall_forall in *. intros x Hx. apply filter_In in Hx. now apply Hok.
Qed.

(** X3.  A consumption and the access check agree, on a well-formed
    table that answers.  When the units of the user for the module type
    are positive, [consume_assessment] returns [True] and the units are
    one less afterwards, on a table that is well formed again; when they
    are 0 it returns [False] and changes nothing. *)
Theorem consume_matches_access (s : Store) (now : Z)
    (uid module_type assessment_id : string) :
  faults s = [] ->
  table_ok (items s) ->
  let consumed := consume_assessment now uid module_type assessment_id s in
  0 <= user_units uid module_type (items s)
  /\ (0 < user_units uid module_type (items s) ->
      fst consumed = Ok true
      /\ faults (snd consumed) = []
      /\ table_ok (items (snd consumed))
      /\ user_units uid module_type (items (snd consumed))
         = user_units uid module_type (items s) - 1)
  /\ (user_units uid module_type (items s) = 0 -> consumed = (Ok false, s)).
Proof.
  intros Hf Hok consumed. pose proof Hok as [Hs Hall].
  split; [now apply user_units_nonneg|]. split.
  - intros Hpos. apply (user_units_pos uid module_type (items s) Hall) in Hpos.
    destruct (first_consumable_exists uid module_type (items s) Hs Hpos) as (ent & Hfc).
    pose proof (consume_assessment_first now uid module_type assessment_id ent s Hf Hs Hfc)
      as Heq.
    pose proof (run_op_step (Consume now uid module_type assessment_id) s Hok) as [Hok' _].
    cbn [run_op] in Hok'. fold consumed in Heq, Hok'.
    destruct Hfc as (Hin & Huid & Hc & _).
    split; [now rewrite Heq|]. split; [now rewrite Heq|]. split; [exact Hok'|].
    rewrite Heq. cbn [snd items].
    rewrite user_units_replace_item by auto using sorted_keys_unique.
    unfold consumable in Hc. apply andb_true_iff in Hc as [Hm Hr]. apply Z.ltb_lt in Hr.
    cbn [decremented set_consumption user_id]. rewrite Huid, String.eqb_refl, Hm.
    cbn [andb]. unfold matches in *. unfold decremented.
    cbn [set_consumption status product_id assessments_remaining].
    apply andb_true_iff in Hm as [_ Hm]. rewrite Hm, andb_true_r.
    destruct (Z.ltb_spec 0 (assessments_remaining ent - 1)); cbn; lia.
  - intros Hzero. subst consumed.
    unfold consume_assessment, try_except, bind, query_user.
    rewrite table_call_ok by exact Hf. cbn [fst snd].
    rewrite consume_loop_none; [now rewrite store_eta|].
    intros x Hx. destruct (consumable module_type x) eqn:Hc; [|reflexivity].
    assert (0 < user_units uid module_type (items s)); [|lia].
    apply (user_units_pos uid module_type (items s) Hall). eauto.
Qed.

(** ** Users apart *)

Lemma by_user_put_other (u : string) (e : Entitlement) (t : list Entitlement) :
  user_id e <> u -> by_user u (put e t) = by_user u t.
Proof.
  intros Hne. unfold put, by_user.
  assert (He : String.eqb (user_id e) u = false) by now apply String.eqb_neq.
  transitivity (List.filter (fun x => String.eqb (user_id x) u)
                  (List.filter (fun x => negb (same_key e x)) t)).
  - generalize (List.filter (fun x => negb (same_key e x)) t). intros l.
    induction l as [|y l IH]; cbn [insert_sorted List.filter]; [now rewrite He|].
    destruct (key_compare e y); cbn [List.filter]; rewrite ?He, ?IH; reflexivity.
  - induction t as [|y t IH]; [reflexivity|]. cbn [List.filter].
    destruct (same_key e y) eqn:Hk; cbn [negb List.filter]; rewrite IH; [|reflexivity].
    apply same_key_iff in Hk as [Hu _].
    assert (Hy : String.eqb (user_id y) u = false) by (apply String.eqb_neq; congruence).
    now rewrite Hy.
Qed.

Lemma by_user_map_consumption_other (u uid assessment_id : string) (now : Z)
    (ent : Entitlement) (t : list Entitlement) :
  uid <> u ->
  by_user u (List.map (consumption_of now uid assessment_id ent) t) = by_user u t.
Proof.
  intros Hne. unfold by_user. induction t as [|y t IH]; [reflexivity|].
  cbn [List.map List.filter]. rewrite IH. unfold consumption_of.
  destruct (String.eqb_spec (user_id y) uid) as [Hu|Hu]; cbn [andb]; [|reflexivity].
  assert (Hy : String.eqb (user_id y) u = false) by (apply String.eqb_neq; congruence).
  destruct (String.eqb (product_id y) (product_id ent));
    cbn [set_consumption user_id]; now rewrite Hy.
Qed.

Lemma run_op_other_user (op : LedgerOp) (s : Store) (u : string) :
  op_user op <> u -> by_user u (items (run_op op s)) = by_user u (items s).
Proof.
  destruct op as [now uid pid tid plat receipt|now uid module_type assessment_id];
    cbn [op_user run_op]; intros Hne.
  - destruct (grant_entitlement_items now uid pid tid plat receipt s) as [-> | ->];
      [reflexivity|]. now apply by_user_put_other.
  - destruct (consume_assessment_items now uid module_type assessment_id s)
      as [-> | (ent & _ & _ & _ & ->)]; [reflexivity|].
    now apply by_user_map_consumption_other.
Qed.

(** X4.  Users are kept apart.  Whatever grants and consumptions are run
    for other users, and whether or not table calls fail, the
    entitlements the table holds for a user stay the same, and so do the
    units counted for that user. *)
Theorem other_users_untouched (ops : list LedgerOp) (s : Store) (u : string) :
  Forall (fun op => op_user op <> u) ops ->
  by_user u (items (run_ops ops s)) = by_user u (items s)
  /\ forall module_type,
       user_units u module_type (items (run_ops ops s))
       = user_units u module_type (items s).
Proof.
  intros Hall.
  assert (Heq : by_user u (items (run_ops ops s)) = by_user u (items s)).
  { revert s. induction Hall as [|op ops Hop _ IH]; intros s; [reflexivity|].
    cbn [run_ops fold_left]. fold (run_ops ops (run_op op s)).
    rewrite IH. now apply run_op_other_user. }
  split; [exact Heq|]. intros module_type. unfold user_units. now rewrite Heq.
Qed.

(** ** Transactions *)

Lemma get_user_entitlements_ok (uid : string) (s : Store) :
  faults s = [] -> get_user_entitlements uid s = (Ok (by_user uid (items s)), s).
Proof.
  intros Hf. unfold get_user_entitlements, try_except, query_user.
  rewrite table_call_ok by exact Hf. cbn [fst snd]. now rewrite store_eta.
Qed.

(** X5.  A grant can be looked up, on a table that answers.  After the
    grant of a new, non-blank transaction id, the lookup by that
    transaction id returns the entitlement just built, and the
    entitlements of the user include it. *)
Theorem grant_then_lookup (s : Store) (now : Z) (uid pid tid plat : string)
    (receipt : option Receipt) :
  faults s = [] ->
  strip tid <> EmptyString ->
  by_transaction tid (items s) = [] ->
  let s' := snd (grant_entitlement now uid pid tid plat receipt s) in
  let e := entitlement_data now uid pid tid plat receipt in
  get_entitlement_by_transaction tid s' = (Ok (Some e), s')
  /\ exists l, get_user_entitlements uid s' = (Ok l, s') /\ In e l.
Proof.
  intros Hf Hnb Hnew s' e. subst s'.
  rewrite grant_entitlement_ok by exact Hf.
  destruct (negb (truthy tid) || negb (truthy (strip tid))) eqn:Hb.
  { apply blank_iff in Hb. contradiction. }
  rewrite Hnew. cbn [snd]. split.
  - rewrite get_entitlement_by_transaction_ok by reflexivity. cbn [items].
    change tid with (transaction_id e) at 1.
    rewrite by_transaction_put by exact Hnew. reflexivity.
  - rewrite get_user_entitlements_ok by reflexivity. eexists. split; [reflexivity|].
    cbn [items]. unfold by_user. apply filter_In. split.
    + apply in_put. now left.
    + apply String.eqb_refl.
Qed.

(** X6.  A grant forgets the purchase it replaces.  On a table in key
    order that answers, let the user hold an item for the product, the
    only item with its transaction id.  After the grant of a new
    transaction id for the same user and product, the lookup by the old
    transaction id finds nothing, and a grant with the old transaction id
    (when it is not blank) is accepted again. *)
Theorem regrant_forgets_transaction (s : Store) (now now' : Z)
    (uid pid tid plat plat' : string) (receipt receipt' : option Receipt)
    (old : Entitlement) :
  faults s = [] ->
  strip tid <> EmptyString ->
  by_transaction tid (items s) = [] ->
  In old (items s) ->
  user_id old = uid ->
  product_id old = pid ->
  by_transaction (transaction_id old) (items s) = [old] ->
  let s' := snd (grant_entitlement now uid pid tid plat receipt s) in
  get_entitlement_by_transaction (transaction_id old) s' = (Ok None, s')
  /\ (strip (transaction_id old) <> EmptyString ->
      fst (grant_entitlement now' uid pid (transaction_id old) plat' receipt' s') = Ok true).
Proof.
  intros Hf Hnb Hnew Hin Hu Hp Hold s'. subst s'.
  rewrite grant_entitlement_ok by exact Hf.
  destruct (negb (truthy tid) || negb (truthy (strip tid))) eqn:Hb.
  { apply blank_iff in Hb. contradiction. }
  rewrite Hnew. cbn [snd].
  set (e := entitlement_data now uid pid tid plat receipt).
  assert (Hne : transaction_id old <> tid).
  { intros Heq. apply (proj1 (by_transaction_nil tid (items s)) Hnew old Hin Heq). }
  assert (Hgone : by_transaction (transaction_id old) (put e (items s)) = []).
  { apply by_transaction_nil. intros x Hx Hxt. apply in_put in Hx as [->|[Hx Hk]].
    - apply Hne. now rewrite <- Hxt.
    - assert (Hxo : In x (by_transaction (transaction_id old) (items s))).
      { unfold by_transaction. apply filter_In. split; [exact Hx|]. now apply String.eqb_eq. }
      rewrite Hold in Hxo. destruct Hxo as [<-|[]].
      unfold same_key in Hk. cbn [e entitlement_data user_id product_id] in Hk.
      now rewrite Hu, Hp, !String.eqb_refl in Hk. }
  split.
  - rewrite get_entitlement_by_transaction_ok by reflexivity. cbn [items].
    now rewrite Hgone.
  - intros Hnb'. rewrite grant_entitlement_ok by reflexivity. cbn [items].
    destruct (negb (truthy (transaction_id old)) || negb (truthy (strip (transaction_id old))))
      eqn:Hb'.
    { apply blank_iff in Hb'. contradiction. }
    now rewrite Hgone.
Qed.

(** X7.  A failed duplicate lookup lets the grant through.  When the
    query of the transaction index raises and the [put_item] after it
    does not, [get_entitlement_by_transaction] answers [None] and
    [grant_entitlement] stores the entitlement and returns [True],
    whether or not the transaction id is already in the table. *)
Theorem failed_lookup_grants (s : Store) (fs : list bool) (now : Z)
    (uid pid tid plat : string) (receipt : option Receipt) :
  faults s = true :: fs ->
  hd false fs = false ->
  strip tid <> EmptyString ->
  get_entitlement_by_transaction tid s = (Ok None, {| items := items s; faults := fs |})
  /\ grant_entitlement now uid pid tid plat receipt s
     = (Ok true,
        {| items := put (entitlement_data now uid pid tid plat receipt) (items s);
           faults := tl fs |}).
Proof.
  intros Hf Hhd Hnb.
  assert (Hget : get_entitlement_by_transaction tid s
                 = (Ok None, {| items := items s; faults := fs |})).
  { unfold get_entitlement_by_transaction, try_except, bind, query_transaction_index.
    now rewrite (table_call_raise _ s fs). }
  split; [exact Hget|].
  unfold grant_entitlement, try_except.
  destruct (negb (truthy tid) || negb (truthy (strip tid))) eqn:Hb.
  { apply blank_iff in Hb. contradiction. }
  unfold bind. rewrite Hget. unfold put_item.
  destruct (table_call_cases
              (fun t => (tt, put (entitlement_data now uid pid tid plat receipt) t))
              {| items := items s; faults := fs |}) as [(fs' & Hfs & _)|[_ ->]].
  - cbn [faults] in Hfs. rewrite Hfs in Hhd. discriminate.
  - reflexivity.
Qed.

End LedgerComposition.

(** ** The compositions on concrete inputs *)

Section LedgerCompositionRuns.
Import PyStr Eff EntitlementDAL LedgerExamples.
#[local] Existing Instance render_flat.

Lemma empty_table_ok : table_ok (items empty_store).
Proof. split; constructor. Qed.

Lemma two_purchases_ok : table_ok (items two_purchases).
Proof. apply run_ops_table_ok. exact empty_table_ok. Qed.

Lemma check_entitlement_counts_witness :
  faults two_purchases = []
  /\ snd (check_entitlement "user-1" "writing" two_purchases) = two_purchases.
Proof.
  split; [reflexivity|].
  exact (proj1 (check_entitlement_counts two_purchases "user-1" "writing" eq_refl
                  (proj2 two_purchases_ok))).
Defined.

Lemma grant_then_check_witness :
  strip "tx-1" <> EmptyString
  /\ fst (grant_entitlement 100 "user-1" "academic_writing" "tx-1" "ios" None empty_store)
     = Ok true
  /\ user_units "user-1" "academic_writing"
       (items (snd (grant_entitlement 100 "user-1" "academic_writing" "tx-1" "ios" None
                      empty_store))) = 2.
Proof.
  assert (Hnb : strip "tx-1" <> EmptyString) by (vm_compute; discriminate).
  split; [exact Hnb|].
  destruct (grant_then_check empty_store 100 "user-1" "academic_writing" "tx-1" "ios"
              "academic_writing" None eq_refl empty_table_ok Hnb eq_refl)
    as (Hok & Hunits & _).
  split; [exact Hok|]. rewrite Hunits. vm_compute. reflexivity.
Defined.

Lemma consume_matches_access_witness :
  0 < user_units "user-1" "writing" (items two_purchases)
  /\ fst (consume_assessment 300 "user-1" "writing" "assessment-1" two_purchases) = Ok true
  /\ user_units "user-1" "writing"
       (items (snd (consume_assessment 300 "user-1" "writing" "assessment-1" two_purchases)))
     = 3.
Proof.
  assert (Hpos : 0 < user_units "user-1" "writing" (items two_purchases))
    by (vm_compute; reflexivity).
  split; [exact Hpos|].
  destruct (consume_matches_access two_purchases 300 "user-1" "writing" "assessment-1"
              eq_refl two_purchases_ok) as (_ & Hyes & _).
  destruct (Hyes Hpos) as (Hok & _ & _ & Hunits).
  split; [exact Hok|]. rewrite Hunits. vm_compute. reflexivity.
Defined.

Lemma other_users_untouched_witness :
  by_user "user-1"
    (items (run_ops [ Grant 400 "user-2" "com.ieltsaiprep.academic.writing" "tx-3" "ios" None;
                      Consume 500 "user-2" "writing" "assessment-9" ] two_purchases))
  = by_user "user-1" (items two_purchases).
Proof.
  apply (other_users_untouched
           [ Grant 400 "user-2" "com.ieltsaiprep.academic.writing" "tx-3" "ios" None;
             Consume 500 "user-2" "writing" "assessment-9" ] two_purchases "user-1").
  repeat constructor; cbn; discriminate.
Defined.

Lemma grant_then_lookup_witness :
  fst (get_entitlement_by_transaction "tx-1"
         (snd (grant_entitlement 100 "user-1" "academic_writing" "tx-1" "ios" None
                 empty_store)))
  = Ok (Some (entitlement_data 100 "user-1" "academic_writing" "tx-1" "ios" None)).
Proof.
  assert (Hnb : strip "tx-1" <> EmptyString) by (vm_compute; discriminate).
  destruct (grant_then_lookup empty_store 100 "user-1" "academic_writing" "tx-1" "ios" None
              eq_refl Hnb eq_refl) as [Hget _].
  now rewrite Hget.
Defined.

Lemma regrant_forgets_transaction_witness :
  In (entitlement_data 1000 "user-1" "com.ieltsaiprep.academic.writing" "tx-001" "ios"
        (Some [("receipt", "abc")])) (items one_purchase)
  /\ fst (get_entitlement_by_transaction "tx-001"
            (snd (grant_entitlement 2000 "user-1" "com.ieltsaiprep.academic.writing"
                    "tx-002" "ios" None one_purchase))) = Ok None
  /\ fst (grant_entitlement 3000 "user-1" "com.ieltsaiprep.academic.writing" "tx-001" "ios"
            None
            (snd (grant_entitlement 2000 "user-1" "com.ieltsaiprep.academic.writing"
                    "tx-002" "ios" None one_purchase))) = Ok true.
Proof.
  set (old := entitlement_data 1000 "user-1" "com.ieltsaiprep.academic.writing" "tx-001"
                "ios" (Some [("receipt", "abc")])).
  assert (Hin : In old (items one_purchase)) by (left; reflexivity).
  assert (Hnb : strip "tx-002" <> EmptyString) by (vm_compute; discriminate).
  assert (Hnb' : strip (transaction_id old) <> EmptyString) by (vm_compute; discriminate).
  destruct (regrant_forgets_transaction one_purchase 2000 3000 "user-1"
              "com.ieltsaiprep.academic.writing" "tx-002" "ios" "ios" None None old
              eq_refl Hnb eq_refl Hin eq_refl eq_refl eq_refl) as [Hget Hgrant].
  split; [exact Hin|]. split; [exact (f_equal fst Hget)|exact (Hgrant Hnb')].
Defined.

Lemma failed_lookup_grants_witness :
  faults {| items := items one_purchase; faults := [true] |} = [true]
  /\ fst (grant_entitlement 2000 "user-2" "com.ieltsaiprep.general.speaking" "tx-001"
            "android" None {| items := items one_purchase; faults := [true] |}) = Ok true.
Proof.
  assert (Hnb : strip "tx-001" <> EmptyString) by (vm_compute; discriminate).
  split; [reflexivity|].
  destruct (failed_lookup_grants {| items := items one_purchase; faults := [true] |} []
              2000 "user-2" "com.ieltsaiprep.general.speaking" "tx-001" "android" None
              eq_refl eq_refl Hnb) as [_ Hgrant].
  now rewrite Hgrant.
Defined.

End LedgerCompositionRuns.

(* ================================================================== *)
(** * More on the regional router *)

Section RouterHealth.
Import PyStr Eff GeminiRegionalRouter.

(** ** Reports and the tracked regions *)

Lemma apply_mark_lookup_other (rt : Router) (m : Mark) (r : string) :
  mark_region m <> r ->
  region_health (apply_mark rt m) !! r = region_health rt !! r.
Proof.
  intros Hne. destruct m as [now region latency|region error]; cbn [apply_mark mark_region] in *.
  - unfold mark_success. destruct (region_health rt !! region); [|reflexivity].
    cbn [set_region_health region_health]. now apply lookup_insert_ne.
  - unfold mark_failure. destruct (region_health rt !! region); [|reflexivity].
    cbn [set_region_health region_health]. now apply lookup_insert_ne.
Qed.

Lemma apply_mark_untracked (rt : Router) (m : Mark) :
  region_health rt !! mark_region m = None -> apply_mark rt m = rt.
Proof.
  destruct m as [now region latency|region error]; cbn [apply_mark mark_region];
    intros Hn; [unfold mark_success|unfold mark_failure]; now rewrite Hn.
Qed.

Lemma apply_mark_size (rt : Router) (m : Mark) :
  size (region_health (apply_mark rt m)) = size (region_health rt).
Proof.
  destruct m as [now region latency|region error]; cbn [apply_mark].
  - unfold mark_success. destruct (region_health rt !! region) eqn:Hr; [|reflexivity].
    cbn [set_region_health region_health]. apply map_size_insert_Some. eauto.
  - unfold mark_failure. destruct (region_health rt !! region) eqn:Hr; [|reflexivity].
    cbn [set_region_health region_health]. apply map_size_insert_Some. eauto.
Qed.

Lemma apply_marks_size (ms : list Mark) (rt : Router) :
  size (region_health (apply_marks ms rt)) = size (region_health rt).
Proof.
  unfold apply_marks. revert rt. induction ms as [|m ms IH]; intros rt; [reflexivity|].
  cbn [fold_left]. now rewrite IH, apply_mark_size.
Qed.

Lemma init_size (t0 : Z) : size (region_health (init t0)) = 21%nat.
Proof. vm_compute. reflexivity. Qed.

Lemma filter_split_length {A : Type} (f : A -> bool) (l : list A) :
  (List.length (List.filter f l) + List.length (List.filter (fun x => negb (f x)) l)
   = List.length l)%nat.
Proof.
  induction l as [|x l IH]; [reflexivity|]. cbn [List.filter].
  destruct (f x); cbn [negb List.length]; lia.
Qed.

Lemma filter_cover_length {A : Type} (f g : A -> bool) (l : list A) :
  (forall x, In x l -> f x || g x = true) ->
  (List.length l <= List.length (List.filter f l) + List.length (List.filter g l))%nat.
Proof.
  induction l as [|x l IH]; intros Hc; [reflexivity|].
  assert (Hx : f x || g x = true) by (apply Hc; now left).
  assert (IH' : (List.length l
                 <= List.length (List.filter f l) + List.length (List.filter g l))%nat)
    by (apply IH; intros y Hy; apply Hc; now right).
  cbn [List.filter]. destruct (f x), (g x); cbn [List.length] in *;
    try discriminate; lia.
Qed.

Lemma filter_length_le {A : Type} (f : A -> bool) (l : list A) :
  (List.length (List.filter f l) <= List.length l)%nat.
Proof.
  induction l as [|x l IH]; [reflexivity|]. cbn [List.filter].
  destruct (f x); cbn [List.length]; lia.
Qed.

Lemma filter_ext_length {A : Type} (f g : A -> bool) (l : list A) :
  (forall x, f x = g x) ->
  List.length (List.filter f l) = List.length (List.filter g l).
Proof.
  intros Hfg. induction l as [|x l IH]; [reflexivity|]. cbn [List.filter].
  rewrite Hfg. destruct (g x); cbn [List.length]; now rewrite IH.
Qed.

(** A region does not become healthy by the passing of time. *)
Lemma is_region_healthy_earlier (t t' : Z) (r : string) (rt : Router) :
  t <= t' -> _is_region_healthy t' r rt = true -> _is_region_healthy t r rt = true.
Proof.
  intros Hle. unfold _is_region_healthy.
  destruct (region_health rt !! r) as [h|]; [|discriminate].
  destruct (5 <=? failure_count h); [discriminate|].
  destruct (Z.ltb_spec thirty_minutes (t' - last_success h)) as [|Hrecent]; [discriminate|].
  destruct (Z.ltb_spec thirty_minutes (t - last_success h)) as [Hstale|]; [lia|].
  intros Hs. exact Hs.
Qed.

(** X8.  The counts of [get_region_health_status].  Each count is at
    most the number of regions the router tracks.  The clock is read in
    every health check, and the unhealthy regions are counted after the
    healthy ones: as time goes on, every tracked region is in at least
    one of the counts, and a region that goes stale between the two
    counts is in both, so the sum of the counts is at least the number of
    tracked regions.  When every region is judged at both readings alike
    (the same instant, say), the counts add up to that number.  A router
    built by the constructor tracks the 21 regions of the catalog, and
    reports of successes and failures, for known or unknown regions,
    never add or drop one: that number is always [total_regions], 21. *)
Theorem health_status_counts (clock clock' : string -> Z) :
  (forall r, clock r <= clock' r) ->
  (forall rt,
      let status := get_region_health_status clock clock' rt in
      let n := Z.of_nat (size (region_health rt)) in
      0 <= healthy_count status <= n
      /\ 0 <= unhealthy_count status <= n
      /\ n <= healthy_count status + unhealthy_count status
      /\ ((forall r, _is_region_healthy (clock r) r rt = _is_region_healthy (clock' r) r rt) ->
          healthy_count status + unhealthy_count status = n))
  /\ (forall t0 ms,
        let rt := apply_marks ms (init t0) in
        total_regions (get_region_health_status clock clock' rt) = 21
        /\ Z.of_nat (size (region_health rt)) = 21).
Proof.
  intros Hclock. split.
  - intros rt status n. subst status n.
    cbn [get_region_health_status healthy_count unhealthy_count].
    assert (Hsize : List.length (tracked rt) = size (region_health rt)).
    { unfold tracked. now rewrite List.length_map, length_map_to_list. }
    rewrite <- Hsize.
    pose proof (filter_length_le (fun r => _is_region_healthy (clock r) r rt) (tracked rt))
      as Hh.
    pose proof (filter_length_le (fun r => negb (_is_region_healthy (clock' r) r rt))
                  (tracked rt)) as Hu.
    pose proof (filter_cover_length
                  (fun r => _is_region_healthy (clock r) r rt)
                  (fun r => negb (_is_region_healthy (clock' r) r rt)) (tracked rt)) as Hc.
    split; [lia|]. split; [lia|]. split.
    + rewrite <- Nat2Z.inj_add. apply Nat2Z.inj_le. apply Hc. intros r _.
      destruct (_is_region_healthy (clock' r) r rt) eqn:Hl; cbn [negb].
      * rewrite (is_region_healthy_earlier _ _ r rt (Hclock r) Hl). reflexivity.
      * apply orb_true_r.
    + intros Hsame. rewrite <- Nat2Z.inj_add. f_equal.
      rewrite (filter_ext_length
                 (fun r => negb (_is_region_healthy (clock' r) r rt))
                 (fun r => negb (_is_region_healthy (clock r) r rt)))
        by (intros r; now rewrite Hsame).
      apply (filter_split_length (fun r => _is_region_healthy (clock r) r rt)).
  - intros t0 ms rt. subst rt. rewrite apply_marks_size, init_size. split; reflexivity.
Qed.

(** X9.  A report concerns one region.  Reports about other regions
    leave the entry of a region as it is, hence also whether it is
    healthy at any time; and a report about a region the router does not
    track changes nothing at all. *)
Theorem marks_leave_other_regions (ms : list Mark) (rt : Router) (r : string) :
  Forall (fun m => mark_region m <> r) ms ->
  region_health (apply_marks ms rt) !! r = region_health rt !! r
  /\ (forall now, _is_region_healthy now r (apply_marks ms rt) = _is_region_healthy now r rt)
  /\ (forall m, region_health rt !! mark_region m = None -> apply_mark rt m = rt).
Proof.
  intros Hall.
  assert (Heq : region_health (apply_marks ms rt) !! r = region_health rt !! r).
  { unfold apply_marks. revert rt. induction Hall as [|m ms Hm _ IH]; intros rt; [reflexivity|].
    cbn [fold_left]. rewrite IH. now apply apply_mark_lookup_other. }
  split; [exact Heq|]. split.
  - intros now. unfold _is_region_healthy. now rewrite Heq.
  - intros m. apply apply_mark_untracked.
Qed.

(** ** Selection *)

(** X10.  Selection fails over.  Whenever some region of the catalog is
    healthy, [get_optimal_region] returns a healthy region of the
    catalog, whatever the preference, the country code, the address and
    the draw: an unhealthy region is returned only when none is healthy. *)
Theorem selection_returns_healthy (now : Z) (rnd : nat)
    (country_code ip_address preferred_region : option string) (rt : Router) :
  (exists x, in_catalog x /\ _is_region_healthy now x rt = true) ->
  exists r info,
    get_optimal_region now rnd country_code ip_address preferred_region rt = Ok (r, info)
    /\ in_catalog r
    /\ _is_region_healthy now r rt = true.
Proof.
  intros (x & Hx & Hhx). unfold get_optimal_region.
  destruct (preferred_choice now preferred_region rt) as [p|] eqn:Hp.
  { apply preferred_choice_spec in Hp as (_ & Hm & Hh).
    destruct (region_entry_ok p Hm) as (info & -> & _).
    exists p, info. split; [reflexivity|]. split; [now apply dict_mem_keys|exact Hh]. }
  destruct (country_choice now country_code rt) as [m|] eqn:Hc.
  { apply country_choice_spec in Hc as (c & _ & Hmap & Hh).
    destruct (country_region_ok _ _ Hmap) as [_ Hm].
    destruct (region_entry_ok m Hm) as (info & -> & _).
    exists m, info. split; [reflexivity|]. split; [now apply dict_mem_keys|exact Hh]. }
  rewrite ip_choice_none.
  destruct (_is_region_healthy now default_region rt) eqn:Hd.
  { destruct (region_entry_ok default_region default_region_in_catalog) as (info & -> & _).
    exists default_region, info. split; [reflexivity|].
    split; [apply dict_mem_keys, default_region_in_catalog|exact Hd]. }
  destruct (healthy_regions now rt) as [|y ys] eqn:Hl.
  - exfalso. assert (Hin : In x (healthy_regions now rt)) by now apply healthy_regions_spec.
    rewrite Hl in Hin. destruct Hin.
  - pose proof (random_choice_in rnd y ys) as Hin. rewrite <- Hl in Hin.
    apply healthy_regions_spec in Hin as [Hcat Hh].
    assert (Hm : dict_mem VERTEX_AI_REGIONS (random_choice rnd y ys) = true)
      by now apply dict_mem_keys.
    destruct (region_entry_ok _ Hm) as (info & -> & _).
    exists (random_choice rnd y ys), info. auto.
Qed.

Lemma upper_lower_char (c : ascii) : upper_char (lower_char c) = upper_char c.
Proof. destruct c as [[] [] [] [] [] [] [] []]; reflexivity. Qed.

Lemma upper_upper_char (c : ascii) : upper_char (upper_char c) = upper_char c.
Proof. destruct c as [[] [] [] [] [] [] [] []]; reflexivity. Qed.

Lemma upper_lower (s : string) : upper (lower s) = upper s.
Proof.
  unfold upper, lower. induction s as [|c s IH]; [reflexivity|].
  cbn [map_chars]. now rewrite upper_lower_char, IH.
Qed.

Lemma upper_upper (s : string) : upper (upper s) = upper s.
Proof.
  unfold upper. induction s as [|c s IH]; [reflexivity|].
  cbn [map_chars]. now rewrite upper_upper_char, IH.
Qed.

Lemma truthy_map_chars (f : ascii -> ascii) (s : string) :
  truthy (map_chars f s) = truthy s.
Proof. now destruct s. Qed.

(** X11.  An ASCII country code is read without regard to case: the
    selection for such a code, for its lower-cased form and for its
    upper-cased form are the same.  (On ASCII strings the [lower] and
    [upper] of the embedding are those of Python; a code with other
    characters, whose upper-casing Python may fold onto ASCII letters,
    is not covered.) *)
Theorem country_code_case_insensitive (now : Z) (rnd : nat) (c : string)
    (ip_address preferred_region : option string) (rt : Router) :
  isascii c = true ->
  get_optimal_region now rnd (Some (lower c)) ip_address preferred_region rt
  = get_optimal_region now rnd (Some c) ip_address preferred_region rt
  /\ get_optimal_region now rnd (Some (upper c)) ip_address preferred_region rt
     = get_optimal_region now rnd (Some c) ip_address preferred_region rt
  /\ isascii (lower c) = true
  /\ isascii (upper c) = true.
Proof.
  intros Hascii.
  assert (Hchars : forall f,
             (forall a, (N_of_ascii a <? 128)%N = true -> (N_of_ascii (f a) <? 128)%N = true) ->
             isascii (map_chars f c) = true).
  { intros f Hf. revert Hascii. unfold isascii.
    induction c as [|a c IH]; [reflexivity|].
    cbn [map_chars list_ascii_of_string forallb]. intros Ha.
    apply andb_prop in Ha as [Ha Hc]. rewrite (Hf a Ha). cbn [andb]. now apply IH. }
  split; [|split; [|split]].
  - unfold get_optimal_region, country_choice.
    rewrite upper_lower. unfold lower. rewrite !truthy_map_chars. reflexivity.
  - unfold get_optimal_region, country_choice.
    rewrite upper_upper. unfold upper at 1. rewrite !truthy_map_chars. reflexivity.
  - apply Hchars. intros a. destruct a as [[] [] [] [] [] [] [] []]; vm_compute; congruence.
  - apply Hchars. intros a. destruct a as [[] [] [] [] [] [] [] []]; vm_compute; congruence.
Qed.

End RouterHealth.

(** ** The latency estimate *)

Section LatencyEstimates.
Import PyStr Eff GeminiRegionalRouter.
Context `{Percentage}.

Lemma dict_get_in_forallb {V : Type} (check : string * V -> bool) (d : list (string * V))
    (k : string) (v : V) :
  forallb check d = true -> dict_get d k = Some v -> check (k, v) = true.
Proof.
  intros Hall Hget. apply dict_get_in in Hget.
  rewrite forallb_forall in Hall. now apply Hall.
Qed.

(** X12.  [estimate_latency_reduction] never raises (every mapped region
    is in the catalog and the default latency it divides by is positive).
    It answers [None] exactly for the codes that are not keys of the
    country table, and the keys are upper-case: unlike the selection, it
    does not upper-case its argument.  For a key, the reduction is the
    default latency minus the latency of the mapped region; it is 0 for
    the countries served from North America, at least 60 ms for Asia,
    Europe, the Middle East, Australia and Africa, and -50 ms for South
    America, whose continent has no cross-continental estimate: there the
    mapped region is estimated to be slower than the default one. *)
Theorem latency_estimate_by_continent (country_code : string) :
  match estimate_latency_reduction country_code with
  | Raise _ => False
  | Ok None => dict_get COUNTRY_TO_REGION country_code = None
  | Ok (Some est) =>
      upper country_code = country_code
      /\ country est = country_code
      /\ dict_get COUNTRY_TO_REGION country_code = Some (optimal_region est)
      /\ 0 < default_latency_ms est
      /\ reduction_ms est = default_latency_ms est - optimal_latency_ms est
      /\ exists info,
          dict_get VERTEX_AI_REGIONS (optimal_region est) = Some info
          /\ optimal_latency_ms est = latency_base info
          /\ (continent info = "North America" -> reduction_ms est = 0)
          /\ (continent info = "South America" -> reduction_ms est = -50)
          /\ (continent info <> "North America" -> continent info <> "South America" ->
              60 <= reduction_ms est)
  end.
Proof.
  unfold estimate_latency_reduction.
  destruct (dict_get COUNTRY_TO_REGION country_code) as [region|] eqn:Hc; [|reflexivity].
  set (check := fun kv : string * string =>
         match dict_get VERTEX_AI_REGIONS (snd kv) with
         | Some info =>
             String.eqb (upper (fst kv)) (fst kv)
             && (0 <? cross_continental (continent info) 50)
             && (let reduction := cross_continental (continent info) 50 - latency_base info in
                 if String.eqb (continent info) "North America" then reduction =? 0
                 else if String.eqb (continent info) "South America" then reduction =? -50
                 else 60 <=? reduction)
         | None => false
         end).
  assert (Hall : forallb check COUNTRY_TO_REGION = true) by (vm_compute; reflexivity).
  pose proof (dict_get_in_forallb check _ _ _ Hall Hc) as Hk.
  subst check. cbn [fst snd] in Hk. clear Hall.
  unfold catalog_entry.
  destruct (dict_get VERTEX_AI_REGIONS region) as [info|] eqn:Hr; [|discriminate].
  assert (Hus : exists us, dict_get VERTEX_AI_REGIONS "us-central1" = Some us
                          /\ latency_base us = 50)
    by (eexists; split; reflexivity).
  destruct Hus as (us & -> & Hus). rewrite Hus.
  cbn [latency_base optimal_region optimal_latency_ms default_latency_ms reduction_ms country].
  apply andb_prop in Hk as [Hk Hred]. apply andb_prop in Hk as [Hup Hpos].
  apply String.eqb_eq in Hup. apply Z.ltb_lt in Hpos.
  split; [exact Hup|]. split; [reflexivity|]. split; [reflexivity|].
  split; [exact Hpos|]. split; [reflexivity|].
  exists info. split; [exact Hr|]. split; [reflexivity|].
  destruct (String.eqb_spec (continent info) "North America") as [Hna|Hna].
  { apply Z.eqb_eq in Hred. split; [intros _; exact Hred|].
    split; [rewrite Hna; discriminate|]. intros Hn. now destruct Hn. }
  destruct (String.eqb_spec (continent info) "South America") as [Hsa|Hsa].
  { apply Z.eqb_eq in Hred. split; [intros Hn; now destruct Hna|].
    split; [intros _; exact Hred|]. intros _ Hn. now destruct Hn. }
  apply Z.leb_le in Hred. split; [intros Hn; now destruct Hna|].
  split; [intros Hn; now destruct Hsa|]. intros _ _. exact Hred.
Qed.

End LatencyEstimates.

(** ** The router extras on concrete inputs *)

Section RouterHealthRuns.
Import PyStr Eff GeminiRegionalRouter RouterExamples.

Lemma health_status_counts_witness :
  (forall r : string, (fun _ => 0) r <= (fun _ => 31 * minute) r)
  /\ 21 <= healthy_count (get_region_health_status (fun _ => 0) (fun _ => 31 * minute) fresh)
           + unhealthy_count
               (get_region_health_status (fun _ => 0) (fun _ => 31 * minute) fresh).
Proof.
  assert (Hclock : forall r : string, (fun _ => 0) r <= (fun _ => 31 * minute) r)
    by (intros r; vm_compute; discriminate).
  split; [exact Hclock|].
  destruct (proj1 (health_status_counts (fun _ => 0) (fun _ => 31 * minute) Hclock) fresh)
    as (_ & _ & Hsum & _).
  exact Hsum.
Defined.

(** Every region is healthy at the first count and stale at the second,
    31 minutes later: each of the 21 regions is counted twice. *)
Lemma stale_between_counts :
  healthy_count (get_region_health_status (fun _ => 0) (fun _ => 31 * minute) fresh) = 21
  /\ unhealthy_count (get_region_health_status (fun _ => 0) (fun _ => 31 * minute) fresh)
     = 21.
Proof. split; vm_compute; reflexivity. Qed.

Lemma country_code_case_insensitive_witness :
  isascii "sg" = true
  /\ get_optimal_region minute 0 (Some (upper "sg")) None None fresh
     = get_optimal_region minute 0 (Some "sg") None None fresh.
Proof.
  split; [reflexivity|].
  exact (proj1 (proj2 (country_code_case_insensitive minute 0 "sg" None None fresh
                         eq_refl))).
Defined.

Lemma marks_leave_other_regions_witness :
  Forall (fun m => mark_region m <> "us-central1")
    [Failure "asia-southeast1" "timeout"; Success minute "europe-west2" (inject_Z 48)]
  /\ _is_region_healthy (2 * minute) "us-central1"
       (apply_marks
          [Failure "asia-southeast1" "timeout"; Success minute "europe-west2" (inject_Z 48)]
          singapore_down)
     = _is_region_healthy (2 * minute) "us-central1" singapore_down.
Proof.
  assert (Hall : Forall (fun m => mark_region m <> "us-central1")
                   [Failure "asia-southeast1" "timeout";
                    Success minute "europe-west2" (inject_Z 48)])
    by (repeat constructor; cbn [mark_region]; discriminate).
  split; [exact Hall|].
  exact (proj1 (proj2 (marks_leave_other_regions _ singapore_down "us-central1" Hall))
           (2 * minute)).
Defined.

Lemma selection_returns_healthy_witness :
  (exists x, in_catalog x /\ _is_region_healthy minute x singapore_down = true)
  /\ exists r info,
      get_optimal_region minute 3 (Some "SG") None (Some "asia-southeast1") singapore_down
      = Ok (r, info)
      /\ _is_region_healthy minute r singapore_down = true.
Proof.
  assert (Hex : exists x, in_catalog x /\ _is_region_healthy minute x singapore_down = true).
  { exists "europe-west2". split; vm_compute; [tauto|reflexivity]. }
  split; [exact Hex|].
  destruct (selection_returns_healthy minute 3 (Some "SG") None (Some "asia-southeast1")
              singapore_down Hex) as (r & info & Heq & _ & Hh).
  exists r, info. split; [exact Heq|exact Hh].
Defined.

End RouterHealthRuns.

(* ================================================================== *)
(** * More on the live session *)

Section SessionCalls.
Import PyStr Eff GeminiLiveSessionAWS.
Context {W : Type} `{WorkflowManager W}.

Ltac session_step :=
  repeat first
    [ rewrite send_websocket_message_eval
    | progress unfold with_self, emit, ret, raise
    | progress cbn [self router remote_faults next_handle trace fst snd tl] ].

Lemma new_events_app (st st' : State W) (l : list Event) :
  trace st' = (trace st ++ l)%list -> new_events st st' = l.
Proof.
  intros Ht. unfold new_events. rewrite Ht, skipn_app, Nat.sub_diag, skipn_all.
  reflexivity.
Qed.

(** ** Connecting *)

Lemma connect_eval (st : State W) :
  connect st
  = match remote_faults st with
    | true :: fs =>
        (Raise RemoteError,
         {| self := self st; router := router st; remote_faults := fs;
            next_handle := next_handle st;
            trace := trace st ++ posted (self st) (error "Connection failed") |})
    | fs =>
        (Ok tt,
         {| self := set_response_task true
                      (set_is_connected true (set_session (Some (next_handle st)) (self st)));
            router := router st; remote_faults := tl fs;
            next_handle := S (next_handle st);
            trace := trace st
                     ++ [RemoteConnect (model_id (self st)) (system_instruction (self st))
                           (next_handle st); CreateTask]
                     ++ posted (self st)
                          (connection_established (model_id (self st)) (region (self st))) |})
    end.
Proof.
  destruct st as [s rt fs n tr]. cbn [self router remote_faults next_handle trace].
  unfold connect, try_except, bind, get_self, generate_content_stream, remote_call.
  cbn [self router remote_faults next_handle trace fst snd].
  destruct fs as [|[] fs]; cbn [tl]; session_step; rewrite <- ?app_assoc; reflexivity.
Qed.

(** X13.  The two outcomes of [connect].  When the remote service opens
    the session, [connect] returns, the session holds the new handle, is
    connected and has its response task, and the effects are the remote
    open for the model and instruction of the session, the task, and the
    [connection_established] message with the model and the region when
    there is a WebSocket.  When the remote service fails, the error is
    raised again, the attributes of the session are as before (no handle
    is stored, [is_connected] is not set, no task is created) and the one
    effect is an [error] message to the WebSocket, if there is one. *)
Theorem connect_outcomes (st : State W) :
  let st' := snd (connect st) in
  match remote_faults st with
  | true :: _ =>
      fst (connect st) = Raise RemoteError
      /\ self st' = self st
      /\ exists message, new_events st st' = posted (self st) (error message)
  | _ =>
      fst (connect st) = Ok tt
      /\ session (self st') = Some (next_handle st)
      /\ is_connected (self st') = true
      /\ response_task (self st') = true
      /\ model_id (self st') = model_id (self st)
      /\ new_events st st'
         = ([RemoteConnect (model_id (self st)) (system_instruction (self st))
               (next_handle st); CreateTask]
            ++ posted (self st)
                 (connection_established (model_id (self st)) (region (self st))))%list
  end.
Proof.
  intros st'. subst st'. rewrite connect_eval.
  destruct (remote_faults st) as [|[] fs]; cbn [fst snd self];
    repeat split; try reflexivity;
    try (eexists; apply new_events_app; reflexivity);
    apply new_events_app; reflexivity.
Qed.

(** ** Switching the model *)

Lemma switch_model_unconnected (new_model new_prompt : string) (st : State W) :
  is_connected (self st) = false -> switch_model new_model new_prompt st = (Ok tt, st).
Proof.
  intros Hc. unfold switch_model, bind, get_self. cbn [fst snd]. now rewrite Hc.
Qed.

Lemma switch_model_connected (new_model new_prompt : string) (st : State W) (h : nat) :
  is_connected (self st) = true ->
  session (self st) = Some h ->
  switch_model new_model new_prompt st
  = match remote_faults st with
    | true :: fs =>
        (Raise RemoteError,
         {| self := set_system_instruction new_prompt (self st);
            router := router st; remote_faults := fs;
            next_handle := next_handle st; trace := trace st |})
    | false :: true :: fs =>
        (Raise RemoteError,
         {| self := set_model_id new_model (set_system_instruction new_prompt (self st));
            router := router st; remote_faults := fs;
            next_handle := next_handle st; trace := trace st ++ [RemoteClose h] |})
    | fs =>
        (Ok tt,
         {| self := set_messages_in_current_part 0
                      (set_session (Some (next_handle st))
                         (set_model_id new_model
                            (set_system_instruction new_prompt (self st))));
            router := router st; remote_faults := tl (tl fs);
            next_handle := S (next_handle st);
            trace := trace st
                     ++ [RemoteClose h; RemoteConnect new_model new_prompt (next_handle st)]
                     ++ posted (self st) (model_switched new_model) |})
    end.
Proof.
  intros Hc Hs. destruct st as [s rt fs n tr].
  cbn [self router remote_faults next_handle trace] in *.
  unfold switch_model, try_except, bind, get_self, generate_content_stream, remote_call.
  cbn [self router remote_faults next_handle trace fst snd]. rewrite Hc, Hs.
  cbn [negb]. session_step.
  destruct fs as [|[] fs]; cbn [tl]; session_step; try reflexivity.
  - rewrite <- ?app_assoc. reflexivity.
  - destruct fs as [|[] fs]; cbn [tl]; session_step; rewrite <- ?app_assoc; reflexivity.
Qed.

(** X14.  [switch_model] on a session that is not connected does nothing
    and returns.  On a connected session whose remote calls succeed it
    closes the handle the session holds, opens a session for the new
    model with the new prompt, stores the new handle, model and prompt,
    resets the message counter to 0 and posts [model_switched]; the
    session stays connected. *)
Theorem switch_model_outcomes (new_model new_prompt : string) (st : State W) (h : nat) :
  session (self st) = Some h ->
  remote_faults st = [] ->
  let st' := snd (switch_model new_model new_prompt st) in
  fst (switch_model new_model new_prompt st) = Ok tt
  /\ if is_connected (self st)
     then model_id (self st') = new_model
          /\ system_instruction (self st') = new_prompt
          /\ session (self st') = Some (next_handle st)
          /\ messages_in_current_part (self st') = 0
          /\ is_connected (self st') = true
          /\ new_events st st'
             = ([RemoteClose h; RemoteConnect new_model new_prompt (next_handle st)]
                ++ posted (self st) (model_switched new_model))%list
     else st' = st.
Proof.
  intros Hs Hf st'. subst st'.
  destruct (is_connected (self st)) eqn:Hc.
  - rewrite (switch_model_connected _ _ _ h Hc Hs), Hf. cbn [fst snd self].
    repeat split; try reflexivity; try exact Hc.
    apply new_events_app. reflexivity.
  - rewrite (switch_model_unconnected _ _ _ Hc). split; reflexivity.
Qed.

(** X15.  A failed switch leaves the session between two models.  When
    the remote close succeeds and the open for the new model fails,
    [switch_model] raises, and the session is still marked connected,
    holds the handle it has just closed, and already names the new model
    and the new prompt; nothing is posted and the message counter is not
    reset.  When the remote close itself fails, the prompt is already the
    new one while the model and the handle are the old ones. *)
Theorem switch_model_failure (new_model new_prompt : string) (st : State W) (h : nat)
    (fs : list bool) :
  is_connected (self st) = true ->
  session (self st) = Some h ->
  (remote_faults st = false :: true :: fs \/ remote_faults st = true :: fs) ->
  let st' := snd (switch_model new_model new_prompt st) in
  fst (switch_model new_model new_prompt st) = Raise RemoteError
  /\ is_connected (self st') = true
  /\ session (self st') = Some h
  /\ system_instruction (self st') = new_prompt
  /\ messages_in_current_part (self st') = messages_in_current_part (self st)
  /\ match remote_faults st with
     | true :: _ =>
         model_id (self st') = model_id (self st) /\ new_events st st' = []
     | _ =>
         model_id (self st') = new_model /\ new_events st st' = [RemoteClose h]
     end.
Proof.
  intros Hc Hs Hf st'. subst st'. rewrite (switch_model_connected _ _ _ h Hc Hs).
  destruct Hf as [-> | ->]; cbn [fst snd self];
    repeat split; try reflexivity; try exact Hc; try exact Hs;
    apply new_events_app; rewrite ?app_nil_r; reflexivity.
Qed.

(** ** Part transitions *)

(** A transition that is due: the workflow manager is updated, then the
    model is switched, then the transition is announced. *)
Lemma transition_eval (now : Z) (st : State W) :
  _check_lambda_timeout now (self st) = false ->
  should_transition (workflow_manager (self st)) = true ->
  current_part (workflow_manager (self st)) + 1 <= 3 ->
  let next_part := current_part (workflow_manager (self st)) + 1 in
  let config := fst (update_state_for_part next_part (workflow_manager (self st))) in
  let wm' := snd (update_state_for_part next_part (workflow_manager (self st))) in
  check_and_transition_parts now st
  = match switch_model (model config) (prompt config)
            {| self := set_workflow_manager wm' (self st); router := router st;
               remote_faults := remote_faults st; next_handle := next_handle st;
               trace := trace st |} with
    | (Ok _, st1) =>
        (Ok true,
         {| self := self st1; router := router st1; remote_faults := remote_faults st1;
            next_handle := next_handle st1;
            trace := trace st1
                     ++ (if on_text_response (self st)
                         then [OnTextResponse (transition_notice next_part)] else [])
                     ++ posted (self st1) (part_transition next_part (model config)) |})
    | (Raise e, st1) => (Raise e, st1)
    end.
Proof.
  intros Ht Hd Hn next_part config wm'. subst next_part config wm'.
  unfold check_and_transition_parts, bind at 1, get_self. cbn [fst snd].
  rewrite Ht, Hd.
  destruct (Z.leb_spec (current_part (workflow_manager (self st)) + 1) 3) as [_|?]; [|lia].
  destruct (update_state_for_part (current_part (workflow_manager (self st)) + 1)
              (workflow_manager (self st))) as [config wm'].
  cbn [fst snd]. unfold bind. session_step.
  destruct (switch_model (model config) (prompt config) _) as [[[]|e] st1]; [|reflexivity].
  destruct (on_text_response (self st)); session_step; rewrite <- ?app_assoc; reflexivity.
Qed.

(** X16.  When a part transition happens.  Within the time budget, on a
    connected session whose remote calls succeed,
    [check_and_transition_parts] returns [True] exactly when the
    workflow manager asks for a transition and the current part is below
    3.  Then the workflow manager is the one updated for the next part,
    the session runs the model and prompt configured for that part on a
    new handle with its message counter at 0, and the effects are, in
    order: the remote close, the remote open, [model_switched], the
    notice to the text callback if there is one, and [part_transition].
    Otherwise it returns [False] and nothing changes. *)
Theorem transition_switches_model (now : Z) (st : State W) (h : nat) :
  _check_lambda_timeout now (self st) = false ->
  is_connected (self st) = true ->
  session (self st) = Some h ->
  remote_faults st = [] ->
  let wm := workflow_manager (self st) in
  let next_part := current_part wm + 1 in
  let config := fst (update_state_for_part next_part wm) in
  let st' := snd (check_and_transition_parts now st) in
  if should_transition wm && (next_part <=? 3)
  then fst (check_and_transition_parts now st) = Ok true
       /\ workflow_manager (self st') = snd (update_state_for_part next_part wm)
       /\ model_id (self st') = model config
       /\ system_instruction (self st') = prompt config
       /\ session (self st') = Some (next_handle st)
       /\ messages_in_current_part (self st') = 0
       /\ is_connected (self st') = true
       /\ new_events st st'
          = ([RemoteClose h; RemoteConnect (model config) (prompt config) (next_handle st)]
             ++ posted (self st) (model_switched (model config))
             ++ (if on_text_response (self st)
                 then [OnTextResponse (transition_notice next_part)] else [])
             ++ posted (self st) (part_transition next_part (model config)))%list
  else check_and_transition_parts now st = (Ok false, st).
Proof.
  intros Ht Hc Hs Hf wm next_part config st'. subst st'.
  destruct (should_transition wm) eqn:Hd; cbn [andb].
  - destruct (Z.leb_spec next_part 3) as [Hn|Hn].
    + rewrite (transition_eval now st Ht Hd Hn).
      fold wm. fold next_part. fold config.
      rewrite (switch_model_connected _ _ _ h) by (cbn; assumption).
      cbn [remote_faults]. rewrite Hf. cbn [fst snd self tl router next_handle trace].
      repeat split; try reflexivity; try exact Hc.
      apply new_events_app. cbn [trace]. rewrite <- !app_assoc. reflexivity.
    + unfold check_and_transition_parts, bind at 1, get_self. cbn [fst snd].
      rewrite Ht. fold wm. rewrite Hd. fold next_part.
      destruct (Z.leb_spec next_part 3); [lia|reflexivity].
  - unfold check_and_transition_parts, bind at 1, get_self. cbn [fst snd].
    rewrite Ht. fold wm. rewrite Hd. reflexivity.
Qed.

(** X17.  A part transition on a session that is not connected.  Within
    the time budget, when the workflow manager asks for a transition and
    the current part is below 3, [check_and_transition_parts] on a
    session that is not connected still updates the workflow manager for
    the next part, notifies the text callback, posts [part_transition]
    and returns [True], although no model was switched: the model, the
    prompt and the handle of the session are as before and the remote
    service is not called. *)
Theorem transition_while_disconnected (now : Z) (st : State W) :
  _check_lambda_timeout now (self st) = false ->
  should_transition (workflow_manager (self st)) = true ->
  current_part (workflow_manager (self st)) + 1 <= 3 ->
  is_connected (self st) = false ->
  let wm := workflow_manager (self st) in
  let next_part := current_part wm + 1 in
  let config := fst (update_state_for_part next_part wm) in
  check_and_transition_parts now st
  = (Ok true,
     {| self := set_workflow_manager (snd (update_state_for_part next_part wm)) (self st);
        router := router st; remote_faults := remote_faults st;
        next_handle := next_handle st;
        trace := trace st
                 ++ (if on_text_response (self st)
                     then [OnTextResponse (transition_notice next_part)] else [])
                 ++ posted (self st) (part_transition next_part (model config)) |}).
Proof.
  intros Ht Hd Hn Hc wm next_part config.
  rewrite (transition_eval now st Ht Hd Hn).
  rewrite switch_model_unconnected by exact Hc. reflexivity.
Qed.

(** X18.  A transition whose model switch fails.  Within the time
    budget, when a transition is due on a connected session and the
    remote close or the remote open fails, [check_and_transition_parts]
    raises the error, and the workflow manager has already moved to the
    next part while neither the text callback nor the WebSocket was told
    of a transition; the session is still marked connected and holds the
    old handle. *)
Theorem transition_failure_advances_workflow (now : Z) (st : State W) (h : nat)
    (fs : list bool) :
  _check_lambda_timeout now (self st) = false ->
  should_transition (workflow_manager (self st)) = true ->
  current_part (workflow_manager (self st)) + 1 <= 3 ->
  is_connected (self st) = true ->
  session (self st) = Some h ->
  (remote_faults st = false :: true :: fs \/ remote_faults st = true :: fs) ->
  let wm := workflow_manager (self st) in
  let next_part := current_part wm + 1 in
  let st' := snd (check_and_transition_parts now st) in
  fst (check_and_transition_parts now st) = Raise RemoteError
  /\ workflow_manager (self st') = snd (update_state_for_part next_part wm)
  /\ is_connected (self st') = true
  /\ session (self st') = Some h
  /\ (new_events st st' = [] \/ new_events st st' = [RemoteClose h]).
Proof.
  intros Ht Hd Hn Hc Hs Hf wm next_part st'. subst st'.
  rewrite (transition_eval now st Ht Hd Hn). fold wm. fold next_part.
  rewrite (switch_model_connected _ _ _ h) by (cbn; assumption).
  cbn [remote_faults].
  destruct Hf as [-> | ->]; cbn [fst snd self];
    repeat split; try reflexivity; try exact Hc; try exact Hs.
  - right. apply new_events_app. reflexivity.
  - left. apply new_events_app. cbn [trace]. now rewrite app_nil_r.
Qed.

(** ** Closing *)

Lemma close_raises (now : Z) (st : State W) (h : nat) :
  session (self st) = Some h ->
  let summary := get_assessment_summary (workflow_manager (self st)) in
  (cost_breakdown_total summary = None ->
   close now st
   = (Raise (KeyError "cost_breakdown"),
      {| self := self st; router := close_report now (self st) (router st);
         remote_faults := remote_faults st; next_handle := next_handle st;
         trace := trace st |}))
  /\ (forall fs, cost_breakdown_total summary <> None -> remote_faults st = true :: fs ->
      close now st
      = (Raise RemoteError,
         {| self := self st; router := close_report now (self st) (router st);
            remote_faults := fs; next_handle := next_handle st;
            trace := trace st
                     ++ posted (self st) (assessment_complete summary)
                     ++ (if response_task (self st) then [CancelTask] else []) |})).
Proof.
  intros Hs summary. subst summary.
  unfold close, bind, get_self. cbn [fst snd]. rewrite Hs.
  destruct st as [s rt fs n tr]. cbn [self router remote_faults next_handle trace] in *.
  set (summary := get_assessment_summary (workflow_manager s)).
  assert (Hrep :
            (if regional_router s
             then match region s with
                  | Some r => if truthy r
                              then with_router (GeminiRegionalRouter.mark_success now r
                                                  (estimated_latency summary))
                              else ret tt
                  | None => ret tt
                  end
             else ret tt)
              {| self := s; router := rt; remote_faults := fs; next_handle := n; trace := tr |}
            = (Ok tt, {| self := s; router := close_report now s rt; remote_faults := fs;
                         next_handle := n; trace := tr |})).
  { unfold close_report. fold summary. destruct (regional_router s); cbn; [|reflexivity].
    destruct (region s) as [r|]; cbn; [|reflexivity]. destruct (truthy r); reflexivity. }
  rewrite Hrep. clear Hrep. split.
  - intros Hnone. rewrite Hnone. reflexivity.
  - intros fs' Hsome ->. destruct (cost_breakdown_total summary); [|congruence].
    session_step. unfold remote_call.
    destruct (response_task s); session_step; rewrite ?app_nil_r, <- ?app_assoc;
      reflexivity.
Qed.

(** X19.  A close that fails leaves the session marked connected.  On a
    session that holds a handle, when the summary has no cost breakdown
    [close] raises [KeyError] after the health report to the router and
    before anything else: nothing is posted, the task is not cancelled
    and the remote session is not closed.  When the remote close fails,
    [close] raises after the [assessment_complete] message and the
    cancellation.  In both cases [is_connected] and the other attributes
    of the session are as before the call. *)
Theorem close_failure_keeps_connected (now : Z) (st : State W) (h : nat) :
  session (self st) = Some h ->
  let summary := get_assessment_summary (workflow_manager (self st)) in
  let st' := snd (close now st) in
  (cost_breakdown_total summary = None ->
   fst (close now st) = Raise (KeyError "cost_breakdown")
   /\ self st' = self st
   /\ router st' = close_report now (self st) (router st)
   /\ new_events st st' = [])
  /\ (forall fs, cost_breakdown_total summary <> None -> remote_faults st = true :: fs ->
      fst (close now st) = Raise RemoteError
      /\ self st' = self st
      /\ new_events st st'
         = (posted (self st) (assessment_complete summary)
            ++ (if response_task (self st) then [CancelTask] else []))%list).
Proof.
  intros Hs summary st'. subst st'.
  destruct (close_raises now st h Hs) as [Hkey Hremote]. fold summary in Hkey, Hremote.
  split.
  - intros Hnone. rewrite (Hkey Hnone). cbn [fst snd self router].
    repeat split. apply new_events_app. cbn [trace]. now rewrite app_nil_r.
  - intros fs Hsome Hf. rewrite (Hremote fs Hsome Hf). cbn [fst snd self].
    repeat split. apply new_events_app. reflexivity.
Qed.

(** ** The session in use *)

Lemma switch_model_keeps_usable (new_model new_prompt : string) (st : State W) :
  usable (self st) = is_connected (self st) ->
  usable (self (snd (switch_model new_model new_prompt st)))
  = is_connected (self (snd (switch_model new_model new_prompt st))).
Proof.
  intros Hu. destruct (is_connected (self st)) eqn:Hc.
  - unfold usable in Hu. rewrite Hc in Hu. cbn [andb] in Hu.
    destruct (session (self st)) as [h|] eqn:Hs; [|discriminate].
    rewrite (switch_model_connected _ _ _ h Hc Hs).
    unfold usable.
    destruct (remote_faults st) as [|[] [|[] fs]];
      cbn [fst snd self is_connected session set_messages_in_current_part set_session
             set_model_id set_system_instruction];
      rewrite ?Hc, ?Hs; reflexivity.
  - rewrite (switch_model_unconnected _ _ _ Hc). cbn [snd]. unfold usable. now rewrite Hc.
Qed.

Lemma close_self (now : Z) (st : State W) :
  self (snd (close now st)) = self st
  \/ self (snd (close now st)) = set_is_connected false (self st).
Proof.
  destruct (session (self st)) as [h|] eqn:Hs.
  - pose proof (close_open now st h Hs) as Hopen.
    destruct (close_raises now st h Hs) as [Hkey Hremote].
    destruct (cost_breakdown_total (get_assessment_summary (workflow_manager (self st))))
      as [c|] eqn:Hcost.
    + destruct (remote_faults st) as [|[] fs] eqn:Hf.
      * rewrite Hopen. now right.
      * left. rewrite (Hremote fs) by congruence. reflexivity.
      * rewrite Hopen. now right.
    + left. now rewrite Hkey.
  - rewrite (close_unopened now st Hs). now right.
Qed.

Lemma no_transition_self (now : Z) (st : State W) :
  _check_lambda_timeout now (self st) = true
  \/ should_transition (workflow_manager (self st)) = false
  \/ 3 < current_part (workflow_manager (self st)) + 1 ->
  self (snd (check_and_transition_parts now st)) = self st.
Proof.
  intros Hcase. unfold check_and_transition_parts, bind, get_self. cbn [fst snd].
  destruct (_check_lambda_timeout now (self st)) eqn:Ht.
  { rewrite send_websocket_message_eval. reflexivity. }
  destruct (should_transition (workflow_manager (self st))) eqn:Hd; [|reflexivity].
  destruct (Z.leb_spec (current_part (workflow_manager (self st)) + 1) 3) as [Hn|Hn];
    [|reflexivity].
  destruct Hcase as [?|[?|?]]; [discriminate|discriminate|lia].
Qed.

Lemma check_and_transition_parts_keeps_usable (now : Z) (st : State W) :
  usable (self st) = is_connected (self st) ->
  usable (self (snd (check_and_transition_parts now st)))
  = is_connected (self (snd (check_and_transition_parts now st))).
Proof.
  intros Hu.
  destruct (_check_lambda_timeout now (self st)) eqn:Ht.
  { rewrite no_transition_self by now left. exact Hu. }
  destruct (should_transition (workflow_manager (self st))) eqn:Hd.
  2:{ rewrite no_transition_self by (right; now left). exact Hu. }
  destruct (Z.leb_spec (current_part (workflow_manager (self st)) + 1) 3) as [Hn|Hn].
  2:{ rewrite no_transition_self by (right; right; lia). exact Hu. }
  rewrite (transition_eval now st Ht Hd Hn).
  match goal with
  | |- context [switch_model ?m ?p ?s0] =>
      pose proof (switch_model_keeps_usable m p s0 Hu) as Hsw;
      destruct (switch_model m p s0) as [[[]|e] st1]
  end; exact Hsw.
Qed.

Lemma after_call_keeps_usable (st : State W) (c : Call) :
  usable (self st) = is_connected (self st) ->
  usable (self (after_call st c)) = is_connected (self (after_call st c)).
Proof.
  intros Hu. destruct c as [|new_model new_prompt|now|now]; cbn [after_call].
  - rewrite connect_eval. destruct (remote_faults st) as [|[] fs]; cbn [snd self];
      first [exact Hu|reflexivity].
  - now apply switch_model_keeps_usable.
  - now apply check_and_transition_parts_keeps_usable.
  - destruct (close_self now st) as [-> | ->]; [exact Hu|]. unfold usable. reflexivity.
Qed.

(** X20.  A session marked connected holds a handle.  From its creation
    on, after any sequence of [connect], [switch_model],
    [check_and_transition_parts] and [close] calls, whichever of them
    fail, [is_connected] implies that the session holds a remote handle:
    the test [not self.is_connected or not self.session] of [send_audio]
    and [send_text] comes down to [not self.is_connected].  The converse
    does not hold: [close] keeps the handle. *)
Theorem connected_session_has_handle (cs : list Call) (st : State W) :
  usable (self st) = is_connected (self st) ->
  usable (self (after_calls cs st)) = is_connected (self (after_calls cs st))
  /\ (forall now,
        fst (close now (after_calls cs st)) = Ok tt ->
        is_connected (self (snd (close now (after_calls cs st)))) = false
        /\ session (self (snd (close now (after_calls cs st))))
           = session (self (after_calls cs st)))
  /\ (forall created model_name instruction (wm : W) text_callback connection_id
             region_name with_router_ref apigw_endpoint,
        let s := new_session created model_name instruction wm text_callback connection_id
                   region_name with_router_ref apigw_endpoint in
        usable s = is_connected s).
Proof.
  intros Hu. split; [|split; [|reflexivity]].
  - unfold after_calls. revert st Hu. induction cs as [|c cs IH]; intros st Hu; [exact Hu|].
    cbn [fold_left]. apply IH. now apply after_call_keeps_usable.
  - intros now Hok. set (st1 := after_calls cs st) in *.
    destruct (session (self st1)) as [h|] eqn:Hs.
    + pose proof (close_open now st1 h Hs) as Hopen.
      destruct (cost_breakdown_total (get_assessment_summary (workflow_manager (self st1))));
        [|congruence].
      destruct (remote_faults st1) as [|[] fs]; [|congruence|];
        rewrite Hopen; cbn [snd self]; split; first [reflexivity|exact Hs].
    + rewrite (close_unopened now st1 Hs). cbn [snd self]. split; [reflexivity|exact Hs].
Qed.

End SessionCalls.

(** ** The session extras on concrete inputs *)

Section SessionCallRuns.
Import PyStr Eff GeminiLiveSessionAWS IELTSWorkflowManager SessionExamples.

Lemma switch_model_outcomes_witness :
  session (self websocket_session) = Some 0%nat
  /\ remote_faults websocket_session = []
  /\ model_id (self (snd (switch_model "gemini-2.5-flash" "IELTS Speaking Part 3"
                            websocket_session))) = "gemini-2.5-flash".
Proof.
  split; [reflexivity|]. split; [reflexivity|].
  exact (proj1 (proj2 (switch_model_outcomes "gemini-2.5-flash" "IELTS Speaking Part 3"
                         websocket_session 0 eq_refl eq_refl))).
Defined.

Lemma switch_model_failure_witness :
  is_connected (self (failing_remote [false; true] websocket_session)) = true
  /\ session (self (failing_remote [false; true] websocket_session)) = Some 0%nat
  /\ fst (switch_model "gemini-2.5-flash" "IELTS Speaking Part 3"
            (failing_remote [false; true] websocket_session)) = Raise RemoteError
  /\ is_connected (self (snd (switch_model "gemini-2.5-flash" "IELTS Speaking Part 3"
                                (failing_remote [false; true] websocket_session)))) = true.
Proof.
  split; [reflexivity|]. split; [reflexivity|].
  destruct (switch_model_failure "gemini-2.5-flash" "IELTS Speaking Part 3"
              (failing_remote [false; true] websocket_session) 0 [] eq_refl eq_refl
              (or_introl eq_refl)) as (Hraise & Hconn & _).
  split; [exact Hraise|exact Hconn].
Defined.

Lemma transition_switches_model_witness :
  _check_lambda_timeout (10 * second) (self websocket_session) = false
  /\ is_connected (self websocket_session) = true
  /\ session (self websocket_session) = Some 0%nat
  /\ remote_faults websocket_session = []
  /\ fst (check_and_transition_parts (10 * second) websocket_session) = Ok true.
Proof.
  assert (Ht : _check_lambda_timeout (10 * second) (self websocket_session) = false)
    by reflexivity.
  assert (Hc : is_connected (self websocket_session) = true) by reflexivity.
  assert (Hs : session (self websocket_session) = Some 0%nat) by reflexivity.
  assert (Hf : remote_faults websocket_session = []) by reflexivity.
  split; [exact Ht|]. split; [exact Hc|]. split; [exact Hs|]. split; [exact Hf|].
  exact (proj1 (transition_switches_model (10 * second) websocket_session 0 Ht Hc Hs Hf)).
Defined.

Lemma transition_while_disconnected_witness :
  _check_lambda_timeout (10 * second) (self waiting_session) = false
  /\ should_transition (workflow_manager (self waiting_session)) = true
  /\ current_part (workflow_manager (self waiting_session)) + 1 <= 3
  /\ is_connected (self waiting_session) = false
  /\ fst (check_and_transition_parts (10 * second) waiting_session) = Ok true
  /\ new_events waiting_session (snd (check_and_transition_parts (10 * second) waiting_session))
     = [OnTextResponse "[Transitioning to Part 2]"].
Proof.
  assert (Hn : current_part (workflow_manager (self waiting_session)) + 1 <= 3)
    by (vm_compute; discriminate).
  assert (Ht : _check_lambda_timeout (10 * second) (self waiting_session) = false)
    by reflexivity.
  assert (Hd : should_transition (workflow_manager (self waiting_session)) = true)
    by reflexivity.
  assert (Hc : is_connected (self waiting_session) = false) by reflexivity.
  split; [exact Ht|]. split; [exact Hd|]. split; [exact Hn|]. split; [exact Hc|].
  rewrite (transition_while_disconnected (10 * second) waiting_session Ht Hd Hn Hc).
  split; vm_compute; reflexivity.
Defined.

Lemma transition_failure_advances_workflow_witness :
  _check_lambda_timeout (10 * second) (self (failing_remote [true] websocket_session)) = false
  /\ should_transition (workflow_manager (self (failing_remote [true] websocket_session)))
     = true
  /\ current_part (workflow_manager (self (failing_remote [true] websocket_session))) + 1 <= 3
  /\ is_connected (self (failing_remote [true] websocket_session)) = true
  /\ session (self (failing_remote [true] websocket_session)) = Some 0%nat
  /\ fst (check_and_transition_parts (10 * second) (failing_remote [true] websocket_session))
     = Raise RemoteError
  /\ current_part
       (workflow_manager
          (self (snd (check_and_transition_parts (10 * second)
                        (failing_remote [true] websocket_session))))) = 2.
Proof.
  assert (Hn : current_part (workflow_manager (self (failing_remote [true] websocket_session)))
               + 1 <= 3)
    by (vm_compute; discriminate).
  assert (Ht : _check_lambda_timeout (10 * second)
                 (self (failing_remote [true] websocket_session)) = false)
    by reflexivity.
  assert (Hd : should_transition
                 (workflow_manager (self (failing_remote [true] websocket_session))) = true)
    by reflexivity.
  assert (Hc : is_connected (self (failing_remote [true] websocket_session)) = true)
    by reflexivity.
  assert (Hs : session (self (failing_remote [true] websocket_session)) = Some 0%nat)
    by reflexivity.
  split; [exact Ht|]. split; [exact Hd|]. split; [exact Hn|].
  split; [exact Hc|]. split; [exact Hs|].
  destruct (transition_failure_advances_workflow (10 * second)
              (failing_remote [true] websocket_session) 0 [] Ht Hd Hn Hc Hs
              (or_intror eq_refl)) as (Hraise & Hwm & _).
  split; [exact Hraise|]. rewrite Hwm. vm_compute. reflexivity.
Defined.

Lemma close_failure_keeps_connected_witness :
  session (self (failing_remote [true] websocket_session)) = Some 0%nat
  /\ fst (close (20 * second) (failing_remote [true] websocket_session)) = Raise RemoteError
  /\ is_connected (self (snd (close (20 * second) (failing_remote [true] websocket_session))))
     = true.
Proof.
  assert (Hs : session (self (failing_remote [true] websocket_session)) = Some 0%nat)
    by reflexivity.
  assert (Hcost : cost_breakdown_total
                    (get_assessment_summary
                       (workflow_manager (self (failing_remote [true] websocket_session))))
                  <> None)
    by (intros Hnone; discriminate Hnone).
  split; [exact Hs|].
  destruct (proj2 (close_failure_keeps_connected (20 * second)
                     (failing_remote [true] websocket_session) 0 Hs) [] Hcost eq_refl)
    as (Hraise & Hself & _).
  split; [exact Hraise|]. rewrite Hself. reflexivity.
Defined.

Lemma connected_session_has_handle_witness :
  usable (self unopened_session) = is_connected (self unopened_session)
  /\ usable (self (after_calls
                     [Connect; CheckAndTransitionParts (10 * second);
                      SwitchModel "gemini-2.5-flash" "IELTS Speaking Part 3";
                      Close (20 * second); Connect]
                     (failing_remote [false; true] unopened_session)))
     = is_connected
         (self (after_calls
                  [Connect; CheckAndTransitionParts (10 * second);
                   SwitchModel "gemini-2.5-flash" "IELTS Speaking Part 3";
                   Close (20 * second); Connect]
                  (failing_remote [false; true] unopened_session))).
Proof.
  split; [reflexivity|].
  exact (proj1 (connected_session_has_handle _ (failing_remote [false; true] unopened_session)
                  eq_refl)).
Defined.

End SessionCallRuns.

(* ================================================================== *)
(** * The mobile API routes *)

Section MobileRoutes.
Import PyStr Eff EntitlementDAL MobileApi.
Context `{JsonDumps} `{ReceiptValidators}.

(** What a grant returns and does to the table, whatever the table calls
    do. *)
Lemma grant_entitlement_cases (now : Z) (uid pid tid plat : string)
    (receipt : option Receipt) (s : Store) :
  (fst (grant_entitlement now uid pid tid plat receipt s) = Ok false
   /\ items (snd (grant_entitlement now uid pid tid plat receipt s)) = items s)
  \/ (fst (grant_entitlement now uid pid tid plat receipt s) = Ok true
      /\ strip tid <> EmptyString
      /\ items (snd (grant_entitlement now uid pid tid plat receipt s))
         = put (entitlement_data now uid pid tid plat receipt) (items s)).
Proof.
  unfold grant_entitlement, try_except.
  destruct (negb (truthy tid) || negb (truthy (strip tid))) eqn:Hb; [now left|].
  assert (Hnb : strip tid <> EmptyString).
  { intros Hs. apply blank_iff in Hs. congruence. }
  unfold bind.
  pose proof (get_entitlement_by_transaction_items tid s) as Hi.
  destruct (get_entitlement_by_transaction tid s) as [[[e|]|x] s1]; simpl in Hi.
  - now left.
  - unfold put_item.
    destruct (table_call_cases
                (fun t => (tt, put (entitlement_data now uid pid tid plat receipt) t)) s1)
      as [(fs & _ & ->)|[_ ->]]; simpl; rewrite Hi; auto.
  - now left.
Qed.

Lemma truthy_length (s : string) : truthy s = true -> (String.length s <? 1)%nat = false.
Proof. destruct s; [discriminate|reflexivity]. Qed.

(** The route, step by step. *)
Lemma verify_purchase_eval (now : Z) (data : Json) (st : Store) :
  verify_purchase now data st
  = if negb (truthy (request_user data) && truthy (request_platform data)
             && truthy (dict_get_default data "receipt_data" EmptyString)
             && truthy (request_product data) && truthy (request_transaction data))
    then (Ok (Failed ("Missing required fields: user_id, platform, receipt_data, "
                      +:+ "product_id, transaction_id"), 400), st)
    else if negb (String.eqb (request_platform data) "ios"
                  || String.eqb (request_platform data) "android")
    then (Ok (Failed "Invalid platform", 400), st)
    else
      match validation data with
      | Raise _ => (Ok (Failed "Purchase verification failed", 500), st)
      | Ok result =>
          if negb (valid result)
          then (Ok (NotGranted false
                      (option_or (error_message result) "Receipt verification failed"),
                    400), st)
          else
            let r := grant_entitlement now (request_user data) (request_product data)
                       (option_or (result_transaction_id result) (request_transaction data))
                       (request_platform data) (result_receipt_data result) st in
            match fst r with
            | Ok true =>
                (Ok (PurchaseVerified (request_product data)
                       (dict_get_default PRODUCT_ASSESSMENTS (request_product data) 2)
                       (result_transaction_id result)
                       ("Purchase verified! You now have "
                        +:+ pretty (dict_get_default PRODUCT_ASSESSMENTS
                                      (request_product data) 2)
                        +:+ " assessments available."), 200), snd r)
            | Ok false =>
                (Ok (NotGranted true
                       "Failed to grant entitlement (may already be processed)", 409),
                 snd r)
            | Raise _ => (Ok (Failed "Purchase verification failed", 500), snd r)
            end
      end.
Proof.
  unfold verify_purchase, try_except, validation.
  fold (request_user data) (request_platform data) (request_product data)
    (request_transaction data).
  destruct (truthy (request_user data) && truthy (request_platform data)
            && truthy (dict_get_default data "receipt_data" EmptyString)
            && truthy (request_product data) && truthy (request_transaction data)) eqn:Hall;
    cbn [negb]; [|reflexivity].
  apply andb_prop in Hall as [_ Htid]. rewrite (truthy_length _ Htid).
  destruct (String.eqb (request_platform data) "ios"
            || String.eqb (request_platform data) "android"); cbn [negb]; [|reflexivity].
  unfold bind, call.
  destruct (if String.eqb (request_platform data) "ios"
            then apple_validate_receipt (dict_get_default data "receipt_data" EmptyString)
                   (request_user data)
            else google_validate_receipt (dict_get_default data "receipt_data" EmptyString)
                   (request_user data)) as [result|e]; [|reflexivity].
  destruct (valid result); cbn [negb]; [|reflexivity].
  destruct (grant_entitlement now (request_user data) (request_product data)
              (option_or (result_transaction_id result) (request_transaction data))
              (request_platform data) (result_receipt_data result) st) as [[[]|e] st1];
    reflexivity.
Qed.

(** X21.  The answers of [verify_purchase], for a request body that is
    a JSON object with string values.  The route never raises and
    answers 200, 400, 409 or 500.  The entitlements table changes only
    with a 200.  With a 400 or a 500 no table call was made.  A 500 is
    answered only when the receipt validator raised: a failure of a
    table call never gives a 500. *)
Theorem verify_purchase_statuses (now : Z) (data : Json) (st : Store) :
  exists body status,
    fst (verify_purchase now data st) = Ok (body, status)
    /\ (status = 200 \/ status = 400 \/ status = 409 \/ status = 500)
    /\ (status <> 200 -> items (snd (verify_purchase now data st)) = items st)
    /\ (status = 400 \/ status = 500 -> snd (verify_purchase now data st) = st)
    /\ (status = 500 -> exists e, validation data = Raise e).
Proof.
  rewrite verify_purchase_eval.
  destruct (negb _).
  { eexists _, _. split; [reflexivity|]. cbn [fst snd].
    repeat split; try tauto; try (intros; first [lia | reflexivity]). }
  destruct (negb _).
  { eexists _, _. split; [reflexivity|]. cbn [fst snd].
    repeat split; try tauto; try (intros; first [lia | reflexivity]). }
  destruct (validation data) as [result|e].
  2:{ eexists _, _. split; [reflexivity|]. cbn [fst snd].
      split; [tauto|]. split; [reflexivity|]. split; [reflexivity|].
      intros _. now exists e. }
  destruct (negb (valid result)).
  { eexists _, _. split; [reflexivity|]. cbn [fst snd].
    repeat split; try tauto; try (intros; first [lia | reflexivity]). }
  cbv zeta.
  destruct (grant_entitlement_cases now (request_user data) (request_product data)
              (option_or (result_transaction_id result) (request_transaction data))
              (request_platform data) (result_receipt_data result) st)
    as [[-> Hi]|(-> & _ & Hi)].
  - eexists _, _. split; [reflexivity|]. cbn [fst snd].
    split; [tauto|]. split; [intros _; exact Hi|]. split; [intros [[=]|[=]]|intros [=]].
  - eexists _, _. split; [reflexivity|]. cbn [fst snd].
    split; [tauto|]. split; [intros Hne; now destruct Hne|].
    split; [intros [[=]|[=]]|intros [=]].
Qed.

(** X22.  What a 200 of [verify_purchase] means.  The request named a
    user, a product, a receipt and a transaction id, its platform was
    [ios] or [android] up to case and spaces around it, and the validator
    of that platform accepted the receipt.  The table now holds, for the
    user and the product, an active entitlement with 2 units, the number
    the answer gives as [assessments_granted]; its transaction id is the
    one the validator reported, or the one of the request when the
    validator reported none. *)
Theorem verify_purchase_grants (now : Z) (data : Json) (st : Store) (body : Body) :
  fst (verify_purchase now data st) = Ok (body, 200) ->
  exists result message,
    validation data = Ok result
    /\ valid result = true
    /\ (request_platform data = "ios" \/ request_platform data = "android")
    /\ body = PurchaseVerified (request_product data) 2 (result_transaction_id result) message
    /\ let ent := entitlement_data now (request_user data) (request_product data)
                    (option_or (result_transaction_id result) (request_transaction data))
                    (request_platform data) (result_receipt_data result) in
       items (snd (verify_purchase now data st)) = put ent (items st)
       /\ In ent (items (snd (verify_purchase now data st)))
       /\ assessments_remaining ent = 2
       /\ status ent = "active"
       /\ strip (transaction_id ent) <> EmptyString.
Proof.
  rewrite verify_purchase_eval.
  destruct (negb _); [intros [=]|].
  destruct (negb (String.eqb (request_platform data) "ios"
                  || String.eqb (request_platform data) "android")) eqn:Hplat;
    [intros [=]|].
  destruct (validation data) as [result|e]; [|intros [=]].
  destruct (valid result) eqn:Hv; cbn [negb]; [|intros [=]].
  cbv zeta.
  destruct (grant_entitlement_cases now (request_user data) (request_product data)
              (option_or (result_transaction_id result) (request_transaction data))
              (request_platform data) (result_receipt_data result) st)
    as [[-> Hi]|(-> & Hnb & Hi)]; [intros [=]|].
  cbn [fst snd]. intros [= <-].
  eexists result, _. split; [reflexivity|]. split; [exact Hv|]. split.
  { apply negb_false_iff, orb_prop in Hplat as [Hp|Hp]; apply String.eqb_eq in Hp; auto. }
  rewrite product_assessments_two. split; [reflexivity|].
  cbv zeta. split; [exact Hi|]. split.
  { rewrite Hi. apply in_put. now left. }
  split; [|split; [reflexivity|exact Hnb]].
  cbn [entitlement_data assessments_remaining]. apply product_assessments_two.
Qed.


(** ** The entitlement routes *)

(** X24.  The [check-entitlement] and [restore-purchases] routes, for a
    request body that is a JSON object with string values.  For such a
    body they never answer 500 and never change the table.  They answer
    400 exactly when a required field is missing or empty, and 200
    otherwise, also when the table fails: then the answer is that of a
    user without entitlements, no access and 0 units, or an empty
    list. *)
Theorem entitlement_routes_hide_failures (data : Json) (st : Store) :
  (exists body status,
      fst (check_entitlement data st) = Ok (body, status)
      /\ items (snd (check_entitlement data st)) = items st
      /\ (if truthy (dict_get_default data "user_id" EmptyString)
             && truthy (dict_get_default data "module_type" EmptyString)
          then status = 200
               /\ match faults st with
                  | true :: _ => body = Entitlements no_access
                  | _ => exists r, body = Entitlements r
                  end
          else status = 400))
  /\ (exists body status,
        fst (restore_purchases data st) = Ok (body, status)
        /\ items (snd (restore_purchases data st)) = items st
        /\ (if truthy (dict_get_default data "user_id" EmptyString)
            then status = 200
                 /\ match faults st with
                    | true :: _ => body = Restored [] 0 0
                    | _ => exists l n total, body = Restored l n total
                    end
            else status = 400)).
Proof.
  split.
  - unfold check_entitlement, try_except.
    destruct (truthy (dict_get_default data "user_id" EmptyString));
      destruct (truthy (dict_get_default data "module_type" EmptyString)); cbn [negb orb andb];
      try (eexists _, _; repeat split; reflexivity).
    unfold bind, EntitlementDAL.check_entitlement, try_except, bind, query_user.
    match goal with |- context [table_call ?f st] =>
      destruct (table_call_cases f st) as [(fs & Hf & ->)|[Hf ->]] end; cbn [fst snd].
    + rewrite Hf. eexists _, _. repeat split; reflexivity.
    + destruct (check_loop _ _ _ _) as [matching total]. cbn [fst snd ret items].
      eexists _, _. split; [reflexivity|]. split; [reflexivity|]. split; [reflexivity|].
      destruct (faults st) as [|[] fs]; [eexists; reflexivity|discriminate|eexists; reflexivity].
  - unfold restore_purchases, try_except.
    destruct (truthy (dict_get_default data "user_id" EmptyString)); cbn [negb];
      try (eexists _, _; repeat split; reflexivity).
    unfold bind, get_user_entitlements, try_except, query_user.
    match goal with |- context [table_call ?f st] =>
      destruct (table_call_cases f st) as [(fs & Hf & ->)|[Hf ->]] end; cbn [fst snd].
    + rewrite Hf. eexists _, _. repeat split; reflexivity.
    + cbn [ret items]. eexists _, _. split; [reflexivity|]. split; [reflexivity|].
      split; [reflexivity|].
      destruct (faults st) as [|[] fs];
        [eexists _, _, _; reflexivity|discriminate|eexists _, _, _; reflexivity].
Qed.

Lemma matches_active (module_type : string) (ent : Entitlement) :
  matches module_type ent = true -> active ent = true.
Proof. unfold matches, active. intros Hm. now apply andb_prop in Hm as [Ha _]. Qed.

Lemma sum_remaining_matches_le (module_type : string) (l : list Entitlement) :
  Forall units_ok l ->
  sum_remaining (List.filter (matches module_type) l)
  <= sum_remaining (List.filter active l).
Proof.
  induction 1 as [|x l Hx _ IH]; [reflexivity|]. cbn [List.filter].
  destruct (matches module_type x) eqn:Hm.
  - rewrite (matches_active _ _ Hm), !sum_remaining_cons. lia.
  - destruct (active x); rewrite ?sum_remaining_cons; [|exact IH].
    destruct Hx as [Hr _]. lia.
Qed.

(** X25.  What [restore-purchases] reports.  On a table that answers
    and whose items are well formed, the route lists the entitlements of
    the user, counts the active ones and adds up their units; the units
    [check_entitlement] reports for any module type are among them and
    never exceed that total. *)
Theorem restore_purchases_totals (data : Json) (st : Store) :
  truthy (dict_get_default data "user_id" EmptyString) = true ->
  faults st = [] ->
  Forall units_ok (items st) ->
  let uid := dict_get_default data "user_id" EmptyString in
  let owned := by_user uid (items st) in
  restore_purchases data st
  = (Ok (Restored owned (Z.of_nat (List.length (List.filter active owned)))
           (sum_remaining (List.filter active owned)), 200), st)
  /\ forall module_type,
       fst (EntitlementDAL.check_entitlement uid module_type st)
       = Ok {| has_access := 0 <? user_units uid module_type (items st);
               total_remaining := user_units uid module_type (items st);
               products := List.filter (matches module_type) owned;
               total_products :=
                 Z.of_nat (List.length (List.filter (matches module_type) owned)) |}
       /\ incl (List.filter (matches module_type) owned) (List.filter active owned)
       /\ 0 <= user_units uid module_type (items st)
          <= sum_remaining (List.filter active owned).
Proof.
  intros Hu Hf Hok uid owned. subst owned uid. split.
  - unfold restore_purchases, try_except. rewrite Hu. cbn [negb].
    unfold bind. rewrite get_user_entitlements_ok by exact Hf. reflexivity.
  - intros module_type. split; [|split].
    + rewrite check_entitlement_ok by exact Hf. reflexivity.
    + intros x Hx. apply filter_In in Hx as [Hin Hm]. apply filter_In.
      split; [exact Hin|now apply (matches_active module_type)].
    + split; [now apply user_units_nonneg|].
      unfold user_units. apply sum_remaining_matches_le.
      unfold by_user. apply Forall_forall. intros x Hx.
      apply filter_In in Hx as [Hin _]. rewrite Forall_forall in Hok. now apply Hok.
Qed.

End MobileRoutes.

(** ** The routes on concrete inputs *)

Section MobileRouteRuns.
Import PyStr Eff EntitlementDAL LedgerExamples MobileApi ApiExamples.
#[local] Existing Instance render_flat.
#[local] Existing Instance accepting.

(** The body of the answer to [purchase_request]. *)
Lemma purchase_request_answer :
  fst (verify_purchase 100 purchase_request empty_store)
  = Ok (PurchaseVerified "com.ieltsaiprep.academic.writing" 2 (Some "store-tx-1")
          "Purchase verified! You now have 2 assessments available.", 200).
Proof. vm_compute. reflexivity. Qed.

Lemma verify_purchase_grants_witness :
  fst (verify_purchase 100 purchase_request empty_store)
  = Ok (PurchaseVerified "com.ieltsaiprep.academic.writing" 2 (Some "store-tx-1")
          "Purchase verified! You now have 2 assessments available.", 200)
  /\ request_platform purchase_request = "ios"
  /\ exists result, validation purchase_request = Ok result /\ valid result = true.
Proof.
  split; [exact purchase_request_answer|].
  destruct (verify_purchase_grants 100 purchase_request empty_store _
              purchase_request_answer) as (result & message & Hval & Hv & _).
  split; [vm_compute; reflexivity|]. exists result. split; [exact Hval|exact Hv].
Defined.


Lemma restore_purchases_totals_witness :
  truthy (dict_get_default entitlement_request "user_id" EmptyString) = true
  /\ faults two_purchases = []
  /\ Forall units_ok (items two_purchases)
  /\ fst (restore_purchases entitlement_request two_purchases)
     = Ok (Restored (by_user "user-1" (items two_purchases))
             (Z.of_nat (List.length
                          (List.filter active (by_user "user-1" (items two_purchases)))))
             (sum_remaining (List.filter active (by_user "user-1" (items two_purchases)))),
           200).
Proof.
  assert (Hu : truthy (dict_get_default entitlement_request "user_id" EmptyString) = true)
    by reflexivity.
  assert (Hf : faults two_purchases = []) by reflexivity.
  split; [exact Hu|]. split; [exact Hf|]. split; [exact (proj2 two_purchases_ok)|].
  rewrite (proj1 (restore_purchases_totals entitlement_request two_purchases Hu Hf
                    (proj2 two_purchases_ok))).
  reflexivity.
Defined.

End MobileRouteRuns.

(* ================================================================== *)
(** * Password reset tokens *)

Section ResetTokens.
Import PyStr Eff ResetTokenDAL.

Lemma token_call_ok {A : Type} (f : gmap string TokenItem -> A * gmap string TokenItem)
    (s : TokenStore) :
  faults s = [] ->
  table_call f s = (Ok (fst (f (tokens s))), {| tokens := snd (f (tokens s)); faults := [] |}).
Proof. intros Hf. unfold table_call. rewrite Hf. now destruct (f (tokens s)). Qed.

Lemma token_call_cases {A : Type} (f : gmap string TokenItem -> A * gmap string TokenItem)
    (s : TokenStore) :
  (exists fs, faults s = true :: fs
              /\ table_call f s = (Raise StorageError, {| tokens := tokens s; faults := fs |}))
  \/ (hd false (faults s) = false
      /\ table_call f s = (Ok (fst (f (tokens s))),
                           {| tokens := snd (f (tokens s)); faults := tl (faults s) |})).
Proof.
  unfold table_call. destruct (faults s) as [|[] fs].
  - right. split; [reflexivity|]. now destruct (f (tokens s)).
  - left. now exists fs.
  - right. split; [reflexivity|]. now destruct (f (tokens s)).
Qed.

Lemma token_store_eta (s : TokenStore) :
  faults s = [] -> {| tokens := tokens s; faults := [] |} = s.
Proof. destruct s; simpl; now intros ->. Qed.

Lemma validate_reset_token_cases (now : Z) (token : string) (s : TokenStore) :
  (exists fs, faults s = true :: fs
              /\ validate_reset_token now token s
                 = (Ok None, {| tokens := tokens s; faults := fs |}))
  \/ (hd false (faults s) = false
      /\ validate_reset_token now token s
         = (Ok (answer now (tokens s !! token)),
            {| tokens := tokens s; faults := tl (faults s) |})).
Proof.
  unfold validate_reset_token, try_except, bind, get_item.
  destruct (token_call_cases (fun t => (t !! token, t)) s) as [(fs & Hf & ->)|[Hf ->]].
  - left. exists fs. split; [exact Hf|reflexivity].
  - right. split; [exact Hf|]. cbn [fst snd]. unfold answer.
    destruct (tokens s !! token) as [[e c x u]|]; [|reflexivity].
    cbn [used expires_at email].
    destruct u as [[]|]; cbn; try reflexivity;
      destruct x as [x|]; cbn; try (destruct e; reflexivity);
      destruct (x <? now); cbn; try (destruct e; reflexivity);
      destruct e; reflexivity.
Qed.


Lemma validate_reset_token_ok (now : Z) (token : string) (s : TokenStore) :
  faults s = [] ->
  validate_reset_token now token s = (Ok (answer now (tokens s !! token)), s).
Proof.
  intros Hf. destruct (validate_reset_token_cases now token s) as [(fs & Hf' & _)|[_ ->]];
    [congruence|]. rewrite Hf. cbn [tl]. now rewrite token_store_eta.
Qed.

Lemma create_reset_token_overflow (now : Z) (email_address token : string)
    (expires_minutes : Z) (s : TokenStore) :
  representable now expires_minutes = false ->
  create_reset_token now email_address token expires_minutes s = (Ok false, s).
Proof.
  intros Hr. unfold create_reset_token, try_except, bind, add_minutes. now rewrite Hr.
Qed.

Lemma create_reset_token_cases (now : Z) (email_address token : string)
    (expires_minutes : Z) (s : TokenStore) :
  create_reset_token now email_address token expires_minutes s = (Ok false, s)
  \/ (exists fs, faults s = true :: fs
                 /\ create_reset_token now email_address token expires_minutes s
                    = (Ok false, {| tokens := tokens s; faults := fs |}))
  \/ (representable now expires_minutes = true
      /\ hd false (faults s) = false
      /\ create_reset_token now email_address token expires_minutes s
         = (Ok true,
            {| tokens := <[token := {| email := Some email_address; created_at := Some now;
                                       expires_at := Some (now + minutes expires_minutes);
                                       used := Some false |}]> (tokens s);
               faults := tl (faults s) |})).
Proof.
  destruct (representable now expires_minutes) eqn:Hr.
  2:{ left. now apply create_reset_token_overflow. }
  right. unfold create_reset_token, try_except, bind, add_minutes, put_item. rewrite Hr.
  cbn [ret].
  match goal with |- context [table_call ?f s] =>
    destruct (token_call_cases f s) as [(fs & Hf & ->)|[Hf ->]] end.
  - left. exists fs. split; [exact Hf|reflexivity].
  - right. split; [reflexivity|]. split; [exact Hf|reflexivity].
Qed.

(** X26.  A token round trip.  When the expiry is a date that can be
    formed (the duration and the sum are in range) and the table
    answers, [create_reset_token] returns [True], and from then on
    [validate_reset_token] returns the address the token was created for
    up to and including the instant of expiry, and [None] after it,
    without changing anything.  This holds whatever the table held under
    the token before, a used token included; the validation of other
    tokens is not affected.  When the expiry cannot be formed, the
    overflow is caught: [create_reset_token] returns [False] and makes no
    table call. *)
Theorem reset_token_round_trip (now : Z) (email_address token : string)
    (expires_minutes : Z) (s : TokenStore) :
  faults s = [] ->
  if representable now expires_minutes
  then
    let s1 := snd (create_reset_token now email_address token expires_minutes s) in
    fst (create_reset_token now email_address token expires_minutes s) = Ok true
    /\ (forall now',
          validate_reset_token now' token s1
          = (Ok (if now + minutes expires_minutes <? now' then None else Some email_address),
             s1))
    /\ (forall token' now',
          token' <> token ->
          fst (validate_reset_token now' token' s1)
          = fst (validate_reset_token now' token' s))
  else create_reset_token now email_address token expires_minutes s = (Ok false, s).
Proof.
  intros Hf. destruct (representable now expires_minutes) eqn:Hr.
  2:{ now apply create_reset_token_overflow. }
  unfold create_reset_token, try_except, bind, add_minutes, put_item. rewrite Hr.
  cbn [ret]. rewrite token_call_ok by exact Hf. cbn [fst snd ret].
  split; [reflexivity|]. split.
  - intros now'. rewrite validate_reset_token_ok by reflexivity.
    cbn [tokens]. rewrite lookup_insert_eq. reflexivity.
  - intros token' now' Hne.
    rewrite !validate_reset_token_ok by (reflexivity || exact Hf).
    cbn [tokens fst]. rewrite lookup_insert_ne by congruence. reflexivity.
Qed.

Lemma spent_run_op (token : string) (op : TokenOp) (s : TokenStore) :
  creates token op = false -> spent token s -> spent token (run_op s op).
Proof.
  intros Hc (item & Hi & Hu). destruct op as [now e t m|now t|t]; cbn [run_op creates] in *.
  - destruct (create_reset_token_cases now e t m s)
      as [->|[(fs & _ & ->)|(_ & _ & ->)]]; cbn [snd].
    + exists item. now split.
    + exists item. now split.
    + exists item. split; [|exact Hu]. cbn [tokens].
      rewrite lookup_insert_ne; [exact Hi|]. intros ->.
      rewrite String.eqb_refl in Hc. discriminate.
  - destruct (validate_reset_token_cases now t s) as [(fs & _ & ->)|[_ ->]];
      exists item; now split.
  - unfold invalidate_reset_token, try_except, bind, update_item.
    match goal with |- context [table_call ?f s] =>
      destruct (token_call_cases f s) as [(fs & _ & ->)|[_ ->]] end; cbn [fst snd ret].
    + exists item. now split.
    + unfold spent. cbn [tokens]. destruct (String.eqb_spec t token) as [->|Hne].
      * rewrite Hi. eexists. split; [apply lookup_insert_eq|reflexivity].
      * exists item. split; [|exact Hu]. now rewrite lookup_insert_ne.
Qed.

Lemma spent_answer (now : Z) (token : string) (s : TokenStore) :
  spent token s -> answer now (tokens s !! token) = None.
Proof.
  intros (item & -> & Hu). unfold answer. destruct item as [e c x u]. cbn [used] in Hu.
  subst u. destruct e, x; reflexivity.
Qed.

(** X27.  An invalidated token stays invalid.  After
    [invalidate_reset_token] returned [True] for a token, whether the
    token was in the table or not, [validate_reset_token] returns [None]
    for it at any time and after any later creations, validations and
    invalidations, failing or not, as long as none of them creates that
    token again. *)
Theorem invalidated_token_stays_invalid (token : string) (s : TokenStore)
    (ops : list TokenOp) (now : Z) :
  fst (invalidate_reset_token token s) = Ok true ->
  Forall (fun op => creates token op = false) ops ->
  fst (validate_reset_token now token (run_ops ops (snd (invalidate_reset_token token s))))
  = Ok None.
Proof.
  intros Hok Hops.
  assert (Hspent : spent token (snd (invalidate_reset_token token s))).
  { revert Hok. unfold invalidate_reset_token, try_except, bind, update_item.
    match goal with |- context [table_call ?f s] =>
      destruct (token_call_cases f s) as [(fs & _ & ->)|[_ ->]] end; cbn [fst snd ret];
      [discriminate|]. intros _. unfold spent. cbn [tokens].
    eexists. split; [apply lookup_insert_eq|]. now destruct (tokens s !! token). }
  assert (Hlater : spent token (run_ops ops (snd (invalidate_reset_token token s)))).
  { unfold run_ops. generalize dependent (snd (invalidate_reset_token token s)).
    induction Hops as [|op ops Hop _ IH]; intros s1 Hs1; [exact Hs1|].
    cbn [fold_left]. apply IH. now apply spent_run_op. }
  destruct (validate_reset_token_cases now token
              (run_ops ops (snd (invalidate_reset_token token s))))
    as [(fs & _ & ->)|[_ ->]]; [reflexivity|].
  cbn [fst]. now rewrite spent_answer.
Qed.

(** X28.  The token calls when the table fails.  None of the three calls
    raises.  [validate_reset_token] never changes the table and answers
    [None] when the table call fails.  When the table call fails,
    [create_reset_token] and [invalidate_reset_token] return [False] and
    leave the table as it was: a token whose invalidation failed is as
    valid as before.  ([create_reset_token] reaches the table only when
    the expiry can be formed; otherwise it returns [False] before any
    table call.) *)
Theorem token_calls_on_failure (now : Z) (email_address token : string)
    (expires_minutes : Z) (s : TokenStore) :
  (exists r, fst (validate_reset_token now token s) = Ok r)
  /\ tokens (snd (validate_reset_token now token s)) = tokens s
  /\ (exists b, fst (create_reset_token now email_address token expires_minutes s) = Ok b)
  /\ (exists b, fst (invalidate_reset_token token s) = Ok b)
  /\ (forall fs, faults s = true :: fs ->
        validate_reset_token now token s
        = (Ok None, {| tokens := tokens s; faults := fs |})
        /\ create_reset_token now email_address token expires_minutes s
           = (Ok false,
              if representable now expires_minutes
              then {| tokens := tokens s; faults := fs |} else s)
        /\ invalidate_reset_token token s
           = (Ok false, {| tokens := tokens s; faults := fs |})
        /\ forall now',
             answer now' (tokens (snd (invalidate_reset_token token s)) !! token)
             = answer now' (tokens s !! token)).
Proof.
  split; [|split; [|split; [|split]]].
  - destruct (validate_reset_token_cases now token s) as [(fs & _ & ->)|[_ ->]];
      eexists; reflexivity.
  - destruct (validate_reset_token_cases now token s) as [(fs & _ & ->)|[_ ->]]; reflexivity.
  - destruct (create_reset_token_cases now email_address token expires_minutes s)
      as [->|[(fs & _ & ->)|(_ & _ & ->)]]; eexists; reflexivity.
  - unfold invalidate_reset_token, try_except, bind, update_item.
    match goal with |- context [table_call ?f s] =>
      destruct (token_call_cases f s) as [(fs & _ & ->)|[_ ->]] end; eexists; reflexivity.
  - intros fs Hf.
    assert (Hcall : forall A (f : gmap string TokenItem -> A * gmap string TokenItem),
               table_call f s = (Raise StorageError, {| tokens := tokens s; faults := fs |})).
    { intros A f. unfold table_call. now rewrite Hf. }
    assert (Hinv : invalidate_reset_token token s
                   = (Ok false, {| tokens := tokens s; faults := fs |})).
    { unfold invalidate_reset_token, try_except, bind, update_item. now rewrite Hcall. }
    split; [|split; [|split]].
    + unfold validate_reset_token, try_except, bind, get_item. now rewrite Hcall.
    + destruct (representable now expires_minutes) eqn:Hr.
      * unfold create_reset_token, try_except, bind, add_minutes, put_item. rewrite Hr.
        cbn [ret]. now rewrite Hcall.
      * now apply create_reset_token_overflow.
    + exact Hinv.
    + intros now'. now rewrite Hinv.
Qed.

End ResetTokens.

(* ================================================================== *)
(** * The daily limit *)

Section DailyLimit.
Import PyStr Eff AssessmentDAL.

Lemma day_value : day = 86400000000.
Proof. reflexivity. Qed.

Lemma start_of_day_bounds (now : Z) :
  start_of_day now <= now < start_of_day now + day.
Proof.
  unfold start_of_day. rewrite day_value.
  pose proof (Z.mod_pos_bound now 86400000000 eq_refl). lia.
Qed.

Lemma start_of_day_next (now : Z) :
  start_of_day (start_of_day now + day) = start_of_day now + day.
Proof.
  unfold start_of_day. rewrite day_value. Z.div_mod_to_equations. lia.
Qed.

(** X29.  The daily limit.  [check_rate_limit] never raises.  When the
    query succeeds it returns the number of assessments of the user
    stamped from the start of the current UTC day to the start of the
    next one, both instants included, and whether that number is below
    the limit; an assessment stamped exactly at midnight is therefore
    counted on both days.  When the query fails the count is 0 and the
    user is let through for every positive limit: the error is absorbed
    by [get_daily_assessment_count], and the handler of [check_rate_limit]
    itself is never reached. *)
Theorem daily_limit_window (now : Z) (email_address : string) (daily_limit : Z)
    (s : AssessmentStore) :
  let count := Z.of_nat (List.length (counted now email_address (assessments s))) in
  check_rate_limit now email_address daily_limit s
  = match faults s with
    | true :: fs =>
        (Ok (0 <? daily_limit, 0), {| assessments := assessments s; faults := fs |})
    | fs =>
        (Ok (count <? daily_limit, count),
         {| assessments := assessments s; faults := tl fs |})
    end
  /\ start_of_day now <= now < start_of_day now + day
  /\ (forall a t,
        user_email a = Some email_address -> timestamp a = Some t ->
        (In a (counted now email_address (assessments s))
         <-> In a (assessments s) /\ start_of_day now <= t <= start_of_day now + day))
  /\ (forall a,
        user_email a = Some email_address ->
        timestamp a = Some (start_of_day now + day) ->
        In a (assessments s) ->
        In a (counted now email_address (assessments s))
        /\ In a (counted (start_of_day now + day) email_address (assessments s))).
Proof.
  intros count. subst count.
  assert (Hin : forall now' a t,
             user_email a = Some email_address -> timestamp a = Some t ->
             (In a (counted now' email_address (assessments s))
              <-> In a (assessments s)
                  /\ start_of_day now' <= t <= start_of_day now' + day)).
  { intros now' a t Hu Ht. unfold counted. rewrite !filter_In.
    unfold between, of_user. rewrite Hu, Ht, String.eqb_refl.
    rewrite andb_true_iff, !Z.leb_le. tauto. }
  split; [|split; [apply start_of_day_bounds|split]].
  - unfold check_rate_limit, get_daily_assessment_count, try_except, bind, query, counted.
    destruct (faults s) as [|[] fs]; reflexivity.
  - intros a t. apply Hin.
  - intros a Hu Ht Ha. split.
    + apply (Hin now a _ Hu Ht). split; [exact Ha|].
      pose proof (start_of_day_bounds now). rewrite day_value in *. lia.
    + apply (Hin _ a _ Hu Ht). split; [exact Ha|]. rewrite start_of_day_next.
      rewrite day_value. lia.
Qed.

End DailyLimit.

(** ** The token calls on concrete inputs *)

Section ResetTokenRuns.
Import PyStr Eff ResetTokenDAL.

Lemma reset_token_round_trip_witness :
  faults empty_store = []
  /\ fst (validate_reset_token (minutes 30) "tok-1"
            (snd (create_reset_token 0 "a@example.org" "tok-1" 30 empty_store)))
     = Ok (Some "a@example.org")
  /\ fst (validate_reset_token (minutes 30 + 1) "tok-1"
            (snd (create_reset_token 0 "a@example.org" "tok-1" 30 empty_store)))
     = Ok None.
Proof.
  assert (Hf : faults empty_store = []) by reflexivity.
  split; [exact Hf|].
  pose proof (reset_token_round_trip 0 "a@example.org" "tok-1" 30 empty_store Hf) as Htrip.
  destruct Htrip as (_ & Hvalid & _).
  rewrite !Hvalid. split; reflexivity.
Defined.

(** Ten thousand million minutes from now is past the year 9999: no
    token is stored. *)
Lemma reset_token_overflow :
  create_reset_token 0 "a@example.org" "tok-1" 10000000000 empty_store
  = (Ok false, empty_store).
Proof. reflexivity. Qed.

Lemma invalidated_token_stays_invalid_witness :
  fst (invalidate_reset_token "tok-1"
         (snd (create_reset_token 0 "a@example.org" "tok-1" 30 empty_store))) = Ok true
  /\ Forall (fun op => creates "tok-1" op = false)
       [Validate 5 "tok-1"; Create 6 "b@example.org" "tok-2" 30; Invalidate "tok-2"]
  /\ fst (validate_reset_token 7 "tok-1"
            (run_ops [Validate 5 "tok-1"; Create 6 "b@example.org" "tok-2" 30;
                      Invalidate "tok-2"]
               (snd (invalidate_reset_token "tok-1"
                       (snd (create_reset_token 0 "a@example.org" "tok-1" 30
                               empty_store))))))
     = Ok None.
Proof.
  assert (Hok : fst (invalidate_reset_token "tok-1"
                       (snd (create_reset_token 0 "a@example.org" "tok-1" 30 empty_store)))
                = Ok true)
    by reflexivity.
  assert (Hops : Forall (fun op => creates "tok-1" op = false)
                   [Validate 5 "tok-1"; Create 6 "b@example.org" "tok-2" 30;
                    Invalidate "tok-2"])
    by (repeat constructor).
  split; [exact Hok|]. split; [exact Hops|].
  exact (invalidated_token_stays_invalid "tok-1" _ _ 7 Hok Hops).
Defined.

End ResetTokenRuns.

(* ================================================================== *)
(** * The region of the live service *)

Section ServiceRegion.
Import PyStr Eff GeminiRegionalRouter.

(** The selection always returns a region of the catalog, and a healthy
    one when there is any. *)
Lemma get_optimal_region_total (now : Z) (rnd : nat)
    (country_code ip_address preferred_region : option string) (rt : Router) :
  exists r info,
    get_optimal_region now rnd country_code ip_address preferred_region rt = Ok (r, info)
    /\ in_catalog r
    /\ ((exists x, in_catalog x /\ _is_region_healthy now x rt = true) ->
        _is_region_healthy now r rt = true).
Proof.
  unfold get_optimal_region.
  destruct (preferred_choice now preferred_region rt) as [p|] eqn:Hp.
  { apply preferred_choice_spec in Hp as (_ & Hm & Hh).
    destruct (region_entry_ok p Hm) as (info & -> & _).
    exists p, info. split; [reflexivity|]. split; [now apply dict_mem_keys|now intros _]. }
  destruct (country_choice now country_code rt) as [m|] eqn:Hc.
  { apply country_choice_spec in Hc as (c & _ & Hmap & Hh).
    destruct (country_region_ok _ _ Hmap) as [_ Hm].
    destruct (region_entry_ok m Hm) as (info & -> & _).
    exists m, info. split; [reflexivity|]. split; [now apply dict_mem_keys|now intros _]. }
  rewrite ip_choice_none.
  destruct (region_entry_ok default_region default_region_in_catalog) as (dinfo & Hd & _).
  destruct (_is_region_healthy now default_region rt) eqn:Hdh.
  { rewrite Hd. exists default_region, dinfo. split; [reflexivity|].
    split; [apply dict_mem_keys, default_region_in_catalog|now intros _]. }
  destruct (healthy_regions now rt) as [|y ys] eqn:Hl.
  - rewrite Hd. exists default_region, dinfo. split; [reflexivity|].
    split; [apply dict_mem_keys, default_region_in_catalog|].
    intros (x & Hx & Hhx). exfalso.
    assert (Hin : In x (healthy_regions now rt)) by now apply healthy_regions_spec.
    rewrite Hl in Hin. destruct Hin.
  - pose proof (random_choice_in rnd y ys) as Hin. rewrite <- Hl in Hin.
    apply healthy_regions_spec in Hin as [Hcat Hh].
    assert (Hm : dict_mem VERTEX_AI_REGIONS (random_choice rnd y ys) = true)
      by now apply dict_mem_keys.
    destruct (region_entry_ok _ Hm) as (info & -> & _).
    exists (random_choice rnd y ys), info. auto.
Qed.

(** X30.  The region of the service.  The constructor never fails on the
    routing.  A region given to it is taken as it is, without a look at
    the catalog or at the health of the region.  Without a region and
    with automatic routing off, the region is [us-central1], whatever its
    health.  Without a region and with automatic routing on, the region
    is one of the catalog, and a healthy one whenever the catalog has a
    healthy region.  The sessions get the router exactly when automatic
    routing is on. *)
Theorem service_region_choice (now : Z) (rnd : nat)
    (region_name country_code ip_address : option string) (auto_regional_routing : bool)
    (rt : Router) :
  exists service,
    GeminiLiveServiceAWS.init now rnd region_name country_code ip_address
      auto_regional_routing rt = Ok service
    /\ GeminiLiveServiceAWS.regional_router service = auto_regional_routing
    /\ match region_name with
       | Some (String c r) => GeminiLiveServiceAWS.region service = String c r
       | _ =>
           if auto_regional_routing
           then in_catalog (GeminiLiveServiceAWS.region service)
                /\ ((exists x, in_catalog x /\ _is_region_healthy now x rt = true) ->
                    _is_region_healthy now (GeminiLiveServiceAWS.region service) rt = true)
           else GeminiLiveServiceAWS.region service = "us-central1"
       end.
Proof.
  unfold GeminiLiveServiceAWS.init.
  destruct (get_optimal_region_total now rnd country_code ip_address None rt)
    as (r & info & Hsel & Hcat & Hh).
  destruct region_name as [[|c name]|]; destruct auto_regional_routing;
    cbn [GeminiLiveSessionAWS.option_truthy truthy andb negb]; rewrite ?Hsel;
    eexists; (split; [reflexivity|]); (split; [reflexivity|]);
    cbn [GeminiLiveServiceAWS.region]; first [reflexivity | split; assumption].
Qed.

End ServiceRegion.
